(** * Route recording, marker resolution and route projection of tsw_hud_recorded

    A shallow embedding of the JavaScript sources [process_trip.js]
    (post-trip marker resolver), the recording HUD server and the route
    playback server, and of the timetable writers of [extract.js],
    followed by the properties proved about them.

    The two servers are the files the README starts with [node server.js]
    (recording) and [node run_route.js] (playback).  The route collection
    of the recording server is embedded twice: [Server] follows the trace
    alone, [Collection] adds the discovered markers and the route file.

    Conventions of the embedding.
    - A JavaScript number that carries a coordinate or a distance is a real
      number ([R]); [Math.sin], [Math.cos], [Math.sqrt] and [Math.atan2] are
      the real functions.  Rounding of binary64 arithmetic, [NaN] and the
      infinities are not modelled for these numbers ([Infinity] as the
      initial minimum of a search is [None]).
    - A number obtained through [parseInt] is an integer or [NaN].
    - An object property that may be missing is an [option]; [None] is
      [undefined], and [delete o.p] stores [None].
    - A module-level variable that a function reads is a parameter of the
      function; the variables a handler writes are a record that it maps to
      the next one.
    - Console output and timers are not modelled; a time read from the
      clock is an input. *)

From Stdlib Require Import Reals Machin Lra Lia ZArith List String Ascii Bool Sorted.
Import ListNotations.

Open Scope R_scope.

(* ================================================================== *)
(** * JavaScript primitives used by the sources *)
(* ================================================================== *)

(** Outcome of a function body that may dereference [undefined]. *)
Inductive outcome (A : Type) : Type :=
| Returns (a : A)        (* normal completion with a value *)
| TypeError              (* property access on [undefined] *)
| Raised (msg : string)  (* [throw new Error (msg)] *)
| OutOfFuel.             (* the loop bound of the embedding was too small *)

Arguments Returns {A} a.
Arguments TypeError {A}.
Arguments Raised {A} msg.
Arguments OutOfFuel {A}.

Definition bind {A B : Type} (o : outcome A) (k : A -> outcome B) : outcome B :=
  match o with
  | Returns a => k a
  | TypeError => TypeError
  | Raised msg => Raised msg
  | OutOfFuel => OutOfFuel
  end.

Notation "x <- e ;; k" := (bind e (fun x => k))
  (at level 61, e at next level, right associativity).

(** [a[i]] followed by a property access: a [TypeError] out of range. *)
Definition item {A : Type} (a : list A) (i : nat) : outcome A :=
  match nth_error a i with
  | Some x => Returns x
  | None => TypeError
  end.

(** Comparison operators on numbers. *)
Definition js_lt (x y : R) : bool := if Rlt_dec x y then true else false.
Definition js_gt (x y : R) : bool := js_lt y x.
Definition js_ge (x y : R) : bool := if Rle_dec y x then true else false.
Definition js_neq (x y : R) : bool := if Req_dec_T x y then false else true.

(** Truthiness of a possibly missing number: [undefined] and [0] are falsy. *)
Definition truthy_num (v : option R) : bool :=
  match v with
  | Some x => js_neq x 0
  | None => false
  end.

(** [a || b] on possibly missing numbers. *)
Definition or_num (a b : option R) : option R :=
  if truthy_num a then a else b.

(** [Math.round]: the nearest integer, halves towards plus infinity. *)
Definition Math_round (x : R) : Z := Int_part (x + / 2).

(** [Math.atan2 (y, x)]. *)
Definition Math_atan2 (y x : R) : R :=
  if js_lt 0 x then atan (y / x)
  else if js_lt x 0 then
         (if js_ge y 0 then atan (y / x) + PI else atan (y / x) - PI)
  else if js_lt 0 y then PI / 2
  else if js_lt y 0 then - (PI / 2)
  else 0.

(** Values that are a string, [null] or [undefined]. *)
Inductive jsval : Type :=
| JUndefined
| JNull
| JString (s : string).

Definition jsval_eqb (a b : jsval) : bool :=
  match a, b with
  | JUndefined, JUndefined => true
  | JNull, JNull => true
  | JString s, JString t => String.eqb s t
  | _, _ => false
  end.

Definition truthy_val (v : jsval) : bool :=
  match v with
  | JString s => negb (String.eqb s "")
  | _ => false
  end.

(* ================================================================== *)
(** * Data model of a route file *)
(* ================================================================== *)

(** An entry of [coordinates]; also the shape of [detectedAt] and of the
    position returned by [followRoutePath] (both without height/gradient). *)
Record Coordinate : Type := mkCoordinate {
  longitude : R;
  latitude : R;
  height : option R;
  gradient : option R
}.

Definition position (lat lon : R) : Coordinate :=
  {| longitude := lon; latitude := lat; height := None; gradient := None |}.

(** A stop of the timetable. *)
Record Stop : Type := mkStop {
  destination : jsval;
  arrival : jsval;
  departure : jsval;
  platform : jsval;
  apiName : jsval
}.

(** An entry of [markers], before or after resolution. *)
Module Marker.
Record t : Type := mk {
    stationName : option string;
    markerName : option string;
    markerType : option string;
    detectedAt : option Coordinate;
    distanceAheadMeters : option R;
    timestamp : option string;
    platformLength : option R;
    onspot_latitude : option R;
    onspot_longitude : option R;
    onspot_timestamp : option string;
    spoton_distance : option R;
    isTimetableStation : option bool;
    latitude : option R;
    longitude : option R;
    calculationMethod : option string
  }.
End Marker.

(** The parsed route file ([data] in process_trip.js, [loadedRouteData] in
    the playback server). *)
Record RouteData : Type := mkRouteData {
  coordinates : option (list Coordinate);
  markers : option (list Marker.t);
  timetable : option (list Stop)
}.

(* ================================================================== *)
(** * process_trip.js *)
(* ================================================================== *)

(** [calculateDistance]: Haversine distance in meters.  The playback server
    defines the same function, with Latin names for the locals. *)
Definition calculateDistance (lat1 lon1 lat2 lon2 : R) : R :=
  let earthR := 6371000 in
  let phi1 := lat1 * PI / 180 in
  let phi2 := lat2 * PI / 180 in
  let deltaPhi := (lat2 - lat1) * PI / 180 in
  let deltaLambda := (lon2 - lon1) * PI / 180 in
  let a := sin (deltaPhi / 2) * sin (deltaPhi / 2) +
           cos phi1 * cos phi2 *
           sin (deltaLambda / 2) * sin (deltaLambda / 2) in
  let c := 2 * Math_atan2 (sqrt a) (sqrt (1 - a)) in
  earthR * c.

(** Length of the segment between two recorded coordinates. *)
Definition segment (current next : Coordinate) : R :=
  calculateDistance (latitude current) (longitude current)
                    (latitude next) (longitude next).

(** [coordinates[coordinates.length - 1]] with its two property reads. *)
Definition lastCoord (coordinates : list Coordinate) : outcome Coordinate :=
  match coordinates with
  | [] => TypeError
  | c :: rest => Returns (position (latitude (last rest c)) (longitude (last rest c)))
  end.

(** The [while] loop of [followRoutePath]; [fuel] bounds the iterations. *)
Fixpoint followLoop (coordinates : list Coordinate) (fuel : nat)
    (currentIndex : nat) (remainingDistance : R) : outcome Coordinate :=
  if (Z.of_nat currentIndex <? Z.of_nat (List.length coordinates) - 1)%Z
     && js_gt remainingDistance 0
  then
    match fuel with
    | O => OutOfFuel
    | S fuel' =>
        current <- item coordinates currentIndex ;;
        next <- item coordinates (currentIndex + 1) ;;
        let segmentDistance := segment current next in
        if js_ge segmentDistance remainingDistance then
          let ratio := remainingDistance / segmentDistance in
          Returns (position
            (latitude current + (latitude next - latitude current) * ratio)
            (longitude current + (longitude next - longitude current) * ratio))
        else
          followLoop coordinates fuel' (currentIndex + 1)
                     (remainingDistance - segmentDistance)
    end
  else lastCoord coordinates.

(** [followRoutePath (coordinates, startIndex, distanceMeters)]. *)
Definition followRoutePath (coordinates : list Coordinate) (startIndex : nat)
    (distanceMeters : R) : outcome Coordinate :=
  if (Z.of_nat startIndex >=? Z.of_nat (List.length coordinates) - 1)%Z then
    lastCoord coordinates
  else
    followLoop coordinates (List.length coordinates) startIndex distanceMeters.

(** The [for] loop of the nearest-index searches: [i] is the index of the
    head of [rest]; [minDistance = None] is [Infinity]. *)
Fixpoint nearestLoop (targetLat targetLon : R) (rest : list Coordinate)
    (i : nat) (minDistance : option R) (nearestIndex : nat) : nat :=
  match rest with
  | [] => nearestIndex
  | coord :: rest' =>
      let distance :=
        calculateDistance targetLat targetLon (latitude coord) (longitude coord) in
      let better :=
        match minDistance with
        | None => true
        | Some m => js_lt distance m
        end in
      if better
      then nearestLoop targetLat targetLon rest' (S i) (Some distance) i
      else nearestLoop targetLat targetLon rest' (S i) minDistance nearestIndex
  end.

(** [findNearestCoordinateIndex (coordinates, targetLat, targetLon)]. *)
Definition findNearestCoordinateIndex (coordinates : list Coordinate)
    (targetLat targetLon : R) : nat :=
  nearestLoop targetLat targetLon coordinates 0 None 0.

(** Property writes on a marker object. *)
Module MarkerOps.
Import Marker.

Definition set_isTimetableStation (b : bool) (m : t) : t :=
    mk (stationName m) (markerName m) (markerType m) (detectedAt m)
       (distanceAheadMeters m) (timestamp m) (platformLength m)
       (onspot_latitude m) (onspot_longitude m) (onspot_timestamp m)
       (spoton_distance m) (Some b) (latitude m) (longitude m)
       (calculationMethod m).

Definition set_latitude (v : R) (m : t) : t :=
    mk (stationName m) (markerName m) (markerType m) (detectedAt m)
       (distanceAheadMeters m) (timestamp m) (platformLength m)
       (onspot_latitude m) (onspot_longitude m) (onspot_timestamp m)
       (spoton_distance m) (isTimetableStation m) (Some v) (longitude m)
       (calculationMethod m).

Definition set_longitude (v : R) (m : t) : t :=
    mk (stationName m) (markerName m) (markerType m) (detectedAt m)
       (distanceAheadMeters m) (timestamp m) (platformLength m)
       (onspot_latitude m) (onspot_longitude m) (onspot_timestamp m)
       (spoton_distance m) (isTimetableStation m) (latitude m) (Some v)
       (calculationMethod m).

Definition set_calculationMethod (v : string) (m : t) : t :=
    mk (stationName m) (markerName m) (markerType m) (detectedAt m)
       (distanceAheadMeters m) (timestamp m) (platformLength m)
       (onspot_latitude m) (onspot_longitude m) (onspot_timestamp m)
       (spoton_distance m) (isTimetableStation m) (latitude m) (longitude m)
       (Some v).

  (** The nine [delete marker.*] statements that end the loop body. *)
Definition cleanup (m : t) : t :=
    mk (stationName m) (markerName m) (markerType m)
       None   (* delete marker.detectedAt *)
       None   (* delete marker.distanceAheadMeters *)
       None   (* delete marker.timestamp *)
       None   (* delete marker.platformLength *)
       None   (* delete marker.onspot_latitude *)
       None   (* delete marker.onspot_longitude *)
       None   (* delete marker.onspot_timestamp *)
       None   (* delete marker.spoton_distance *)
       (isTimetableStation m) (latitude m) (longitude m)
       None.  (* delete marker.calculationMethod *)
End MarkerOps.

(** [timetableStations.includes (marker.stationName)]. *)
Definition includes (timetableStations : list string) (name : option string) : bool :=
  match name with
  | Some s => existsb (String.eqb s) timetableStations
  | None => false
  end.

(** The values read by the guard of Method 1,
    [marker.onspot_latitude && marker.onspot_longitude &&
     marker.spoton_distance !== undefined], when the guard holds. *)
Definition onspotData (marker : Marker.t) : option (R * R * R) :=
  if truthy_num (Marker.onspot_latitude marker)
     && truthy_num (Marker.onspot_longitude marker)
  then
    match Marker.onspot_latitude marker, Marker.onspot_longitude marker,
          Marker.spoton_distance marker with
    | Some lat, Some lon, Some d => Some (lat, lon, d)
    | _, _, _ => None
    end
  else None.

(** The values read by the guard of Method 2,
    [marker.detectedAt && marker.detectedAt.latitude &&
     marker.detectedAt.longitude && marker.distanceAheadMeters !== undefined],
    when the guard holds. *)
Definition detectionData (marker : Marker.t) : option (R * R * R) :=
  match Marker.detectedAt marker, Marker.distanceAheadMeters marker with
  | Some at_, Some d =>
      if js_neq (latitude at_) 0 && js_neq (longitude at_) 0
      then Some (latitude at_, longitude at_, d)
      else None
  | _, _ => None
  end.

(** Which branch of the [try] block handled a marker. *)
Inductive method : Type := Method1 | Method2 | NoData | Failed.

(** Both methods: nearest coordinate to the anchor, then the walk; the
    [catch] clause tags the marker ['error'].  The distances of a marker
    are numbers here, so the [console.log] call that ends each branch
    (it formats the distance with [toFixed]) cannot throw and is left
    out; a distance that is [null] or of another type is outside this
    embedding. *)
Definition anchorAndWalk (coordinates : list Coordinate) (marker : Marker.t)
    (anchorLat anchorLon distance : R) (tag : string) (used : method)
    : Marker.t * method :=
  let nearestIndex := findNearestCoordinateIndex coordinates anchorLat anchorLon in
  match followRoutePath coordinates nearestIndex distance with
  | Returns position =>
      (MarkerOps.set_calculationMethod tag
         (MarkerOps.set_longitude (longitude position)
            (MarkerOps.set_latitude (latitude position) marker)), used)
  | _ => (MarkerOps.set_calculationMethod "error" marker, Failed)
  end.

(** The [try]/[catch] statement of the loop body of [processMarkers]. *)
Definition resolveMarker (coordinates : list Coordinate) (marker : Marker.t)
    : Marker.t * method :=
  match onspotData marker with
  | Some (lat, lon, d) =>
      anchorAndWalk coordinates marker lat lon d "onspot" Method1
  | None =>
      match detectionData marker with
      | Some (lat, lon, d) =>
          anchorAndWalk coordinates marker lat lon d "detectedAt" Method2
      | None => (MarkerOps.set_calculationMethod "none" marker, NoData)
      end
  end.

(** One iteration of the loop of [processMarkers]. *)
Definition processMarker (coordinates : list Coordinate)
    (timetableStations : list string) (marker : Marker.t) : Marker.t * method :=
  let marked :=
    MarkerOps.set_isTimetableStation
      (includes timetableStations (Marker.stationName marker)) marker in
  let (resolved, used) := resolveMarker coordinates marked in
  (MarkerOps.cleanup resolved, used).

Definition counted (used : method) : nat :=
  match used with
  | Method1 | Method2 => 1
  | NoData | Failed => 0
  end.

(** [processMarkers (data, timetableStations)]: the number of markers that
    got a position, and [data] after the in-place updates. *)
Definition processMarkers (data : RouteData) (timetableStations : list string)
    : outcome (nat * RouteData) :=
  match coordinates data with
  | None | Some [] =>
      Raised "Invalid route data: missing or empty coordinates array"
  | Some coords =>
      match markers data with
      | None => Returns (0%nat, data)
      | Some ms =>
          let done := map (processMarker coords timetableStations) ms in
          Returns (list_sum (map (fun r => counted (snd r)) done),
                   {| coordinates := coordinates data;
                      markers := Some (map fst done);
                      timetable := timetable data |})
      end
  end.

(* ================================================================== *)
(** * The recording HUD server (server.js) *)
(* ================================================================== *)

(** A number produced by [parseInt] and integer arithmetic. *)
Inductive jsint : Type :=
| NaN
| Int (z : Z).

Definition int_add (a b : jsint) : jsint :=
  match a, b with
  | Int x, Int y => Int (x + y)
  | _, _ => NaN
  end.

Definition int_mul (a b : jsint) : jsint :=
  match a, b with
  | Int x, Int y => Int (x * y)
  | _, _ => NaN
  end.

(** [ToNumber] on a value that is a number or [null] ([None]). *)
Definition to_number (v : option jsint) : jsint :=
  match v with
  | Some n => n
  | None => Int 0
  end.

(** [a < b] and [a >= b] on values that are a number or [null]. *)
Definition sec_lt (a b : option jsint) : bool :=
  match to_number a, to_number b with
  | Int x, Int y => (x <? y)%Z
  | _, _ => false
  end.

Definition sec_ge (a b : option jsint) : bool :=
  match to_number a, to_number b with
  | Int x, Int y => (y <=? x)%Z
  | _, _ => false
  end.

(** Truthiness of a number or [null]: [null], [NaN] and [0] are falsy. *)
Definition truthy_sec (v : option jsint) : bool :=
  match v with
  | Some (Int z) => negb (z =? 0)%Z
  | _ => false
  end.

(** [s.split (sep)] for a one-character separator. *)
Fixpoint split (sep : ascii) (s : string) : list string :=
  match s with
  | EmptyString => [EmptyString]
  | String c rest =>
      if Ascii.eqb c sep then EmptyString :: split sep rest
      else match split sep rest with
           | [] => [String c EmptyString]
           | first :: others => String c first :: others
           end
  end.

(** White space skipped by [parseInt] (the one-byte characters). *)
Definition isWhiteSpace (c : ascii) : bool :=
  let n := nat_of_ascii c in
  ((9 <=? n) && (n <=? 13) || (n =? 32))%nat.

Fixpoint trimStart (s : string) : string :=
  match s with
  | String c rest => if isWhiteSpace c then trimStart rest else s
  | EmptyString => s
  end.

(** Value of a digit in the given radix (10 or 16). *)
Definition digitValue (radix : Z) (c : ascii) : option Z :=
  let n := Z.of_nat (nat_of_ascii c) in
  if ((48 <=? n) && (n <=? 57))%Z then Some (n - 48)%Z
  else if (radix =? 16)%Z && ((97 <=? n) && (n <=? 102))%Z then Some (n - 87)%Z
  else if (radix =? 16)%Z && ((65 <=? n) && (n <=? 70))%Z then Some (n - 55)%Z
  else None.

(** The longest prefix of digits; [None] when there is none. *)
Fixpoint parseDigits (radix : Z) (s : string) (acc : option Z) : option Z :=
  match s with
  | EmptyString => acc
  | String c rest =>
      match digitValue radix c with
      | Some d =>
          parseDigits radix rest
            (Some (match acc with Some a => a * radix + d | None => d end)%Z)
      | None => acc
      end
  end.

Definition parseUnsigned (s : string) : option Z :=
  match s with
  | String "0" (String "x" rest) => parseDigits 16 rest None
  | String "0" (String "X" rest) => parseDigits 16 rest None
  | _ => parseDigits 10 s None
  end.

(** [parseInt (x)] without radix; [None] is [undefined]. *)
Definition parseInt (x : option string) : jsint :=
  match x with
  | None => NaN
  | Some s =>
      match trimStart s with
      | String "-" rest =>
          match parseUnsigned rest with
          | Some v => Int (- v)
          | None => NaN
          end
      | String "+" rest =>
          match parseUnsigned rest with
          | Some v => Int v
          | None => NaN
          end
      | t =>
          match parseUnsigned t with
          | Some v => Int v
          | None => NaN
          end
      end
  end.

(** [timeToSeconds (timeStr)]: [None] is the [null] returned for a falsy
    argument. *)
Definition timeToSeconds (timeStr : jsval) : option jsint :=
  if negb (truthy_val timeStr) then None
  else
    match timeStr with
    | JString s =>
        let parts := split ":" s in
        Some (int_add
                (int_add (int_mul (parseInt (nth_error parts 0)) (Int 3600))
                         (int_mul (parseInt (nth_error parts 1)) (Int 60)))
                (parseInt (nth_error parts 2)))
    | _ => None
    end.

(** The object returned by [getTimetableDisplay]. *)
Record Display : Type := mkDisplay {
  time : jsval;
  label : jsval;
  targetApiName : jsval;
  showDistance : bool
}.

(** [{ time: null, label: null, targetApiName: null, showDistance: false }]. *)
Definition noDisplay : Display :=
  {| time := JNull; label := JNull; targetApiName := JNull; showDistance := false |}.

Definition showDeparture (stop : Stop) : Display :=
  {| time := departure stop; label := JString "DEPARTURE";
     targetApiName := JNull; showDistance := false |}.

Definition showArrival (stop : Stop) : Display :=
  {| time := arrival stop; label := destination stop;
     targetApiName := apiName stop; showDistance := true |}.

(** [currentTimeISO.split ('T')[1].split ('.')[0]]. *)
Definition timePart (currentTimeISO : string) : outcome string :=
  match nth_error (split "T" currentTimeISO) 1 with
  | None => TypeError
  | Some afterT =>
      match split "." afterT with
      | first :: _ => Returns first
      | [] => TypeError
      end
  end.

Module Server.

(** The [for] loop of [getTimetableDisplay], entered with loop variable
    [i]; [Returns None] is the loop running to completion. *)
Fixpoint displayLoop (timetableData : list Stop) (currentSeconds : option jsint)
    (fuel i : nat) : outcome (option Display) :=
  if (i <? List.length timetableData)%nat then
    match fuel with
    | O => OutOfFuel
    | S fuel' =>
        stop <- item timetableData i ;;
        let departureSeconds := timeToSeconds (departure stop) in
        let arrivalSeconds := timeToSeconds (arrival stop) in   (* not used *)
        (* First stop - show departure *)
        if (i =? 0)%nat && sec_lt currentSeconds departureSeconds then
          Returns (Some (showDeparture stop))
        (* Last stop - only show arrival *)
        else if (Z.of_nat i =? Z.of_nat (List.length timetableData) - 1)%Z then
          Returns (Some (showArrival stop))
        (* Current stop departure time hasn't passed yet *)
        else if truthy_sec departureSeconds
                && sec_lt currentSeconds departureSeconds then
          Returns (Some (showDeparture stop))
        (* Check if we're between this departure and next arrival *)
        else if (Z.of_nat i <? Z.of_nat (List.length timetableData) - 1)%Z then
          nextStop <- item timetableData (i + 1) ;;
          let nextArrivalSeconds := timeToSeconds (arrival nextStop) in
          if sec_ge currentSeconds departureSeconds
             && sec_lt currentSeconds nextArrivalSeconds then
            Returns (Some (showArrival nextStop))
          (* At next station, before departure *)
          else if sec_ge currentSeconds nextArrivalSeconds
                  && (truthy_sec (timeToSeconds (departure nextStop))
                      && sec_lt currentSeconds (timeToSeconds (departure nextStop)))
          then Returns (Some (showDeparture nextStop))
          else displayLoop timetableData currentSeconds fuel' (i + 1)
        else displayLoop timetableData currentSeconds fuel' (i + 1)
    end
  else Returns None.

(** The body of the [try] block of [getTimetableDisplay]. *)
Definition displayBody (timetableData : list Stop) (currentTimeISO : string)
    : outcome (option Display) :=
  part <- timePart currentTimeISO ;;
  displayLoop timetableData (timeToSeconds (JString part))
              (List.length timetableData) 0.

(** [getTimetableDisplay (currentTimeISO)], reading the global
    [timetableData]. *)
Definition getTimetableDisplay (timetableData : list Stop) (currentTimeISO : jsval)
    : Display :=
  match currentTimeISO with
  | JString iso =>
      if (List.length timetableData =? 0)%nat || negb (truthy_val currentTimeISO)
      then noDisplay
      else
        match displayBody timetableData iso with
        | Returns (Some display) => display
        | Returns None => noDisplay     (* the return after the loop *)
        | _ => noDisplay                (* the catch clause *)
        end
  | _ => noDisplay
  end.

(** ** Route collection: the [DriverAid.PlayerInfo] handler *)

(** [entry.Values.geoLocation]; a field is [None] when its [typeof] is not
    ['number']. *)
Record GeoLocation : Type := mkGeoLocation {
  geo_longitude : option R;
  geo_latitude : option R
}.

(** What [saveRouteData] writes about the trace (the route name, the
    markers, the timetable and the duration are left out). *)
Record RouteFile : Type := mkRouteFile {
  totalPoints : nat;
  requestCount : nat;
  fileCoordinates : list Coordinate
}.

(** The module-level variables of the route collection. *)
Record Recorder : Type := mkRecorder {
  routeCoordinates : list Coordinate;
  lastRouteCoordinate : option Coordinate;
  routeCollectionRequestCount : nat;
  currentPlayerPosition : option Coordinate;
  currentGradient : option R;
  currentHeight : option R;
  routeOutputFilePath : option string;
  routeFile : option RouteFile        (* the output file on disk *)
}.

(** The variables as initialised when the module is loaded. *)
Definition startRecorder (path : option string) : Recorder :=
  {| routeCoordinates := []; lastRouteCoordinate := None;
     routeCollectionRequestCount := 0; currentPlayerPosition := None;
     currentGradient := None; currentHeight := None;
     routeOutputFilePath := path; routeFile := None |}.

(** [saveRouteData ()] ([ENABLE_ROUTE_COLLECTION] is [true]). *)
Definition saveRouteData (st : Recorder) : Recorder :=
  match routeOutputFilePath st, routeCoordinates st with
  | None, _ | _, [] => st
  | Some _, _ =>
      {| routeCoordinates := routeCoordinates st;
         lastRouteCoordinate := lastRouteCoordinate st;
         routeCollectionRequestCount := routeCollectionRequestCount st;
         currentPlayerPosition := currentPlayerPosition st;
         currentGradient := currentGradient st;
         currentHeight := currentHeight st;
         routeOutputFilePath := routeOutputFilePath st;
         routeFile := Some {| totalPoints := List.length (routeCoordinates st);
                              requestCount := routeCollectionRequestCount st;
                              fileCoordinates := routeCoordinates st |} |}
  end.

(** The guard [!lastRouteCoordinate || lastRouteCoordinate.longitude !==
    coordinate.longitude || lastRouteCoordinate.latitude !==
    coordinate.latitude]. *)
Definition differsFromLast (lastRouteCoordinate : option Coordinate)
    (coordinate : Coordinate) : bool :=
  match lastRouteCoordinate with
  | None => true
  | Some lastc =>
      js_neq (longitude lastc) (longitude coordinate)
      || js_neq (latitude lastc) (latitude coordinate)
  end.

(** The handler of a [DriverAid.PlayerInfo] entry. *)
Definition handlePlayerInfo (st : Recorder) (geoLocation : option GeoLocation)
    : Recorder :=
  match geoLocation with
  | Some {| geo_longitude := Some lon; geo_latitude := Some lat |} =>
      let coordinate :=
        {| longitude := lon; latitude := lat;
           height := currentHeight st; gradient := currentGradient st |} in
      if differsFromLast (lastRouteCoordinate st) coordinate then
        saveRouteData
          {| routeCoordinates := routeCoordinates st ++ [coordinate];
             lastRouteCoordinate := Some coordinate;
             routeCollectionRequestCount := S (routeCollectionRequestCount st);
             currentPlayerPosition := Some coordinate;
             currentGradient := currentGradient st;
             currentHeight := currentHeight st;
             routeOutputFilePath := routeOutputFilePath st;
             routeFile := routeFile st |}
      else
        {| routeCoordinates := routeCoordinates st;
           lastRouteCoordinate := lastRouteCoordinate st;
           routeCollectionRequestCount := routeCollectionRequestCount st;
           currentPlayerPosition := Some coordinate;
           currentGradient := currentGradient st;
           currentHeight := currentHeight st;
           routeOutputFilePath := routeOutputFilePath st;
           routeFile := routeFile st |}
  | _ => st
  end.

(** The entries that write the variables read by the handler above.  A
    [DriverAid.Data] entry comes with a gradient that is a number or with
    none; with a gradient of another type the code throws while it
    formats the incline and the remaining entries of that response are
    not handled, which corresponds to the sequence of entries ending
    there. *)
Inductive event : Type :=
| PlayerInfo (geoLocation : option GeoLocation)
| DriverAidData (gradientValue : option R)    (* [None]: no gradient *)
| TrackDataHeight (heightValue : option R).   (* [None]: not a number *)

Definition handleEvent (st : Recorder) (e : event) : Recorder :=
  match e with
  | PlayerInfo geoLocation => handlePlayerInfo st geoLocation
  | DriverAidData (Some g) =>
      {| routeCoordinates := routeCoordinates st;
         lastRouteCoordinate := lastRouteCoordinate st;
         routeCollectionRequestCount := routeCollectionRequestCount st;
         currentPlayerPosition := currentPlayerPosition st;
         currentGradient := Some g;
         currentHeight := currentHeight st;
         routeOutputFilePath := routeOutputFilePath st;
         routeFile := routeFile st |}
  | TrackDataHeight (Some h) =>
      match currentPlayerPosition st with
      | Some _ =>
          {| routeCoordinates := routeCoordinates st;
             lastRouteCoordinate := lastRouteCoordinate st;
             routeCollectionRequestCount := routeCollectionRequestCount st;
             currentPlayerPosition := currentPlayerPosition st;
             currentGradient := currentGradient st;
             currentHeight := Some h;
             routeOutputFilePath := routeOutputFilePath st;
             routeFile := routeFile st |}
      | None => st
      end
  | _ => st
  end.

Definition run (st : Recorder) (events : list event) : Recorder :=
  fold_left handleEvent events st.

(** ** The timetable part of a stream tick *)

(** An element of [Values.stations] or [Values.markers]. *)
Module TrackItem.
Record t : Type := mk {
  stationName : jsval;
  distanceToStationCM : option R     (* [None]: not a number *)
}.
End TrackItem.

(** [entry.Values] of a [DriverAid.TrackData] entry. *)
Module TrackData.
Record t : Type := mk {
  stations : option (list TrackItem.t);
  markers : option (list TrackItem.t)
}.
End TrackData.

Record Entry : Type := mkEntry {
  Path : string;
  NodeValid : bool;
  Values : option TrackData.t
}.

(** The loop over [stations] (or [markers]): it stops at the first element
    named [target] and yields its distance in meters when it is a number. *)
Fixpoint findDistance (items : list TrackItem.t) (target : jsval) : option Z :=
  match items with
  | [] => None
  | it :: rest =>
      if jsval_eqb (TrackItem.stationName it) target then
        match TrackItem.distanceToStationCM it with
        | Some cm => Some (Math_round (cm / 100))
        | None => None
        end
      else findDistance rest target
  end.

(** Stations first, markers when no distance was found. *)
Definition trackDistance (values : TrackData.t) (target : jsval) : option Z :=
  match (match TrackData.stations values with
         | Some items => findDistance items target
         | None => None
         end) with
  | Some d => Some d
  | None =>
      match TrackData.markers values with
      | Some items => findDistance items target
      | None => None
      end
  end.

(** The loop over [rawData.Entries]: the first valid [DriverAid.TrackData]
    entry is used, then the loop breaks. *)
Fixpoint scanEntries (entries : list Entry) (target : jsval) : option Z :=
  match entries with
  | [] => None
  | entry :: rest =>
      match (if String.eqb (Path entry) "DriverAid.TrackData" && NodeValid entry
             then Values entry else None) with
      | Some values => trackDistance values target
      | None => scanEntries rest target
      end
  end.

(** [lastDistanceToStation] and [lastTargetApiName]. *)
Record Tracker : Type := mkTracker {
  lastDistanceToStation : option Z;
  lastTargetApiName : jsval
}.

(** The fields of [formattedData] written by the timetable part. *)
Record Formatted : Type := mkFormatted {
  timetableTime : jsval;
  timetableLabel : jsval;
  distanceToStation : option Z
}.

(** "Check if we have a new target station - if so, reset distance". *)
Definition invalidate (display : Display) (st : Tracker) : Tracker :=
  if negb (jsval_eqb (targetApiName display) (lastTargetApiName st)) then
    {| lastDistanceToStation := None;
       lastTargetApiName := targetApiName display |}
  else st.

(** "Always try to extract distance from markers if available and we have a
    target". *)
Definition recordDistance (entries : option (list Entry)) (display : Display)
    (st : Tracker) : Tracker :=
  match entries with
  | Some es =>
      if truthy_val (targetApiName display) then
        match scanEntries es (targetApiName display) with
        | Some d => {| lastDistanceToStation := Some d;
                       lastTargetApiName := lastTargetApiName st |}
        | None => st
        end
      else st
  | None => st
  end.

(** [(showDistance && lastDistanceToStation !== null) ? lastDistanceToStation
    : null]. *)
Definition emitted (display : Display) (st : Tracker) : option Z :=
  if showDistance display then lastDistanceToStation st else None.

(** The timetable part of one tick of the stream. *)
Definition timetableTick (timetableData : list Stop) (st : Tracker)
    (localTime : jsval) (entries : option (list Entry)) : Tracker * Formatted :=
  if truthy_val localTime then
    let display := getTimetableDisplay timetableData localTime in
    let st1 := invalidate display st in
    let st2 := recordDistance entries display st1 in
    (st2, {| timetableTime := time display;
             timetableLabel := label display;
             distanceToStation := emitted display st2 |})
  else
    (st, {| timetableTime := JNull; timetableLabel := JNull;
            distanceToStation := None |}).

End Server.

(* ================================================================== *)
(** * The route playback server (run_route.js) *)
(* ================================================================== *)

Module RunRoute.

(** The playback server has its own copy of [getTimetableDisplay]; it adds
    a one-time debug log, which is not modelled. *)
Fixpoint displayLoop (timetableData : list Stop) (currentSeconds : option jsint)
    (fuel i : nat) : outcome (option Display) :=
  if (i <? List.length timetableData)%nat then
    match fuel with
    | O => OutOfFuel
    | S fuel' =>
        stop <- item timetableData i ;;
        let departureSeconds := timeToSeconds (departure stop) in
        let arrivalSeconds := timeToSeconds (arrival stop) in   (* not used *)
        if (i =? 0)%nat && sec_lt currentSeconds departureSeconds then
          Returns (Some (showDeparture stop))
        else if (Z.of_nat i =? Z.of_nat (List.length timetableData) - 1)%Z then
          Returns (Some (showArrival stop))
        else if truthy_sec departureSeconds
                && sec_lt currentSeconds departureSeconds then
          Returns (Some (showDeparture stop))
        else if (Z.of_nat i <? Z.of_nat (List.length timetableData) - 1)%Z then
          nextStop <- item timetableData (i + 1) ;;
          let nextArrivalSeconds := timeToSeconds (arrival nextStop) in
          if sec_ge currentSeconds departureSeconds
             && sec_lt currentSeconds nextArrivalSeconds then
            Returns (Some (showArrival nextStop))
          else if sec_ge currentSeconds nextArrivalSeconds
                  && (truthy_sec (timeToSeconds (departure nextStop))
                      && sec_lt currentSeconds (timeToSeconds (departure nextStop)))
          then Returns (Some (showDeparture nextStop))
          else displayLoop timetableData currentSeconds fuel' (i + 1)
        else displayLoop timetableData currentSeconds fuel' (i + 1)
    end
  else Returns None.

Definition getTimetableDisplay (timetableData : list Stop) (currentTimeISO : jsval)
    : Display :=
  match currentTimeISO with
  | JString iso =>
      if (List.length timetableData =? 0)%nat || negb (truthy_val currentTimeISO)
      then noDisplay
      else
        match (part <- timePart iso ;;
               displayLoop timetableData (timeToSeconds (JString part))
                           (List.length timetableData) 0) with
        | Returns (Some display) => display
        | _ => noDisplay
        end
  | _ => noDisplay
  end.

(** [findNearestRouteIndex (lat, lon)], reading the global
    [loadedRouteData]; its loop is the loop of
    [findNearestCoordinateIndex]. *)
Definition findNearestRouteIndex (loadedRouteData : option RouteData)
    (lat lon : R) : Z :=
  match loadedRouteData with
  | None => (-1)%Z
  | Some data =>
      match coordinates data with
      | None => (-1)%Z
      | Some coords => Z.of_nat (nearestLoop lat lon coords 0 None 0)
      end
  end.

(** The summing loop of [calculateDistanceAlongRoute]: [n] iterations are
    left and [i] is the loop variable. *)
Fixpoint sumLoop (coords : list Coordinate) (n i : nat) (totalDistance : R)
    : outcome R :=
  match n with
  | O => Returns totalDistance
  | S n' =>
      coord1 <- item coords i ;;
      coord2 <- item coords (i + 1) ;;
      sumLoop coords n' (i + 1) (totalDistance + segment coord1 coord2)
  end.

(** [calculateDistanceAlongRoute (playerLat, playerLon, markerLat,
    markerLon)]; [Returns None] is [null]. *)
Definition calculateDistanceAlongRoute (loadedRouteData : option RouteData)
    (playerLat playerLon markerLat markerLon : R) : outcome (option R) :=
  match loadedRouteData with
  | None => Returns None
  | Some data =>
      match coordinates data with
      | None => Returns None
      | Some coords =>
          let playerIndex := findNearestRouteIndex loadedRouteData playerLat playerLon in
          let markerIndex := findNearestRouteIndex loadedRouteData markerLat markerLon in
          if (playerIndex =? -1)%Z || (markerIndex =? -1)%Z then Returns None
          else if (markerIndex <=? playerIndex)%Z then Returns (Some 0)
          else
            totalDistance <- sumLoop coords (Z.to_nat (markerIndex - playerIndex))
                                     (Z.to_nat playerIndex) 0 ;;
            Returns (Some totalDistance)
      end
  end.

(** The object returned by [getNextTimetableMarker]. *)
Module NextMarker.
Record t : Type := mk {
  name : option string;
  latitude : option R;
  longitude : option R;
  type : option string
}.
End NextMarker.

(** [m.stationName === targetApiName]. *)
Definition named (targetApiName : jsval) (m : Marker.t) : bool :=
  match Marker.stationName m, targetApiName with
  | Some s, JString t => String.eqb s t
  | None, JUndefined => true
  | _, _ => false
  end.

(** [getNextTimetableMarker (targetApiName)]; [None] is [null]. *)
Definition getNextTimetableMarker (loadedRouteData : option RouteData)
    (targetApiName : jsval) : option NextMarker.t :=
  if negb (truthy_val targetApiName) then None
  else
    match loadedRouteData with
    | None => None
    | Some data =>
        match markers data with
        | None => None
        | Some ms =>
            match find (named targetApiName) ms with
            | None => None
            | Some marker =>
                Some {| NextMarker.name := Marker.stationName marker;
                        NextMarker.latitude :=
                          or_num (Marker.latitude marker)
                                 (option_map latitude (Marker.detectedAt marker));
                        NextMarker.longitude :=
                          or_num (Marker.longitude marker)
                                 (option_map longitude (Marker.detectedAt marker));
                        NextMarker.type := Marker.markerType marker |}
            end
        end
    end.

(** "Calculate distance along route to next marker": the value of
    [streamData.distanceToStation] after the timetable part of a tick, given
    the display computed for it. *)
Definition distanceField (loadedRouteData : option RouteData)
    (currentPlayerPosition : option Coordinate) (display : Display)
    : outcome (option Z) :=
  match currentPlayerPosition with
  | Some player =>
      if truthy_val (targetApiName display) then
        match getNextTimetableMarker loadedRouteData (targetApiName display) with
        | Some nextMarker =>
            match NextMarker.latitude nextMarker, NextMarker.longitude nextMarker with
            | Some markerLat, Some markerLon =>
                if js_neq markerLat 0 && js_neq markerLon 0 then
                  distance <- calculateDistanceAlongRoute loadedRouteData
                                (latitude player) (longitude player)
                                markerLat markerLon ;;
                  match distance with
                  | Some d => Returns (Some (Math_round d))
                  | None => Returns None
                  end
                else Returns None
            | _, _ => Returns None
            end
        | None => Returns None
        end
      else Returns None
  | None => Returns None
  end.

(** The timetable part of one tick of the playback stream. *)
Definition timetableTick (loadedRouteData : option RouteData)
    (timetableData : list Stop) (currentPlayerPosition : option Coordinate)
    (localTime : jsval) : outcome (option Z) :=
  if truthy_val localTime then
    distanceField loadedRouteData currentPlayerPosition
                  (getTimetableDisplay timetableData localTime)
  else Returns None.

End RunRoute.

(* ================================================================== *)
(** * process_trip.js: one route file *)
(* ================================================================== *)

(** [data.timetable.map (stop => stop.apiName).filter (name => name)]. *)
Definition stationNames (timetableData : list Stop) : list string :=
  flat_map (fun stop => match apiName stop with
                        | JString s => if truthy_val (JString s) then [s] else []
                        | _ => []
                        end) timetableData.

(** [processRouteFile (inputPath, outputPath)] on the parsed input file
    [data]; [loaded] is what [loadTimetableStations] returns, its
    [apiNames] and its [timetableData].  The result is the data written to
    the output file, or [None] when the function returns [false] and
    writes nothing. *)
Definition processRouteFile (data : RouteData) (loaded : list string * list Stop)
    : outcome (option RouteData) :=
  let '(timetableStations, timetableData) :=
    match timetable data with
    | Some (stop :: rest) => (stationNames (stop :: rest), stop :: rest)
    | _ => loaded
    end in
  r <- processMarkers data timetableStations ;;
  let '(processedCount, processed) := r in
  let withTimetable :=
    if (0 <? List.length timetableData)%nat then
      {| coordinates := coordinates processed; markers := markers processed;
         timetable := Some timetableData |}
    else processed in
  if (processedCount =? 0)%nat && (List.length timetableData =? 0)%nat
  then Returns None
  else Returns (Some withTimetable).

(* ================================================================== *)
(** * server.js: route collection with markers and the route file *)
(* ================================================================== *)

Module Collection.

(** An element of [Values.stations] or [Values.markers] as the marker
    discovery reads it; [distanceToStationCM] is a number, as the game
    sends it, and [platformLength] is [None] when its [typeof] is not
    ['number']. *)
Module Sighting.
Record t : Type := mk {
  stationName : jsval;
  markerName : jsval;
  markerType : jsval;
  distanceToStationCM : R;
  platformLength : option R
}.
End Sighting.

(** The route file: the skeleton written by extract.js, then the object
    written by [saveRouteData] ([duration] is left out). *)
Record File : Type := mkFile {
  routeName : string;
  totalPoints : nat;
  totalMarkers : nat;
  requestCount : nat;
  fileCoordinates : list Coordinate;
  fileMarkers : list Marker.t;
  fileTimetable : option (list Stop)    (* [None]: absent or not an array *)
}.

(** The module-level variables of the route collection once
    [initializeRouteFile] has set the output path, and the file at that
    path ([None]: no such file). *)
Record State : Type := mkState {
  routeCoordinates : list Coordinate;
  lastRouteCoordinate : option Coordinate;
  routeCollectionRequestCount : nat;
  currentPlayerPosition : option Coordinate;
  currentGradient : option R;
  currentHeight : option R;
  discoveredMarkers : list Marker.t;
  processedMarkers : list string;       (* the [Set], in insertion order *)
  disk : option File
}.

(** The state left by [initializeRouteFile]; [skeleton] is the route file
    found in unprocessed_routes, if any. *)
Definition start (skeleton : option File) : State :=
  {| routeCoordinates := []; lastRouteCoordinate := None;
     routeCollectionRequestCount := 0; currentPlayerPosition := None;
     currentGradient := None; currentHeight := None;
     discoveredMarkers := []; processedMarkers := [];
     disk := skeleton |}.

(** [timetableData] as [initializeRouteFile] leaves it. *)
Definition timetableOf (skeleton : option File) : list Stop :=
  match skeleton with
  | Some existingData =>
      match fileTimetable existingData with
      | Some timetable => timetable
      | None => []
      end
  | None => []
  end.

Definition with_disk (file : option File) (st : State) : State :=
  {| routeCoordinates := routeCoordinates st;
     lastRouteCoordinate := lastRouteCoordinate st;
     routeCollectionRequestCount := routeCollectionRequestCount st;
     currentPlayerPosition := currentPlayerPosition st;
     currentGradient := currentGradient st;
     currentHeight := currentHeight st;
     discoveredMarkers := discoveredMarkers st;
     processedMarkers := processedMarkers st;
     disk := file |}.

Definition with_markers (found : list Marker.t) (names : list string) (st : State)
    : State :=
  {| routeCoordinates := routeCoordinates st;
     lastRouteCoordinate := lastRouteCoordinate st;
     routeCollectionRequestCount := routeCollectionRequestCount st;
     currentPlayerPosition := currentPlayerPosition st;
     currentGradient := currentGradient st;
     currentHeight := currentHeight st;
     discoveredMarkers := found;
     processedMarkers := names;
     disk := disk st |}.

(** [saveRouteData ()]: the timetable and the route name of the file
    already there are kept. *)
Definition saveRouteData (st : State) : State :=
  match routeCoordinates st with
  | [] => st
  | _ :: _ =>
      let existingTimetable :=
        match disk st with
        | Some existingData => fileTimetable existingData
        | None => None
        end in
      let existingRouteName :=
        match disk st with
        | Some existingData =>
            if truthy_val (JString (routeName existingData))
            then routeName existingData else "Route Recording"%string
        | None => "Route Recording"%string
        end in
      with_disk
        (Some {| routeName := existingRouteName;
                 totalPoints := List.length (routeCoordinates st);
                 totalMarkers := List.length (discoveredMarkers st);
                 requestCount := routeCollectionRequestCount st;
                 fileCoordinates := routeCoordinates st;
                 fileMarkers := discoveredMarkers st;
                 fileTimetable := existingTimetable |})
        st
  end.

(** The handler of a [DriverAid.PlayerInfo] entry. *)
Definition handlePlayerInfo (st : State) (geoLocation : option Server.GeoLocation)
    : State :=
  match geoLocation with
  | Some {| Server.geo_longitude := Some lon; Server.geo_latitude := Some lat |} =>
      let coordinate :=
        {| longitude := lon; latitude := lat;
           height := currentHeight st; gradient := currentGradient st |} in
      if Server.differsFromLast (lastRouteCoordinate st) coordinate then
        saveRouteData
          {| routeCoordinates := routeCoordinates st ++ [coordinate];
             lastRouteCoordinate := Some coordinate;
             routeCollectionRequestCount := S (routeCollectionRequestCount st);
             currentPlayerPosition := Some coordinate;
             currentGradient := currentGradient st;
             currentHeight := currentHeight st;
             discoveredMarkers := discoveredMarkers st;
             processedMarkers := processedMarkers st;
             disk := disk st |}
      else
        {| routeCoordinates := routeCoordinates st;
           lastRouteCoordinate := lastRouteCoordinate st;
           routeCollectionRequestCount := routeCollectionRequestCount st;
           currentPlayerPosition := Some coordinate;
           currentGradient := currentGradient st;
           currentHeight := currentHeight st;
           discoveredMarkers := discoveredMarkers st;
           processedMarkers := processedMarkers st;
           disk := disk st |}
  | _ => st
  end.

(** [m.stationName === markerName] for a string [markerName]. *)
Definition isNamed (markerName : string) (m : Marker.t) : bool :=
  match Marker.stationName m with
  | Some s => String.eqb s markerName
  | None => false
  end.

(** The four assignments to [existingMarker]. *)
Definition setOnspot (pos : Coordinate) (now : string) (distanceMeters : R)
    (m : Marker.t) : Marker.t :=
  Marker.mk (Marker.stationName m) (Marker.markerName m) (Marker.markerType m)
            (Marker.detectedAt m) (Marker.distanceAheadMeters m)
            (Marker.timestamp m) (Marker.platformLength m)
            (Some (latitude pos)) (Some (longitude pos)) (Some now)
            (Some distanceMeters)
            (Marker.isTimetableStation m) (Marker.latitude m) (Marker.longitude m)
            (Marker.calculationMethod m).

(** The assignments applied to the marker that
    [discoveredMarkers.find (m => m.stationName === markerName)] returns,
    the first one of that name. *)
Fixpoint recordOnspot (markerName : string) (pos : Coordinate) (now : string)
    (distanceMeters : R) (found : list Marker.t) : list Marker.t :=
  match found with
  | [] => []
  | m :: rest =>
      if isNamed markerName m then setOnspot pos now distanceMeters m :: rest
      else m :: recordOnspot markerName pos now distanceMeters rest
  end.

(** [checkPassingStation (markerName, distanceCM)]; [now] is the time read
    from the clock.  The closure is created, and the two loops run, only
    in the branch guarded by [currentPlayerPosition]; the case [None] of
    the position below and in [sight] is never reached from
    [handleEvent]. *)
Definition checkPassingStation (timetableData : list Stop) (now : string)
    (markerName : jsval) (distanceCM : R) (st : State) : State :=
  if js_lt distanceCM 1000 && truthy_val markerName then
    match markerName, currentPlayerPosition st with
    | JString name, Some pos =>
        if existsb (fun stop => jsval_eqb (apiName stop) markerName) timetableData
        then
          if existsb (isNamed name) (discoveredMarkers st) then
            let distanceMeters := distanceCM / 100 in
            saveRouteData
              (with_markers
                 (recordOnspot name pos now distanceMeters (discoveredMarkers st))
                 (processedMarkers st) st)
          else st
        else st
    | _, _ => st
    end
  else st.

(** [a || b] on values that are a string, [null] or [undefined]. *)
Definition or_val (a b : jsval) : jsval := if truthy_val a then a else b.

(** The object pushed for a name seen for the first time. *)
Definition newMarker (name type : string) (pos : Coordinate)
    (distanceMeters : R) (now : string) (platformLength : option R) : Marker.t :=
  Marker.mk (Some name) None (Some type)
            (Some (position (latitude pos) (longitude pos)))
            (Some distanceMeters) (Some now) platformLength
            None None None None None None None None.

(** The body of the loop over [Values.stations] ([defaultType] is
    ['Station']) and of the loop over [Values.markers] (['Marker']). *)
Definition sight (timetableData : list Stop) (defaultType : string) (now : string)
    (st : State) (seen : Sighting.t) : State :=
  let markerName := or_val (Sighting.stationName seen) (Sighting.markerName seen) in
  let distanceCM := Sighting.distanceToStationCM seen in
  let st1 := checkPassingStation timetableData now markerName distanceCM st in
  match markerName, currentPlayerPosition st1 with
  | JString name, Some pos =>
      if truthy_val markerName
         && negb (existsb (String.eqb name) (processedMarkers st1)) then
        let distanceMeters := distanceCM / 100 in
        let type :=
          match or_val (Sighting.markerType seen) (JString defaultType) with
          | JString t => t
          | _ => defaultType
          end in
        saveRouteData
          (with_markers
             (discoveredMarkers st1
              ++ [newMarker name type pos distanceMeters now
                            (Sighting.platformLength seen)])
             (processedMarkers st1 ++ [name]) st1)
      else st1
  | _, _ => st1
  end.

Definition sightAll (timetableData : list Stop) (defaultType : string) (now : string)
    (items : option (list Sighting.t)) (st : State) : State :=
  match items with
  | Some l => fold_left (sight timetableData defaultType now) l st
  | None => st
  end.

(** The entries that the route collection handles; [now] is the clock
    while a [DriverAid.TrackData] entry is handled, [lastPlayerHeight] is
    [None] when [lastPlayerPosition.height] is not a number, and the
    gradient is a number or absent, as for [Server.event]. *)
Inductive event : Type :=
| PlayerInfo (geoLocation : option Server.GeoLocation)
| DriverAidData (gradientValue : option R)
| TrackData (now : string) (lastPlayerHeight : option R)
            (stations markers : option (list Sighting.t)).

Definition with_gradient (g : R) (st : State) : State :=
  {| routeCoordinates := routeCoordinates st;
     lastRouteCoordinate := lastRouteCoordinate st;
     routeCollectionRequestCount := routeCollectionRequestCount st;
     currentPlayerPosition := currentPlayerPosition st;
     currentGradient := Some g;
     currentHeight := currentHeight st;
     discoveredMarkers := discoveredMarkers st;
     processedMarkers := processedMarkers st;
     disk := disk st |}.

Definition with_height (h : R) (st : State) : State :=
  {| routeCoordinates := routeCoordinates st;
     lastRouteCoordinate := lastRouteCoordinate st;
     routeCollectionRequestCount := routeCollectionRequestCount st;
     currentPlayerPosition := currentPlayerPosition st;
     currentGradient := currentGradient st;
     currentHeight := Some h;
     discoveredMarkers := discoveredMarkers st;
     processedMarkers := processedMarkers st;
     disk := disk st |}.

Definition handleEvent (timetableData : list Stop) (st : State) (e : event) : State :=
  match e with
  | PlayerInfo geoLocation => handlePlayerInfo st geoLocation
  | DriverAidData (Some g) => with_gradient g st
  | DriverAidData None => st
  | TrackData now lastPlayerHeight stations markers =>
      match currentPlayerPosition st with
      | Some _ =>
          let st1 := match lastPlayerHeight with
                     | Some h => with_height h st
                     | None => st
                     end in
          sightAll timetableData "Marker" now markers
            (sightAll timetableData "Station" now stations st1)
      | None => st
      end
  end.

Definition run (timetableData : list Stop) (st : State) (events : list event) : State :=
  fold_left (handleEvent timetableData) events st.

(** The whole session: the timetable is the one of the skeleton. *)
Definition record (skeleton : option File) (events : list event) : State :=
  run (timetableOf skeleton) (start skeleton) events.

(** What [JSON.parse] gives process_trip.js and run_route.js for a file
    written by the recorder. *)
Definition parsed (file : File) : RouteData :=
  {| coordinates := Some (fileCoordinates file);
     markers := Some (fileMarkers file);
     timetable := fileTimetable file |}.

End Collection.

(* ================================================================== *)
(** * The timetable files: extract.js writes, process_trip.js reads *)
(* ================================================================== *)

(** [s.includes (ch)] for a character. *)
Fixpoint contains (ch : ascii) (s : string) : bool :=
  match s with
  | EmptyString => false
  | String c rest => Ascii.eqb c ch || contains ch rest
  end.

(** [s.trimEnd ()] and [s.trim ()] (the one-byte white space). *)
Fixpoint trimEnd (s : string) : string :=
  match s with
  | EmptyString => EmptyString
  | String c rest =>
      match trimEnd rest with
      | EmptyString => if isWhiteSpace c then EmptyString else String c EmptyString
      | kept => String c kept
      end
  end.

Definition trim (s : string) : string := trimEnd (trimStart s).

(** [parts.join (sep)]. *)
Fixpoint join (sep : ascii) (parts : list string) : string :=
  match parts with
  | [] => EmptyString
  | [part] => part
  | part :: rest => (part ++ String sep (join sep rest))%string
  end.

Definition comma : ascii := ","%char.
Definition newline : ascii := ascii_of_nat 10.
Definition doubleQuote : ascii := ascii_of_nat 34.

Module Timetables.

(** A row of the timetable read from the images; [parseTrainTimetable]
    builds every field as a string, so [field || ''] is the field. *)
Record Row : Type := mkRow {
  action : string;
  location : string;
  platform : string;
  arrival : string;
  departure : string
}.

(** [extraData], built by [main] from the command line. *)
Record ExtraData : Type := mkExtraData {
  firstPlatform : string;
  firstDestination : string
}.

(** The five values of a line of the HUD file and of an entry of the
    skeleton timetable: destination, arrival, departure, platform,
    apiName. *)
Definition Fields : Type := (string * string * string * string * string)%type.

Definition truthy (s : string) : bool := truthy_val (JString s).

(** The loop that finds the first WAIT FOR SERVICE and the first LOAD
    PASSENGERS after it; [i] is the index of the head of [rows].  The
    result is [firstArrival], [firstDeparture] and [startIndex]. *)
Fixpoint scanFirst (rows : list Row) (i : nat) (firstArrival firstDeparture : string)
    (startIndex : nat) : string * string * nat :=
  match rows with
  | [] => (firstArrival, firstDeparture, startIndex)
  | row :: rest =>
      if String.eqb (action row) "WAIT FOR SERVICE" && negb (truthy firstArrival)
      then scanFirst rest (S i) (arrival row) firstDeparture (S i)
      else if String.eqb (action row) "LOAD PASSENGERS"
              && (truthy firstArrival && negb (truthy firstDeparture))
      then (firstArrival, departure row, S i)             (* break *)
      else scanFirst rest (S i) firstArrival firstDeparture startIndex
  end.

(** [destination && platform ? destination + ' ' + platform : '']. *)
Definition apiNameOf (destination platform : string) : string :=
  if truthy destination && truthy platform
  then (destination ++ " " ++ platform)%string else EmptyString.

(** The first line or entry, when there is one. *)
Definition firstFields (extraData : option ExtraData)
    (firstArrival firstDeparture : string) : list Fields :=
  let firstDeparture :=
    if truthy firstArrival && negb (truthy firstDeparture)
    then firstArrival else firstDeparture in
  if truthy firstArrival || truthy firstDeparture then
    let firstDest :=
      match extraData with
      | Some extra => if truthy (firstDestination extra)
                      then firstDestination extra else EmptyString
      | None => EmptyString
      end in
    let firstPlat :=
      match extraData with
      | Some extra => if truthy (firstPlatform extra)
                      then firstPlatform extra else EmptyString
      | None => EmptyString
      end in
    [ (firstDest, firstArrival, firstDeparture, firstPlat,
       apiNameOf firstDest firstPlat) ]
  else [].

(** The loop over the remaining rows: each STOP, with the departure of
    the LOAD PASSENGERS row that follows it, if one does. *)
Fixpoint stopFields (rows : list Row) : list Fields :=
  match rows with
  | [] => []
  | row :: rest =>
      if String.eqb (action row) "STOP" then
        let departure :=
          match rest with
          | next :: _ =>
              if String.eqb (action next) "LOAD PASSENGERS"
              then departure next else EmptyString
          | [] => EmptyString
          end in
        (location row, arrival row, departure, platform row,
         apiNameOf (location row) (platform row)) :: stopFields rest
      else stopFields rest
  end.

(** What both [writeToHUD] and [writeToJSONRouteSkeleton] compute from the
    rows, by the same statements. *)
Definition entries (data : list Row) (extraData : option ExtraData) : list Fields :=
  let '(firstArrival, firstDeparture, startIndex) :=
    scanFirst data 0 EmptyString EmptyString 0 in
  firstFields extraData firstArrival firstDeparture
  ++ stopFields (skipn startIndex data).

(** The [field.replace] call: every double quote is written twice. *)
Fixpoint doubleQuotes (field : string) : string :=
  match field with
  | EmptyString => EmptyString
  | String c rest =>
      if Ascii.eqb c doubleQuote
      then String doubleQuote (String doubleQuote (doubleQuotes rest))
      else String c (doubleQuotes rest)
  end.

(** The function mapped over the fields of a line. *)
Definition csvField (field : string) : string :=
  if contains comma field || contains doubleQuote field || contains newline field
  then String doubleQuote (doubleQuotes field ++ String doubleQuote EmptyString)
  else field.

Definition csvLine (fields : Fields) : string :=
  let '(destination, arrival, departure, platform, apiName) := fields in
  join comma (map csvField [destination; arrival; departure; platform; apiName]).

(** The content of the file written by [writeToHUD]. *)
Definition writeToHUD (data : list Row) (extraData : option ExtraData) : string :=
  join newline
       ("Destination,Arrival,Departure,Platform,api_name"%string
        :: map csvLine (entries data extraData)).

Definition toStop (fields : Fields) : Stop :=
  let '(destination, arrival, departure, platform, apiName) := fields in
  mkStop (JString destination) (JString arrival) (JString departure)
         (JString platform) (JString apiName).

(** The [timetable] of the skeleton written by [writeToJSONRouteSkeleton]
    (the [index] of an entry is its position). *)
Definition writeToJSONRouteSkeleton (data : list Row) (extraData : option ExtraData)
    : list Stop :=
  map toStop (entries data extraData).

End Timetables.

(** The loop of [loadTimetableStations] over the lines after the header:
    [apiNames] and [timetableData] as they grow. *)
Fixpoint loadLines (lines : list string) (apiNames : list string)
    (timetableData : list Stop) : list string * list Stop :=
  match lines with
  | [] => (apiNames, timetableData)
  | line :: rest =>
      let parts := split comma line in
      if (5 <=? List.length parts)%nat then
        let apiName := trim (nth 4 parts EmptyString) in
        let apiNames :=
          if truthy_val (JString apiName) then apiNames ++ [apiName] else apiNames in
        loadLines rest apiNames
          (timetableData
           ++ [ {| destination := JString (nth 0 parts EmptyString);
                   arrival := JString (nth 1 parts EmptyString);
                   departure := JString (nth 2 parts EmptyString);
                   platform := JString (nth 3 parts EmptyString);
                   apiName := JString apiName |} ])
      else loadLines rest apiNames timetableData
  end.

(** [loadTimetableStations (routeName)]: [csvContent] is the content of the
    first CSV file of the timetable directory, [None] when there is none
    or it cannot be read. *)
Definition loadTimetableStations (csvContent : option string)
    : list string * list Stop :=
  match csvContent with
  | None => ([], [])
  | Some content =>
      match split newline (trim content) with
      | [] => ([], [])
      | header :: lines => loadLines lines [] []
      end
  end.

(* ================================================================== *)
(** * Vocabulary of the properties *)
(* ================================================================== *)

(** Distance from the query point to a vertex, as the search computes it. *)
Definition distanceTo (lat lon : R) (coord : Coordinate) : R :=
  calculateDistance lat lon (latitude coord) (longitude coord).

(** [k] is the lowest index of [coords] that attains the minimum distance. *)
Definition lowestNearest (lat lon : R) (coords : list Coordinate) (k : nat) : Prop :=
  exists c,
    nth_error coords k = Some c /\
    (forall j cj, nth_error coords j = Some cj ->
                  distanceTo lat lon c <= distanceTo lat lon cj) /\
    (forall j cj, nth_error coords j = Some cj ->
                  distanceTo lat lon cj = distanceTo lat lon c -> (k <= j)%nat).

(** State of the scan after the vertices of [seen] were visited. *)
Definition scanned (lat lon : R) (seen : list Coordinate)
    (minDistance : option R) (nearestIndex : nat) : Prop :=
  match seen with
  | [] => minDistance = None /\ nearestIndex = 0%nat
  | _ :: _ =>
      exists c, minDistance = Some (distanceTo lat lon c) /\
                nth_error seen nearestIndex = Some c /\
                (forall j cj, nth_error seen j = Some cj ->
                              distanceTo lat lon c <= distanceTo lat lon cj) /\
                (forall j cj, nth_error seen j = Some cj ->
                              distanceTo lat lon cj = distanceTo lat lon c ->
                              (nearestIndex <= j)%nat)
  end.

(** Length of the segment that starts at index [i]. *)
Definition segmentAt (coords : list Coordinate) (i : nat) : R :=
  match nth_error coords i, nth_error coords (S i) with
  | Some c1, Some c2 => segment c1 c2
  | _, _ => 0
  end.

(** Sum of the Haversine lengths of the segments [from, from+1], ...,
    [to-1, to]. *)
Definition pathLength (coords : list Coordinate) (from to : nat) : R :=
  fold_right Rplus 0 (map (segmentAt coords) (seq from (to - from))).

(** The point at fraction [ratio] of the segment from [current] to [next]. *)
Definition interpolate (current next : Coordinate) (ratio : R) : Coordinate :=
  position (latitude current + (latitude next - latitude current) * ratio)
           (longitude current + (longitude next - longitude current) * ratio).

(** The three-point scenario: (0,0), (0,0.001), (0,0.002). *)
Definition scenarioRoute : list Coordinate :=
  [position 0 0; position 0 (1 / 1000); position 0 (2 / 1000)].

(** Length of each of its two segments: 6371 * PI / 180, about 111.19 m. *)
Definition scenarioSegment : R := 6371 * PI / 180.

(** The position computed by a method: nearest coordinate to the anchor,
    then the walk of the given distance. *)
Definition resolvedFrom (coords : list Coordinate) (anchorLat anchorLon distance : R)
    : outcome Coordinate :=
  followRoutePath coords (findNearestCoordinateIndex coords anchorLat anchorLon)
                  distance.

(** A marker detected 100 m ahead at (51.5, -0.001) and later passed on the
    spot, 5 m ahead, exactly on the prime meridian (51.5, 0). *)
Definition meridianMarker : Marker.t :=
  Marker.mk (Some "Stratford 1"%string) None (Some "Station"%string)
            (Some (position (515 / 10) (- (1 / 1000))))
            (Some 100) (Some "2026-01-03T12:35:00.000Z"%string) None
            (Some (515 / 10)) (Some 0) (Some "2026-01-03T12:36:00.000Z"%string)
            (Some 5) None None None None.

(** What the loop body of [processMarkers] leaves of a marker [m] in the
    output record [out]: the name and kind, the timetable flag it adds, and
    none of the fields it deletes, the platform length among them. *)
Definition cleanedFrom (timetableStations : list string) (m out : Marker.t) : Prop :=
  Marker.stationName out = Marker.stationName m /\
  Marker.markerName out = Marker.markerName m /\
  Marker.markerType out = Marker.markerType m /\
  Marker.isTimetableStation out
  = Some (includes timetableStations (Marker.stationName m)) /\
  Marker.detectedAt out = None /\
  Marker.distanceAheadMeters out = None /\
  Marker.timestamp out = None /\
  Marker.platformLength out = None /\
  Marker.onspot_latitude out = None /\
  Marker.onspot_longitude out = None /\
  Marker.onspot_timestamp out = None /\
  Marker.spoton_distance out = None /\
  Marker.calculationMethod out = None.

(** The position fields of the output record: written by the method that
    applied, untouched when none did. *)
Definition positionedFrom (coords : list Coordinate) (m out : Marker.t) : Prop :=
  match onspotData m, detectionData m with
  | Some (lat, lon, d), _ | None, Some (lat, lon, d) =>
      exists p, resolvedFrom coords lat lon d = Returns p /\
                Marker.latitude out = Some (latitude p) /\
                Marker.longitude out = Some (longitude p)
  | None, None =>
      Marker.latitude out = Marker.latitude m /\
      Marker.longitude out = Marker.longitude m
  end.

(** The example marker of ROUTE_COLLECTION.md. *)
Definition stationMarker : Marker.t :=
  Marker.mk (Some "Milton Keynes Central"%string) None (Some "Station"%string)
            (Some (position (5203387 / 100000) (- (77392 / 100000))))
            (Some 1250) (Some "2026-01-03T12:35:00.000Z"%string) (Some 220)
            None None None None None None None None.

(** Two coordinates at the same (latitude, longitude). *)
Definition sameSpot (a b : Coordinate) : Prop :=
  latitude a = latitude b /\ longitude a = longitude b.

(** No two consecutive entries are at the same (latitude, longitude). *)
Definition noAdjacentRepeat (l : list Coordinate) : Prop :=
  forall i a b, nth_error l i = Some a -> nth_error l (S i) = Some b ->
                ~ sameSpot a b.

(** The last entry of a list, if any. *)
Definition lastOf (l : list Coordinate) : option Coordinate :=
  nth_error l (List.length l - 1).

(** What holds of the recorder variables after any run of the handlers. *)
Definition traceInvariant (st : Server.Recorder) : Prop :=
  noAdjacentRepeat (Server.routeCoordinates st) /\
  Server.lastRouteCoordinate st = lastOf (Server.routeCoordinates st) /\
  match Server.currentPlayerPosition st, Server.lastRouteCoordinate st with
  | Some p, Some l => sameSpot p l
  | None, None => True
  | _, _ => False
  end.

(** The variables that make up the recording are the same in [st] and
    [st']: the trace, its last entry, the request count, the file on disk. *)
Definition recordingUnchanged (st st' : Server.Recorder) : Prop :=
  Server.routeCoordinates st' = Server.routeCoordinates st /\
  Server.lastRouteCoordinate st' = Server.lastRouteCoordinate st /\
  Server.routeCollectionRequestCount st' = Server.routeCollectionRequestCount st /\
  Server.routeFile st' = Server.routeFile st /\
  Server.currentGradient st' = Server.currentGradient st /\
  Server.currentHeight st' = Server.currentHeight st /\
  Server.routeOutputFilePath st' = Server.routeOutputFilePath st.

(** The recorder after position observations only: no height or gradient
    was ever received, and the current player position is the last
    appended coordinate. *)
Definition positionsOnly (st : Server.Recorder) : Prop :=
  Server.currentHeight st = None /\
  Server.currentGradient st = None /\
  Server.currentPlayerPosition st = Server.lastRouteCoordinate st /\
  (forall c, Server.lastRouteCoordinate st = Some c ->
             height c = None /\ gradient c = None).

(** Three observations: a point, another one, the first one again. *)
Definition backAndForth : list Server.event :=
  [ Server.PlayerInfo (Some (Server.mkGeoLocation (Some 1) (Some 1)));
    Server.PlayerInfo (Some (Server.mkGeoLocation (Some 2) (Some 1)));
    Server.PlayerInfo (Some (Server.mkGeoLocation (Some 1) (Some 1))) ].

(** A scheduled time that is not later than second [c] of the day: a
    missing time ([null]) counts as 0 and [NaN] compares false. *)
Definition notAfter (t : option jsint) (c : Z) : Prop :=
  match t with
  | Some (Int z) => (z <= c)%Z
  | Some NaN => True
  | None => (0 <= c)%Z
  end.

(** Both scheduled times of a stop are not later than second [c]. *)
Definition stopPassed (c : Z) (stop : Stop) : Prop :=
  notAfter (timeToSeconds (arrival stop)) c /\
  notAfter (timeToSeconds (departure stop)) c.

(** The scheduled times of a stop that are numbers, arrival first. *)
Definition numeric (t : option jsint) : list Z :=
  match t with
  | Some (Int z) => [z]
  | _ => []
  end.

Definition scheduled (stop : Stop) : list Z :=
  numeric (timeToSeconds (arrival stop)) ++ numeric (timeToSeconds (departure stop)).

(** A timetable ordered in time: its scheduled times, read stop by stop,
    never decrease (one day, no roll-over past midnight). *)
Definition chronological (timetableData : list Stop) : Prop :=
  StronglySorted Z.le (flat_map scheduled timetableData).

(** The two-stop timetable of the scenario: departure 08:00:00, arrival
    09:00:00. *)
Definition twoStops : list Stop :=
  [ mkStop (JString "Northampton") (JString "07:55:00") (JString "08:00:00")
           (JString "1") (JString "Northampton 1");
    mkStop (JString "London Euston") (JString "09:00:00") (JString "")
           (JString "5") (JString "London Euston 5") ].

(** A timetable whose last stop has a departure time of its own. *)
Definition callingOn : list Stop :=
  [ mkStop (JString "Northampton") (JString "07:55:00") (JString "08:00:00")
           (JString "1") (JString "Northampton 1");
    mkStop (JString "Milton Keynes Central") (JString "09:00:00")
           (JString "09:05:00") (JString "3")
           (JString "Milton Keynes Central 3") ].

(** The distance to [target] read from the entries of the current tick. *)
Definition freshDistance (entries : option (list Server.Entry)) (target : jsval)
    : option Z :=
  match entries with
  | Some es => if truthy_val target then Server.scanEntries es target else None
  | None => None
  end.

Definition halfPastSeven : jsval := JString "2026-01-03T07:30:00.000Z".
Definition halfPastEight : jsval := JString "2026-01-03T08:30:00.000Z".

(** A marker as recorded, not yet resolved: no [latitude]/[longitude], the
    detection position still in place. *)
Definition unresolvedMarker : Marker.t :=
  Marker.mk (Some "London Euston 5"%string) None (Some "Station"%string)
            (Some (position 1 1)) (Some 1250)
            (Some "2026-01-03T12:35:00.000Z"%string) None
            None None None None None None None None.

Definition unprocessedRoute : option RouteData :=
  Some {| coordinates := Some [position 1 1];
          markers := Some [unresolvedMarker];
          timetable := Some twoStops |}.

(** A possibly missing number that is [undefined] or [0]. *)
Definition falsy (v : option R) : Prop := v = None \/ v = Some 0.

(** The marker offers the projector no position: its latitude, or its
    longitude, is falsy both as resolved and as detected. *)
Definition noUsablePosition (m : Marker.t) : Prop :=
  (falsy (Marker.latitude m) /\
   falsy (option_map latitude (Marker.detectedAt m))) \/
  (falsy (Marker.longitude m) /\
   falsy (option_map longitude (Marker.detectedAt m))).

(** No route is loaded, or it has no [coordinates], or no [markers], or no
    marker named [target] has a usable position. *)
Definition unavailable (route : option RouteData) (target : jsval) : Prop :=
  match route with
  | None => True
  | Some data =>
      coordinates data = None \/
      match markers data with
      | None => True
      | Some ms =>
          forall m t, In m ms -> target = JString t ->
                      Marker.stationName m = Some t -> noUsablePosition m
      end
  end.

(** A marker for which neither method applied: no position at all. *)
Definition unplacedMarker : Marker.t :=
  Marker.mk (Some "London Euston 5"%string) None (Some "Station"%string)
            None None None None None None None None (Some true) None None None.

(** ** Geometry *)

(** The quantity [a] of [calculateDistance], whose square root and the
    square root of [1 - a] are taken. *)
Definition haversineA (lat1 lon1 lat2 lon2 : R) : R :=
  sin ((lat2 - lat1) * PI / 180 / 2) * sin ((lat2 - lat1) * PI / 180 / 2) +
  cos (lat1 * PI / 180) * cos (lat2 * PI / 180) *
  sin ((lon2 - lon1) * PI / 180 / 2) * sin ((lon2 - lon1) * PI / 180 / 2).

(** A latitude in degrees. *)
Definition validLatitude (lat : R) : Prop := -90 <= lat <= 90.

(** [p] lies on the route at or after index [start]: it is the last
    coordinate, or a point of a segment that starts at or after [start], at
    a fraction of the segment between 0 and 1. *)
Definition onRoute (coords : list Coordinate) (start : nat) (p : Coordinate) : Prop :=
  lastCoord coords = Returns p \/
  exists k c1 c2 ratio,
    (start <= k)%nat /\
    nth_error coords k = Some c1 /\ nth_error coords (S k) = Some c2 /\
    0 < ratio <= 1 /\ p = interpolate c1 c2 ratio.

(** ** Strings and times *)

(** The decimal digit of a number below 10. *)
Definition digitChar (n : nat) : ascii := ascii_of_nat (48 + n).

(** A number below 100 written with two digits. *)
Definition twoDigits (n : nat) : string :=
  String (digitChar (n / 10)) (String (digitChar (n mod 10)) EmptyString).

(** A time of day written HH:MM:SS. *)
Definition clockString (h m sec : nat) : string :=
  (twoDigits h ++ ":" ++ twoDigits m ++ ":" ++ twoDigits sec)%string.

(** The shape of every display that a return statement of the loop builds
    from the timetable. *)
Definition displayOf (timetableData : list Stop) (display : Display) : Prop :=
  exists stop, In stop timetableData /\
               (display = showDeparture stop \/ display = showArrival stop).

(** ** The stream of ticks and the recording session *)

(** [lastDistanceToStation] and [lastTargetApiName] when the server starts. *)
Definition initialTracker : Server.Tracker :=
  {| Server.lastDistanceToStation := None; Server.lastTargetApiName := JNull |}.

(** The tracker after a series of ticks, each with its local time and the
    entries of its raw data. *)
Definition ticks (timetableData : list Stop)
    (inputs : list (jsval * option (list Server.Entry))) : Server.Tracker :=
  fold_left (fun st input =>
               fst (Server.timetableTick timetableData st (fst input) (snd input)))
            inputs initialTracker.

(** Every cached distance was read for the cached target from the entries
    of one of the ticks [seen]. *)
Definition distanceWasRead (seen : list (jsval * option (list Server.Entry)))
    (st : Server.Tracker) : Prop :=
  forall d, Server.lastDistanceToStation st = Some d ->
            truthy_val (Server.lastTargetApiName st) = true /\
            exists localTime es,
              In (localTime, Some es) seen /\
              Server.scanEntries es (Server.lastTargetApiName st) = Some d.

(** The file on disk holds the whole trace (and nothing is on disk before
    the first point, or without an output path). *)
Definition fileMirrorsTrace (st : Server.Recorder) : Prop :=
  Server.routeCollectionRequestCount st = List.length (Server.routeCoordinates st) /\
  Server.routeFile st
  = match Server.routeOutputFilePath st, Server.routeCoordinates st with
    | Some _, _ :: _ =>
        Some {| Server.totalPoints := List.length (Server.routeCoordinates st);
                Server.requestCount := List.length (Server.routeCoordinates st);
                Server.fileCoordinates := Server.routeCoordinates st |}
    | _, _ => None
    end.

(** A tick whose telemetry shows the last stop of [twoStops] right here. *)
Definition atEuston : option (list Server.Entry) :=
  Some [ {| Server.Path := "DriverAid.TrackData"; Server.NodeValid := true;
            Server.Values :=
              Some {| Server.TrackData.stations :=
                        Some [ {| Server.TrackItem.stationName :=
                                    JString "London Euston 5";
                                  Server.TrackItem.distanceToStationCM := Some 0 |} ];
                      Server.TrackData.markers := None |} |} ].

(** ** The recording session with markers *)

(** [c] is at the spot of a coordinate of the trace. *)
Definition anchored (trace : list Coordinate) (c : Coordinate) : Prop :=
  exists v, In v trace /\ sameSpot v c.

(** What the first sighting of a marker writes. *)
Definition detection (m : Marker.t)
    : option string * option string * option Coordinate * option R
      * option string * option R :=
  (Marker.stationName m, Marker.markerType m, Marker.detectedAt m,
   Marker.distanceAheadMeters m, Marker.timestamp m, Marker.platformLength m).

(** A marker as its first sighting leaves it: a non-empty name, a kind, a
    detection position on the trace, a distance ahead and a time stamp. *)
Definition detected (trace : list Coordinate) (m : Marker.t) : Prop :=
  (exists name, Marker.stationName m = Some name /\ name <> EmptyString) /\
  Marker.markerName m = None /\
  (exists type, Marker.markerType m = Some type) /\
  (exists at_, Marker.detectedAt m = Some at_ /\ anchored trace at_) /\
  (exists d, Marker.distanceAheadMeters m = Some d) /\
  (exists stamp, Marker.timestamp m = Some stamp).

(** None of the fields that process_trip.js writes is set. *)
Definition unresolved (m : Marker.t) : Prop :=
  Marker.isTimetableStation m = None /\ Marker.latitude m = None /\
  Marker.longitude m = None /\ Marker.calculationMethod m = None.

Definition noOnspot (m : Marker.t) : Prop :=
  Marker.onspot_latitude m = None /\ Marker.onspot_longitude m = None /\
  Marker.onspot_timestamp m = None /\ Marker.spoton_distance m = None.

(** All four on-spot fields are set: the position of a coordinate of the
    trace, a time stamp and a distance under 10 m; and the marker is named
    after a stop of the timetable. *)
Definition onspotAt (timetableData : list Stop) (trace : list Coordinate)
    (m : Marker.t) : Prop :=
  exists v stamp d name stop,
    In v trace /\
    Marker.onspot_latitude m = Some (latitude v) /\
    Marker.onspot_longitude m = Some (longitude v) /\
    Marker.onspot_timestamp m = Some stamp /\
    Marker.spoton_distance m = Some d /\ d < 10 /\
    Marker.stationName m = Some name /\
    In stop timetableData /\ apiName stop = JString name.

Definition recordedMarker (timetableData : list Stop) (trace : list Coordinate)
    (m : Marker.t) : Prop :=
  detected trace m /\ unresolved m /\
  (noOnspot m \/ onspotAt timetableData trace m).

(** What holds of the variables of the route collection after any run of
    the handlers. *)
Definition collected (timetableData : list Stop) (st : Collection.State) : Prop :=
  map Marker.stationName (Collection.discoveredMarkers st)
  = map Some (Collection.processedMarkers st) /\
  NoDup (Collection.processedMarkers st) /\
  Forall (recordedMarker timetableData (Collection.routeCoordinates st))
         (Collection.discoveredMarkers st) /\
  (forall pos, Collection.currentPlayerPosition st = Some pos ->
               anchored (Collection.routeCoordinates st) pos) /\
  (forall c, Collection.lastRouteCoordinate st = Some c ->
             In c (Collection.routeCoordinates st)).

(** The route name that [saveRouteData] writes. *)
Definition nameOf (skeleton : option Collection.File) : string :=
  match skeleton with
  | Some existingData =>
      if truthy_val (JString (Collection.routeName existingData))
      then Collection.routeName existingData else "Route Recording"%string
  | None => "Route Recording"%string
  end.

Definition timetableField (skeleton : option Collection.File) : option (list Stop) :=
  match skeleton with
  | Some existingData => Collection.fileTimetable existingData
  | None => None
  end.

(** The file holds the trace and the markers as they are in memory, under
    the route name and the timetable of the skeleton; before the first
    coordinate it is the skeleton, untouched. *)
Definition fileIsCurrent (skeleton : option Collection.File) (st : Collection.State)
    : Prop :=
  match Collection.routeCoordinates st with
  | [] => Collection.disk st = skeleton
  | _ :: _ =>
      Collection.disk st
      = Some {| Collection.routeName := nameOf skeleton;
                Collection.totalPoints := List.length (Collection.routeCoordinates st);
                Collection.totalMarkers :=
                  List.length (Collection.discoveredMarkers st);
                Collection.requestCount := Collection.routeCollectionRequestCount st;
                Collection.fileCoordinates := Collection.routeCoordinates st;
                Collection.fileMarkers := Collection.discoveredMarkers st;
                Collection.fileTimetable := timetableField skeleton |}
  end.

(** Neither on the equator nor on the prime meridian. *)
Definition awayFromZero (c : Coordinate) : Prop :=
  latitude c <> 0 /\ longitude c <> 0.

(** A processed marker with a position and the timetable flag. *)
Definition placed (timetableStations : list string) (m out : Marker.t) : Prop :=
  Marker.stationName out = Marker.stationName m /\
  Marker.markerType out = Marker.markerType m /\
  Marker.isTimetableStation out
  = Some (includes timetableStations (Marker.stationName m)) /\
  (exists lat lon, Marker.latitude out = Some lat /\ Marker.longitude out = Some lon).

(** The list [later] is [earlier] followed by further entries. *)
Definition extends {A : Type} (earlier later : list A) : Prop :=
  exists added, later = earlier ++ added.

(** A recorder that stands at [1, 1] with one timetable station found. *)
Definition atStation : Collection.State :=
  {| Collection.routeCoordinates := [position 1 1];
     Collection.lastRouteCoordinate := Some (position 1 1);
     Collection.routeCollectionRequestCount := 1;
     Collection.currentPlayerPosition := Some (position 1 1);
     Collection.currentGradient := None;
     Collection.currentHeight := None;
     Collection.discoveredMarkers :=
       [ Collection.newMarker "London Euston 5" "Station" (position 1 1) 500
                              "2026-01-03T08:59:00.000Z" None ];
     Collection.processedMarkers := ["London Euston 5"%string];
     Collection.disk := None |}.

(** A position, then a station 500 m ahead. *)
Definition shortSession : list Collection.event :=
  [ Collection.PlayerInfo (Some (Server.mkGeoLocation (Some 1) (Some 1)));
    Collection.TrackData "2026-01-03T08:59:00.000Z" None
      (Some [ Collection.Sighting.mk (JString "London Euston 5") JUndefined
                                     JUndefined 50000 None ])
      None ].

(** ** The post-processing of a recording *)

(** One of the two guards of [processMarkers] holds for the marker. *)
Definition hasData (m : Marker.t) : bool :=
  match onspotData m, detectionData m with
  | None, None => false
  | _, _ => true
  end.

(** [name] is the non-empty apiName of a stop of the timetable. *)
Definition inTimetable (timetableData : list Stop) (name : option string) : Prop :=
  exists s stop, name = Some s /\ s <> EmptyString /\
                 In stop timetableData /\ apiName stop = JString s.

(** A recording of the scenario route with the marker of
    ROUTE_COLLECTION.md and the two-stop timetable. *)
Definition scenarioRecording : RouteData :=
  {| coordinates := Some scenarioRoute; markers := Some [stationMarker];
     timetable := Some twoStops |}.

(** What the post-processing writes for [scenarioRecording]. *)
Definition scenarioProcessed : RouteData :=
  {| coordinates := Some scenarioRoute;
     markers := Some (map fst (map (processMarker scenarioRoute
                                      (stationNames twoStops)) [stationMarker]));
     timetable := Some twoStops |}.

(** ** The timetable files *)

(** A field that [writeToHUD] writes as it is. *)
Definition plain (field : string) : Prop :=
  contains comma field = false /\ contains doubleQuote field = false /\
  contains newline field = false.

(** No white space at either end. *)
Definition tidy (s : string) : Prop := trimStart s = s /\ trimEnd s = s.

Definition plainFields (fields : Timetables.Fields) : Prop :=
  let '(destination, arrival, departure, platform, apiName) := fields in
  plain destination /\ plain arrival /\ plain departure /\ plain platform /\
  plain apiName /\ tidy apiName.

(** The rows of a service that waits at platform 1, leaves at 08:00:00 and
    stops at London Euston, platform 5, at 09:00:00. *)
Definition sampleRows : list Timetables.Row :=
  [ Timetables.mkRow "WAIT FOR SERVICE" "" "" "07:55:00" "";
    Timetables.mkRow "LOAD PASSENGERS" "" "" "" "08:00:00";
    Timetables.mkRow "STOP" "London Euston" "5" "09:00:00" "" ].

Definition sampleExtra : option Timetables.ExtraData :=
  Some (Timetables.mkExtraData "1" "Northampton").

(** ** The two embeddings of the route collection *)

(** The variables of the route collection that the trace depends on. *)
Definition traceVariables : Type :=
  (list Coordinate * option Coordinate * nat * option Coordinate
   * option R * option R)%type.

Definition serverVariables (st : Server.Recorder) : traceVariables :=
  (Server.routeCoordinates st, Server.lastRouteCoordinate st,
   Server.routeCollectionRequestCount st, Server.currentPlayerPosition st,
   Server.currentGradient st, Server.currentHeight st).

Definition collectionVariables (st : Collection.State) : traceVariables :=
  (Collection.routeCoordinates st, Collection.lastRouteCoordinate st,
   Collection.routeCollectionRequestCount st, Collection.currentPlayerPosition st,
   Collection.currentGradient st, Collection.currentHeight st).

(** What a handled entry means for the trace: of a [DriverAid.TrackData]
    entry only the height counts. *)
Definition traceEvent (e : Collection.event) : Server.event :=
  match e with
  | Collection.PlayerInfo geoLocation => Server.PlayerInfo geoLocation
  | Collection.DriverAidData gradientValue => Server.DriverAidData gradientValue
  | Collection.TrackData _ lastPlayerHeight _ _ =>
      Server.TrackDataHeight lastPlayerHeight
  end.



(** A polyline that starts away from the origin and then visits the origin
    twice in a row: for a query at the origin the minimum distance is
    attained at indices 1 and 2, and not at index 0. *)
Definition tiedRoute : list Coordinate :=
  [ position 0 (2 / 1000); position 0 0; position 0 0; position 0 (1 / 1000) ].


(* ================================================================== *)
(** * Properties *)
(* ================================================================== *)

(** ** Comparisons *)

Lemma js_lt_true (x y : R) : x < y -> js_lt x y = true.
Proof. intros H; unfold js_lt; destruct (Rlt_dec x y); [reflexivity | contradiction]. Qed.

Lemma js_lt_false (x y : R) : y <= x -> js_lt x y = false.
Proof. intros H; unfold js_lt; destruct (Rlt_dec x y); [lra | reflexivity]. Qed.

Lemma js_lt_iff (x y : R) : js_lt x y = true <-> x < y.
Proof.
  unfold js_lt; destruct (Rlt_dec x y); split; intros; auto; discriminate.
Qed.

Lemma js_ge_true (x y : R) : y <= x -> js_ge x y = true.
Proof. intros H; unfold js_ge; destruct (Rle_dec y x); [reflexivity | contradiction]. Qed.

Lemma js_ge_false (x y : R) : x < y -> js_ge x y = false.
Proof. intros H; unfold js_ge; destruct (Rle_dec y x); [lra | reflexivity]. Qed.

Lemma js_neq_true (x y : R) : x <> y -> js_neq x y = true.
Proof. intros H; unfold js_neq; destruct (Req_dec_T x y); [contradiction | reflexivity]. Qed.

Lemma js_neq_false (x y : R) : x = y -> js_neq x y = false.
Proof. intros H; unfold js_neq; destruct (Req_dec_T x y); [reflexivity | contradiction]. Qed.

Lemma js_neq_iff (x y : R) : js_neq x y = true <-> x <> y.
Proof.
  unfold js_neq; destruct (Req_dec_T x y); split; intros H;
    first [assumption | discriminate | contradiction | reflexivity].
Qed.

(** ** Nearest-index search *)

Lemma nth_error_snoc_inv {A : Type} (l : list A) (x y : A) (j : nat) :
  nth_error (l ++ [x]) j = Some y ->
  (j < List.length l)%nat /\ nth_error l j = Some y \/ j = List.length l /\ y = x.
Proof.
  intros H. destruct (Nat.lt_ge_cases j (List.length l)) as [Hlt | Hge].
  - left. split; [assumption |]. rewrite nth_error_app1 in H; assumption.
  - right. rewrite nth_error_app2 in H by assumption.
    destruct (j - List.length l)%nat eqn:E.
    + simpl in H. injection H as <-. split; [lia | reflexivity].
    + simpl in H. destruct n; discriminate.
Qed.

Lemma scanned_step (lat lon : R) (seen : list Coordinate) (coord : Coordinate)
    (minDistance : option R) (nearestIndex : nat) :
  scanned lat lon seen minDistance nearestIndex ->
  let distance := distanceTo lat lon coord in
  let better := match minDistance with
                | None => true
                | Some m => js_lt distance m
                end in
  scanned lat lon (seen ++ [coord])
          (if better then Some distance else minDistance)
          (if better then List.length seen else nearestIndex).
Proof.
  intros Hs distance better.
  destruct seen as [| c0 seen0].
  - destruct Hs as [-> ->]. simpl. exists coord.
    refine (conj eq_refl (conj eq_refl (conj _ _))).
    + intros j cj Hj. destruct j as [| [| j]]; simpl in Hj; try discriminate.
      injection Hj as <-. apply Rle_refl.
    + intros j cj Hj _. lia.
  - destruct Hs as (c & -> & Hc & Hmin & Hlow).
    set (seen := c0 :: seen0) in *.
    assert (Hk : (nearestIndex < List.length seen)%nat)
      by (apply nth_error_Some; rewrite Hc; discriminate).
    change (scanned lat lon ((c0 :: seen0) ++ [coord])) with
      (fun m k => exists c',
         m = Some (distanceTo lat lon c') /\
         nth_error (seen ++ [coord]) k = Some c' /\
         (forall j cj, nth_error (seen ++ [coord]) j = Some cj ->
                       distanceTo lat lon c' <= distanceTo lat lon cj) /\
         (forall j cj, nth_error (seen ++ [coord]) j = Some cj ->
                       distanceTo lat lon cj = distanceTo lat lon c' -> (k <= j)%nat)).
    cbv beta. subst better. destruct (js_lt distance (distanceTo lat lon c)) eqn:E.
    + apply js_lt_iff in E. exists coord.
      refine (conj eq_refl (conj _ (conj _ _))).
      * rewrite nth_error_app2 by lia. rewrite Nat.sub_diag. reflexivity.
      * intros j cj Hj. apply nth_error_snoc_inv in Hj as [[_ Hj] | [_ ->]].
        -- specialize (Hmin j cj Hj). fold distance. lra.
        -- apply Rle_refl.
      * intros j cj Hj Heq. apply nth_error_snoc_inv in Hj as [[_ Hj] | [-> _]].
        -- specialize (Hmin j cj Hj). fold distance in Heq. lra.
        -- lia.
    + assert (Hge : distanceTo lat lon c <= distance).
      { unfold js_lt in E. destruct (Rlt_dec distance (distanceTo lat lon c));
          [discriminate | lra]. }
      exists c. refine (conj eq_refl (conj _ (conj _ _))).
      * rewrite nth_error_app1 by assumption. assumption.
      * intros j cj Hj. apply nth_error_snoc_inv in Hj as [[_ Hj] | [_ ->]].
        -- exact (Hmin j cj Hj).
        -- exact Hge.
      * intros j cj Hj Heq. apply nth_error_snoc_inv in Hj as [[_ Hj] | [-> _]].
        -- exact (Hlow j cj Hj Heq).
        -- lia.
Qed.

Lemma nearestLoop_scanned (lat lon : R) (rest seen : list Coordinate)
    (minDistance : option R) (nearestIndex : nat) :
  scanned lat lon seen minDistance nearestIndex ->
  exists m, scanned lat lon (seen ++ rest) m
                    (nearestLoop lat lon rest (List.length seen) minDistance nearestIndex).
Proof.
  revert seen minDistance nearestIndex.
  induction rest as [| coord rest IH]; intros seen minDistance nearestIndex Hs.
  - exists minDistance. rewrite app_nil_r. exact Hs.
  - pose proof (scanned_step lat lon seen coord minDistance nearestIndex Hs) as Hstep.
    cbv zeta in Hstep. simpl nearestLoop. fold (distanceTo lat lon coord).
    replace (seen ++ coord :: rest) with ((seen ++ [coord]) ++ rest)
      by (rewrite <- app_assoc; reflexivity).
    replace (S (List.length seen)) with (List.length (seen ++ [coord]))
      by (rewrite length_app; simpl; lia).
    destruct (match minDistance with
              | None => true
              | Some m => js_lt (distanceTo lat lon coord) m
              end); apply IH; exact Hstep.
Qed.

Lemma nearestLoop_lowest (lat lon : R) (coords : list Coordinate) :
  coords <> [] ->
  lowestNearest lat lon coords (nearestLoop lat lon coords 0 None 0).
Proof.
  intros Hne.
  destruct (nearestLoop_scanned lat lon coords [] None 0%nat) as [m Hm].
  { simpl. split; reflexivity. }
  simpl in Hm. destruct coords as [| c0 coords0]; [contradiction |].
  destruct Hm as (c & _ & Hc & Hmin & Hlow).
  exists c. exact (conj Hc (conj Hmin Hlow)).
Qed.

Lemma nearestLoop_in_range (lat lon : R) (coords : list Coordinate) :
  coords <> [] ->
  (nearestLoop lat lon coords 0 None 0 < List.length coords)%nat.
Proof.
  intros Hne. destruct (nearestLoop_lowest lat lon coords Hne) as (c & Hc & _).
  apply nth_error_Some. rewrite Hc. discriminate.
Qed.


Lemma lowestNearest_unique (lat lon : R) (coords : list Coordinate) (k k' : nat) :
  lowestNearest lat lon coords k -> lowestNearest lat lon coords k' -> k = k'.
Proof.
  intros (c & Hc & Hmin & Hlow) (c' & Hc' & Hmin' & Hlow').
  pose proof (Hmin k' c' Hc') as H1. pose proof (Hmin' k c Hc) as H2.
  assert (Heq : distanceTo lat lon c' = distanceTo lat lon c) by lra.
  pose proof (Hlow k' c' Hc' Heq). pose proof (Hlow' k c Hc (eq_sym Heq)). lia.
Qed.

(** C7. On a non-empty polyline both nearest-index searches
    ([findNearestCoordinateIndex] of process_trip.js and
    [findNearestRouteIndex] of the playback server) return the same index:
    an index of the polyline whose vertex has the minimum Haversine distance
    to the query point, and the lowest such index.  That index is determined
    by the polyline and the query point alone. *)
Theorem nearest_index_is_lowest_minimum
    (coords : list Coordinate) (lat lon : R)
    (ms : option (list Marker.t)) (tt : option (list Stop)) :
  coords <> [] ->
  lowestNearest lat lon coords (findNearestCoordinateIndex coords lat lon) /\
  RunRoute.findNearestRouteIndex
    (Some {| coordinates := Some coords; markers := ms; timetable := tt |})
    lat lon
  = Z.of_nat (findNearestCoordinateIndex coords lat lon) /\
  (forall k, lowestNearest lat lon coords k ->
             k = findNearestCoordinateIndex coords lat lon).
Proof.
  intros Hne. pose proof (nearestLoop_lowest lat lon coords Hne) as Hlow.
  split; [exact Hlow | split; [reflexivity |]].
  intros k Hk. exact (lowestNearest_unique lat lon coords _ _ Hk Hlow).
Qed.

(** ** Distance along the route *)

Lemma sumLoop_pathLength (coords : list Coordinate) (n i : nat) (acc : R) :
  (i + n < List.length coords)%nat ->
  RunRoute.sumLoop coords n i acc
  = Returns (acc + fold_right Rplus 0 (map (segmentAt coords) (seq i n))).
Proof.
  revert i acc. induction n as [| n IH]; intros i acc Hlen.
  - simpl. f_equal. lra.
  - replace (i + 1)%nat with (S i) in * by lia.
    destruct (nth_error coords i) as [c1 |] eqn:E1.
    2: { apply nth_error_None in E1. lia. }
    destruct (nth_error coords (S i)) as [c2 |] eqn:E2.
    2: { apply nth_error_None in E2. lia. }
    assert (Hseg : segmentAt coords i = segment c1 c2)
      by (unfold segmentAt; rewrite E1, E2; reflexivity).
    cbn [RunRoute.sumLoop]. unfold item.
    replace (i + 1)%nat with (S i) by lia.
    rewrite E1, E2. cbn [bind].
    rewrite IH by lia. cbn [seq map fold_right]. rewrite Hseg. f_equal. lra.
Qed.

(** What [calculateDistanceAlongRoute] returns on a route with
    coordinates. *)
Lemma calculateDistanceAlongRoute_sum
    (coords : list Coordinate) (ms : option (list Marker.t))
    (tt : option (list Stop)) (playerLat playerLon markerLat markerLon : R) :
  let route := Some {| coordinates := Some coords; markers := ms; timetable := tt |} in
  let playerIndex := findNearestCoordinateIndex coords playerLat playerLon in
  let markerIndex := findNearestCoordinateIndex coords markerLat markerLon in
  RunRoute.calculateDistanceAlongRoute route playerLat playerLon markerLat markerLon
  = Returns (Some (if (markerIndex <=? playerIndex)%nat then 0
                   else pathLength coords playerIndex markerIndex)).
Proof.
  intros route playerIndex markerIndex.
  unfold RunRoute.calculateDistanceAlongRoute, route. cbn [coordinates].
  unfold RunRoute.findNearestRouteIndex. cbn [coordinates].
  fold (findNearestCoordinateIndex coords playerLat playerLon).
  fold (findNearestCoordinateIndex coords markerLat markerLon).
  fold playerIndex markerIndex.
  replace (Z.of_nat playerIndex =? -1)%Z with false by (symmetry; apply Z.eqb_neq; lia).
  replace (Z.of_nat markerIndex =? -1)%Z with false by (symmetry; apply Z.eqb_neq; lia).
  cbn [orb].
  destruct (markerIndex <=? playerIndex)%nat eqn:E.
  - apply Nat.leb_le in E.
    replace (Z.of_nat markerIndex <=? Z.of_nat playerIndex)%Z with true
      by (symmetry; apply Z.leb_le; lia).
    reflexivity.
  - apply Nat.leb_gt in E.
    replace (Z.of_nat markerIndex <=? Z.of_nat playerIndex)%Z with false
      by (symmetry; apply Z.leb_gt; lia).
    assert (Hne : coords <> []).
    { intros ->. unfold markerIndex, playerIndex, findNearestCoordinateIndex in E.
      simpl in E. lia. }
    pose proof (nearestLoop_in_range markerLat markerLon coords Hne) as Hm.
    fold (findNearestCoordinateIndex coords markerLat markerLon) in Hm.
    fold markerIndex in Hm.
    rewrite Nat2Z.id.
    replace (Z.to_nat (Z.of_nat markerIndex - Z.of_nat playerIndex))
      with (markerIndex - playerIndex)%nat by lia.
    rewrite sumLoop_pathLength by lia.
    unfold bind, pathLength. do 2 f_equal. lra.
Qed.

(** C2. With a loaded route that has a coordinate list,
    [calculateDistanceAlongRoute] returns a number, never [null] and never
    an exception: exactly 0 when the marker's nearest index is less than or
    equal to the live position's nearest index, and otherwise the sum of the
    Haversine lengths of all consecutive coordinate pairs from the live
    position's index up to the marker's index. *)
Theorem distance_along_route_value
    (coords : list Coordinate) (ms : option (list Marker.t))
    (tt : option (list Stop)) (playerLat playerLon markerLat markerLon : R) :
  let route := Some {| coordinates := Some coords; markers := ms; timetable := tt |} in
  let playerIndex :=
    RunRoute.findNearestRouteIndex route playerLat playerLon in
  let markerIndex :=
    RunRoute.findNearestRouteIndex route markerLat markerLon in
  RunRoute.calculateDistanceAlongRoute route playerLat playerLon markerLat markerLon
  = Returns (Some (if (markerIndex <=? playerIndex)%Z then 0
                   else pathLength coords (Z.to_nat playerIndex)
                                   (Z.to_nat markerIndex))).
Proof.
  intros route playerIndex markerIndex.
  unfold route. rewrite calculateDistanceAlongRoute_sum.
  unfold playerIndex, markerIndex, route, RunRoute.findNearestRouteIndex.
  cbn [coordinates]. unfold findNearestCoordinateIndex. rewrite !Nat2Z.id.
  do 2 f_equal.
  destruct (nearestLoop markerLat markerLon coords 0 None 0
            <=? nearestLoop playerLat playerLon coords 0 None 0)%nat eqn:E.
  - apply Nat.leb_le in E.
    replace (Z.of_nat (nearestLoop markerLat markerLon coords 0 None 0)
             <=? Z.of_nat (nearestLoop playerLat playerLon coords 0 None 0))%Z
      with true by (symmetry; apply Z.leb_le; lia).
    reflexivity.
  - apply Nat.leb_gt in E.
    replace (Z.of_nat (nearestLoop markerLat markerLon coords 0 None 0)
             <=? Z.of_nat (nearestLoop playerLat playerLon coords 0 None 0))%Z
      with false by (symmetry; apply Z.leb_gt; lia).
    reflexivity.
Qed.

(** ** Walking forward along the route *)

Lemma pathLength_same (coords : list Coordinate) (i : nat) :
  pathLength coords i i = 0.
Proof. unfold pathLength. rewrite Nat.sub_diag. reflexivity. Qed.

Lemma pathLength_step (coords : list Coordinate) (i m : nat) :
  (i < m)%nat ->
  pathLength coords i m = segmentAt coords i + pathLength coords (S i) m.
Proof.
  intros H. unfold pathLength.
  replace (m - i)%nat with (S (m - S i)) by lia. reflexivity.
Qed.

Lemma pathLength_single (coords : list Coordinate) (i : nat) :
  pathLength coords i (S i) = segmentAt coords i.
Proof.
  rewrite pathLength_step by lia. rewrite pathLength_same. lra.
Qed.

Lemma last_cons_default {A : Type} (l : list A) (a b : A) :
  last (a :: l) b = last l a.
Proof.
  revert a b. induction l as [| x l IH]; intros a b; [reflexivity |].
  change (last (a :: x :: l) b) with (last (x :: l) b).
  rewrite (IH x b), (IH x a). reflexivity.
Qed.

Lemma nth_error_last {A : Type} (l : list A) (a : A) :
  nth_error (a :: l) (List.length l) = Some (last l a).
Proof.
  revert a. induction l as [| x l IH]; intros a; [reflexivity |].
  change (nth_error (a :: x :: l) (List.length (x :: l)))
    with (nth_error (x :: l) (List.length l)).
  rewrite IH, last_cons_default. reflexivity.
Qed.

Lemma lastCoord_nonempty (coords : list Coordinate) :
  coords <> [] ->
  exists c, nth_error coords (List.length coords - 1) = Some c /\
            lastCoord coords = Returns (position (latitude c) (longitude c)).
Proof.
  intros Hne. destruct coords as [| c0 rest]; [contradiction |].
  exists (last rest c0). split; [| reflexivity].
  cbn [List.length]. rewrite Nat.sub_1_r. cbn [Nat.pred].
  apply nth_error_last.
Qed.

Section Walk.

Variable coords : list Coordinate.

Lemma followLoop_at_end (fuel i : nat) (remaining : R) :
  (List.length coords - 1 <= i)%nat \/ remaining <= 0 ->
  followLoop coords fuel i remaining = lastCoord coords.
Proof.
  intros H. destruct fuel; simpl; unfold js_gt.
  - destruct H as [H | H].
    + replace (Z.of_nat i <? Z.of_nat (List.length coords) - 1)%Z with false
        by (symmetry; apply Z.ltb_ge; lia).
      reflexivity.
    + rewrite js_lt_false by assumption. rewrite andb_false_r. reflexivity.
  - destruct H as [H | H].
    + replace (Z.of_nat i <? Z.of_nat (List.length coords) - 1)%Z with false
        by (symmetry; apply Z.ltb_ge; lia).
      reflexivity.
    + rewrite js_lt_false by assumption. rewrite andb_false_r. reflexivity.
Qed.

Lemma followLoop_advance (fuel i : nat) (remaining : R) (c1 c2 : Coordinate) :
  nth_error coords i = Some c1 ->
  nth_error coords (S i) = Some c2 ->
  0 < remaining ->
  followLoop coords (S fuel) i remaining
  = if js_ge (segment c1 c2) remaining
    then Returns (interpolate c1 c2 (remaining / segment c1 c2))
    else followLoop coords fuel (S i) (remaining - segment c1 c2).
Proof.
  intros H1 H2 Hpos.
  assert (Hlen : (S i < List.length coords)%nat)
    by (apply nth_error_Some; rewrite H2; discriminate).
  cbn [followLoop]. unfold js_gt. rewrite js_lt_true by assumption.
  replace (Z.of_nat i <? Z.of_nat (List.length coords) - 1)%Z with true
    by (symmetry; apply Z.ltb_lt; lia).
  cbn [andb]. unfold item. replace (i + 1)%nat with (S i) by lia.
  rewrite H1, H2. reflexivity.
Qed.

(** The walk stops inside the segment [k, k+1] when the accumulated length
    first reaches the remaining distance there. *)
Lemma followLoop_within (n : nat) :
  forall (fuel i k : nat) (remaining : R) (c1 c2 : Coordinate),
    k = (i + n)%nat -> (n < fuel)%nat -> 0 < remaining ->
    nth_error coords k = Some c1 ->
    nth_error coords (S k) = Some c2 ->
    (forall j, (i <= j < k)%nat -> pathLength coords i (S j) < remaining) ->
    remaining <= pathLength coords i (S k) ->
    followLoop coords fuel i remaining
    = Returns (interpolate c1 c2
                 ((remaining - pathLength coords i k) / segment c1 c2)).
Proof.
  induction n as [| n IH]; intros fuel i k remaining c1 c2 Hk Hfuel Hpos H1 H2 Hbelow Hreach.
  - rewrite Nat.add_0_r in Hk. subst k.
    destruct fuel as [| fuel]; [lia |].
    rewrite (followLoop_advance fuel i remaining c1 c2 H1 H2 Hpos).
    rewrite pathLength_single in Hreach. unfold segmentAt in Hreach.
    rewrite H1, H2 in Hreach.
    rewrite js_ge_true by assumption. rewrite pathLength_same.
    do 2 f_equal. lra.
  - destruct fuel as [| fuel]; [lia |].
    assert (Hi : (S i < List.length coords)%nat).
    { assert (S k < List.length coords)%nat
        by (apply nth_error_Some; rewrite H2; discriminate). lia. }
    destruct (nth_error coords i) as [a |] eqn:Ea.
    2: { apply nth_error_None in Ea. lia. }
    destruct (nth_error coords (S i)) as [b |] eqn:Eb.
    2: { apply nth_error_None in Eb. lia. }
    rewrite (followLoop_advance fuel i remaining a b Ea Eb Hpos).
    assert (Hseg : segmentAt coords i = segment a b)
      by (unfold segmentAt; rewrite Ea, Eb; reflexivity).
    assert (Hfirst : segment a b < remaining).
    { rewrite <- Hseg, <- pathLength_single. apply Hbelow. lia. }
    rewrite js_ge_false by assumption.
    rewrite (IH fuel (S i) k (remaining - segment a b) c1 c2); try lia; try assumption.
    + do 2 f_equal. rewrite (pathLength_step coords i k) by lia. rewrite Hseg. lra.
    + lra.
    + intros j Hj. specialize (Hbelow j ltac:(lia)).
      rewrite (pathLength_step coords i (S j)) in Hbelow by lia. rewrite Hseg in Hbelow. lra.
    + rewrite (pathLength_step coords i (S k)) in Hreach by lia. rewrite Hseg in Hreach. lra.
Qed.

(** The walk runs off the end when no accumulated length reaches the
    remaining distance. *)
Lemma followLoop_clamped (n : nat) :
  forall (fuel i : nat) (remaining : R),
    (i + n = List.length coords - 1)%nat -> (n <= fuel)%nat ->
    (forall j, (i <= j)%nat -> (S j < List.length coords)%nat ->
               pathLength coords i (S j) < remaining) ->
    followLoop coords fuel i remaining = lastCoord coords.
Proof.
  induction n as [| n IH]; intros fuel i remaining Hn Hfuel Hbelow.
  - apply followLoop_at_end. left. lia.
  - destruct (Rle_lt_dec remaining 0) as [Hle | Hpos].
    { apply followLoop_at_end. right. assumption. }
    destruct fuel as [| fuel]; [lia |].
    destruct (nth_error coords i) as [a |] eqn:Ea.
    2: { apply nth_error_None in Ea. lia. }
    destruct (nth_error coords (S i)) as [b |] eqn:Eb.
    2: { apply nth_error_None in Eb. lia. }
    rewrite (followLoop_advance fuel i remaining a b Ea Eb Hpos).
    assert (Hseg : segmentAt coords i = segment a b)
      by (unfold segmentAt; rewrite Ea, Eb; reflexivity).
    assert (Hfirst : segment a b < remaining).
    { rewrite <- Hseg, <- pathLength_single. apply Hbelow; lia. }
    rewrite js_ge_false by assumption.
    apply IH; try lia.
    intros j Hj Hlen. specialize (Hbelow j ltac:(lia) Hlen).
    rewrite (pathLength_step coords i (S j)) in Hbelow by lia. rewrite Hseg in Hbelow. lra.
Qed.

(** For a positive distance [followRoutePath] interpolates inside the first
    segment at which the accumulated length reaches the distance. *)
Lemma followRoutePath_within (startIndex k : nat) (distanceMeters : R)
    (c1 c2 : Coordinate) :
  0 < distanceMeters -> (startIndex <= k)%nat ->
  nth_error coords k = Some c1 ->
  nth_error coords (S k) = Some c2 ->
  (forall j, (startIndex <= j < k)%nat ->
             pathLength coords startIndex (S j) < distanceMeters) ->
  distanceMeters <= pathLength coords startIndex (S k) ->
  followRoutePath coords startIndex distanceMeters
  = Returns (interpolate c1 c2
               ((distanceMeters - pathLength coords startIndex k) / segment c1 c2)).
Proof.
  intros Hpos Hk H1 H2 Hbelow Hreach.
  assert (Hlen : (S k < List.length coords)%nat)
    by (apply nth_error_Some; rewrite H2; discriminate).
  unfold followRoutePath.
  replace (Z.of_nat startIndex >=? Z.of_nat (List.length coords) - 1)%Z with false
    by (symmetry; rewrite Z.geb_leb; apply Z.leb_gt; lia).
  apply (followLoop_within (k - startIndex)); try assumption; lia.
Qed.

(** When the accumulated length never reaches the distance, or the distance
    is not positive, [followRoutePath] returns the last coordinate. *)
Lemma followRoutePath_clamped (startIndex : nat) (distanceMeters : R) :
  (forall j, (startIndex <= j)%nat -> (S j < List.length coords)%nat ->
             pathLength coords startIndex (S j) < distanceMeters) ->
  followRoutePath coords startIndex distanceMeters = lastCoord coords.
Proof.
  intros Hbelow. unfold followRoutePath.
  destruct (Z.of_nat startIndex >=? Z.of_nat (List.length coords) - 1)%Z eqn:E;
    [reflexivity |].
  rewrite Z.geb_leb in E. apply Z.leb_gt in E.
  apply (followLoop_clamped (List.length coords - 1 - startIndex)); try lia.
  assumption.
Qed.

Lemma followRoutePath_not_positive (startIndex : nat) (distanceMeters : R) :
  distanceMeters <= 0 ->
  followRoutePath coords startIndex distanceMeters = lastCoord coords.
Proof.
  intros Hle. unfold followRoutePath.
  destruct (Z.of_nat startIndex >=? Z.of_nat (List.length coords) - 1)%Z;
    [reflexivity |].
  apply followLoop_at_end. right. assumption.
Qed.

End Walk.

(** ** The Haversine distance along the equator *)

Lemma atan2_sin_cos (x : R) :
  0 <= x < PI / 2 -> Math_atan2 (sin x) (cos x) = x.
Proof.
  intros [H0 H1].
  assert (Hcos : 0 < cos x) by (apply cos_gt_0; lra).
  unfold Math_atan2. rewrite js_lt_true by assumption.
  change (sin x / cos x) with (tan x). apply atan_tan. lra.
Qed.

Lemma calculateDistance_equator (lon1 lon2 : R) :
  0 <= lon2 - lon1 < 180 ->
  calculateDistance 0 lon1 0 lon2 = 6371000 * ((lon2 - lon1) * PI / 180).
Proof.
  intros [H0 H1]. pose proof PI_RGT_0 as Hpi.
  unfold calculateDistance. cbv zeta.
  replace (0 * PI / 180) with 0 by lra.
  replace ((0 - 0) * PI / 180 / 2) with 0 by lra.
  rewrite sin_0, cos_0.
  set (x := (lon2 - lon1) * PI / 180 / 2).
  assert (Hx : 0 <= x < PI / 2).
  { assert (Hlo : 0 <= (lon2 - lon1) * PI) by (apply Rmult_le_pos; lra).
    assert (Hhi : (lon2 - lon1) * PI < 180 * PI)
      by (apply Rmult_lt_compat_r; lra).
    unfold x. split; lra. }
  assert (Hsin : 0 <= sin x) by (apply sin_ge_0; lra).
  assert (Hcos : 0 < cos x) by (apply cos_gt_0; lra).
  replace (0 * 0 + 1 * 1 * sin x * sin x) with (Rsqr (sin x)) by (unfold Rsqr; ring).
  replace (1 - Rsqr (sin x)) with (Rsqr (cos x))
    by (pose proof (sin2_cos2 x); lra).
  rewrite (sqrt_Rsqr (sin x)) by assumption.
  rewrite (sqrt_Rsqr (cos x)) by lra.
  rewrite atan2_sin_cos by assumption.
  unfold x. field.
Qed.

Lemma scenario_segments :
  segment (position 0 0) (position 0 (1 / 1000)) = scenarioSegment /\
  segment (position 0 (1 / 1000)) (position 0 (2 / 1000)) = scenarioSegment.
Proof.
  unfold segment, position, scenarioSegment; cbn [latitude longitude].
  split; rewrite calculateDistance_equator by lra; field.
Qed.

(** On [tiedRoute] the vertex nearest to the origin is the one at index 1:
    index 0 is farther away, and index 2 ties with index 1. *)
Lemma tiedRoute_nearest : lowestNearest 0 0 tiedRoute 1.
Proof.
  pose proof PI_RGT_0 as Hpi.
  assert (Hd : forall x, 0 <= x < 180 ->
                         distanceTo 0 0 (position 0 x) = 6371000 * (x * PI / 180)).
  { intros x Hx. unfold distanceTo, position; cbn [latitude longitude].
    rewrite calculateDistance_equator by lra. f_equal. lra. }
  assert (Hpos : forall x, 0 <= x -> 0 <= 6371000 * (x * PI / 180)).
  { intros x Hx. apply Rmult_le_pos; [lra |].
    apply Rmult_le_pos; [| lra]. apply Rmult_le_pos; lra. }
  assert (Hfar : 0 < 6371000 * (2 / 1000 * PI / 180)).
  { apply Rmult_lt_0_compat; [lra |]. lra. }
  exists (position 0 0). split; [reflexivity |].
  rewrite (Hd 0) by lra. replace (6371000 * (0 * PI / 180)) with 0 by lra.
  split.
  - intros j cj Hj.
    destruct j as [| [| [| [| j]]]]; cbn in Hj; try (destruct j; discriminate);
      injection Hj as <-; rewrite Hd by lra; apply Hpos; lra.
  - intros j cj Hj Heq.
    destruct j as [| j]; [| lia].
    cbn in Hj. injection Hj as <-. rewrite Hd in Heq by lra. lra.
Qed.

Lemma nearest_index_is_lowest_minimum_witness :
  tiedRoute <> [] /\
  findNearestCoordinateIndex tiedRoute 0 0 = 1%nat /\
  RunRoute.findNearestRouteIndex
    (Some {| coordinates := Some tiedRoute; markers := None; timetable := None |})
    0 0
  = 1%Z.
Proof.
  assert (Hne : tiedRoute <> []) by discriminate.
  destruct (nearest_index_is_lowest_minimum tiedRoute 0 0 None None Hne)
    as (_ & Hsame & Hunique).
  pose proof (Hunique 1%nat tiedRoute_nearest) as Hk.
  split; [exact Hne |]. split; [symmetry; exact Hk |].
  rewrite Hsame, <- Hk. reflexivity.
Defined.

(** PI to two decimals, from the first terms of Machin's series. *)
Lemma PI_bounds : 314 / 100 < PI < 315 / 100.
Proof.
  pose proof (PI_2_3_7_ineq 1) as [Hlo Hhi].
  unfold sum_f_R0, tg_alt, PI_2_3_7_tg, Ratan_seq in Hlo, Hhi.
  simpl in Hlo, Hhi. split; lra.
Qed.

Lemma scenarioSegment_bounds : 11113 / 100 < scenarioSegment < 11150 / 100.
Proof.
  unfold scenarioSegment. pose proof PI_bounds. lra.
Qed.

(** The scenario of the specification: from index 0 and 150 m ahead the
    walk consumes the first segment and stops inside the second one, at
    fraction (150 - s) / s of it, where s is the segment length; that
    fraction lies between 0.345 and 0.35. *)
Lemma scenario_walk :
  followRoutePath scenarioRoute 0 150
  = Returns (interpolate (position 0 (1 / 1000)) (position 0 (2 / 1000))
               ((150 - scenarioSegment) / scenarioSegment)) /\
  345 / 1000 < (150 - scenarioSegment) / scenarioSegment < 350 / 1000.
Proof.
  destruct scenario_segments as [S1 S2]. pose proof scenarioSegment_bounds as Hb.
  assert (P1 : pathLength scenarioRoute 0 1 = scenarioSegment).
  { rewrite pathLength_single. exact S1. }
  assert (P2 : pathLength scenarioRoute 0 2 = scenarioSegment + scenarioSegment).
  { rewrite pathLength_step by lia. rewrite pathLength_single.
    unfold segmentAt, scenarioRoute; cbn [nth_error]. rewrite S1, S2. reflexivity. }
  assert (Hbelow : forall j, (0 <= j < 1)%nat -> pathLength scenarioRoute 0 (S j) < 150).
  { intros j Hj. assert (j = 0%nat) by lia. subst j. rewrite P1. lra. }
  assert (Hreach : 150 <= pathLength scenarioRoute 0 2) by (rewrite P2; lra).
  split.
  - rewrite (followRoutePath_within scenarioRoute 0 1 150
               (position 0 (1 / 1000)) (position 0 (2 / 1000))
               ltac:(lra) ltac:(lia) eq_refl eq_refl Hbelow Hreach).
    rewrite P1, S2. reflexivity.
  - assert (Hr : (150 - scenarioSegment) / scenarioSegment * scenarioSegment
                 = 150 - scenarioSegment) by (field; lra).
    split; apply Rmult_lt_reg_r with scenarioSegment; try lra; rewrite Hr; lra.
Qed.

(** C1, at the input where the code departs from it.  With a requested
    distance of 0 the accumulated length (0, no segment walked) already
    equals the distance at the start index, yet [followRoutePath] skips its
    loop and returns the last coordinate of the route instead of the start
    point. *)
Theorem follow_route_path_zero_distance :
  pathLength scenarioRoute 0 0 = 0 /\
  followRoutePath scenarioRoute 0 0 = Returns (position 0 (2 / 1000)) /\
  position 0 (2 / 1000) <> interpolate (position 0 0) (position 0 (1 / 1000)) 0.
Proof.
  split; [apply pathLength_same |]. split.
  - rewrite followRoutePath_not_positive by lra. reflexivity.
  - unfold interpolate, position; cbn [latitude longitude].
    intros H. injection H as H. lra.
Qed.

(** ** The marker resolver *)

Lemma followLoop_returns (coords : list Coordinate) (n : nat) :
  forall (fuel i : nat) (remaining : R),
    coords <> [] ->
    (i + n = List.length coords - 1)%nat -> (n <= fuel)%nat ->
    exists p, followLoop coords fuel i remaining = Returns p.
Proof.
  induction n as [| n IH]; intros fuel i remaining Hne Hn Hfuel.
  - rewrite followLoop_at_end by (left; lia).
    destruct (lastCoord_nonempty coords Hne) as (c & _ & ->). eauto.
  - destruct (Rle_lt_dec remaining 0) as [Hle | Hpos].
    { rewrite followLoop_at_end by (right; assumption).
      destruct (lastCoord_nonempty coords Hne) as (c & _ & ->). eauto. }
    destruct fuel as [| fuel]; [lia |].
    destruct (nth_error coords i) as [a |] eqn:Ea.
    2: { apply nth_error_None in Ea. lia. }
    destruct (nth_error coords (S i)) as [b |] eqn:Eb.
    2: { apply nth_error_None in Eb. lia. }
    rewrite (followLoop_advance coords fuel i remaining a b Ea Eb Hpos).
    destruct (js_ge (segment a b) remaining); [eauto |].
    apply IH; try assumption; lia.
Qed.

(** On a non-empty route [followRoutePath] returns a position: it neither
    throws nor runs out of loop bound. *)
Lemma followRoutePath_returns (coords : list Coordinate) (startIndex : nat)
    (distanceMeters : R) :
  coords <> [] ->
  exists p, followRoutePath coords startIndex distanceMeters = Returns p.
Proof.
  intros Hne. unfold followRoutePath.
  destruct (Z.of_nat startIndex >=? Z.of_nat (List.length coords) - 1)%Z eqn:E.
  - destruct (lastCoord_nonempty coords Hne) as (c & _ & ->). eauto.
  - rewrite Z.geb_leb in E. apply Z.leb_gt in E.
    apply (followLoop_returns coords (List.length coords - 1 - startIndex));
      try assumption; lia.
Qed.

(** A marker with non-zero on-spot latitude and longitude and an on-spot
    distance is resolved by the on-spot method, whatever detection-time
    data it carries. *)
Lemma resolveMarker_onspot (coords : list Coordinate) (marker : Marker.t)
    (lat lon d : R) :
  coords <> [] ->
  Marker.onspot_latitude marker = Some lat -> lat <> 0 ->
  Marker.onspot_longitude marker = Some lon -> lon <> 0 ->
  Marker.spoton_distance marker = Some d ->
  exists p,
    resolvedFrom coords lat lon d = Returns p /\
    resolveMarker coords marker
    = (MarkerOps.set_calculationMethod "onspot"
         (MarkerOps.set_longitude (longitude p)
            (MarkerOps.set_latitude (latitude p) marker)), Method1).
Proof.
  intros Hne Hlat Hlat0 Hlon Hlon0 Hd.
  destruct (followRoutePath_returns coords
              (findNearestCoordinateIndex coords lat lon) d Hne) as [p Hp].
  exists p. split; [exact Hp |].
  unfold resolveMarker, onspotData. rewrite Hlat, Hlon, Hd. cbn [truthy_num].
  rewrite !js_neq_true by assumption. cbn [andb].
  unfold anchorAndWalk. unfold resolvedFrom in Hp. rewrite Hp. reflexivity.
Qed.

(** A marker passed on the spot at distance 0 is placed on the last
    coordinate of the route, wherever its on-spot position lies. *)
Lemma resolveMarker_onspot_zero_distance (coords : list Coordinate)
    (marker : Marker.t) (lat lon : R) :
  coords <> [] ->
  Marker.onspot_latitude marker = Some lat -> lat <> 0 ->
  Marker.onspot_longitude marker = Some lon -> lon <> 0 ->
  Marker.spoton_distance marker = Some 0 ->
  exists c,
    nth_error coords (List.length coords - 1) = Some c /\
    Marker.latitude (fst (resolveMarker coords marker)) = Some (latitude c) /\
    Marker.longitude (fst (resolveMarker coords marker)) = Some (longitude c).
Proof.
  intros Hne Hlat Hlat0 Hlon Hlon0 Hd.
  destruct (resolveMarker_onspot coords marker lat lon 0 Hne Hlat Hlat0 Hlon Hlon0 Hd)
    as (p & Hp & ->).
  unfold resolvedFrom in Hp. rewrite followRoutePath_not_positive in Hp by lra.
  destruct (lastCoord_nonempty coords Hne) as (c & Hc & Hlast).
  rewrite Hlast in Hp. injection Hp as <-. exists c. repeat split; assumption.
Qed.

(** The detection method is only reached when the guard of the on-spot
    method fails. *)
Lemma resolveMarker_detection_only_without_onspot (coords : list Coordinate)
    (marker : Marker.t) :
  snd (resolveMarker coords marker) = Method2 -> onspotData marker = None.
Proof.
  unfold resolveMarker. destruct (onspotData marker) as [[[lat lon] d] |];
    [| reflexivity].
  unfold anchorAndWalk.
  destruct (followRoutePath coords (findNearestCoordinateIndex coords lat lon) d);
    discriminate.
Qed.

(** C3, at the input where the code departs from it.  A marker that carries
    an on-spot override whose longitude is 0 (a falsy number), next to
    detection data, is resolved by the detection method: from the detection
    position and the distance-ahead, not from the on-spot position and
    distance. *)
Theorem resolver_skips_onspot_at_zero_coordinate (coords : list Coordinate) :
  Marker.onspot_latitude meridianMarker = Some (515 / 10) /\
  Marker.onspot_longitude meridianMarker = Some 0 /\
  Marker.spoton_distance meridianMarker = Some 5 /\
  resolveMarker coords meridianMarker
  = anchorAndWalk coords meridianMarker (515 / 10) (- (1 / 1000)) 100
                  "detectedAt" Method2.
Proof.
  repeat (split; [reflexivity |]).
  unfold resolveMarker, onspotData, detectionData, meridianMarker.
  cbn [Marker.onspot_latitude Marker.onspot_longitude Marker.spoton_distance
       Marker.detectedAt Marker.distanceAheadMeters truthy_num
       position latitude longitude].
  rewrite (js_neq_false 0 0) by reflexivity. rewrite andb_false_r.
  rewrite !js_neq_true by lra. reflexivity.
Qed.

Lemma onspotData_set_isTimetableStation (b : bool) (m : Marker.t) :
  onspotData (MarkerOps.set_isTimetableStation b m) = onspotData m.
Proof. reflexivity. Qed.

Lemma detectionData_set_isTimetableStation (b : bool) (m : Marker.t) :
  detectionData (MarkerOps.set_isTimetableStation b m) = detectionData m.
Proof. reflexivity. Qed.

Lemma processMarker_cleaned (coords : list Coordinate)
    (timetableStations : list string) (m : Marker.t) :
  cleanedFrom timetableStations m (fst (processMarker coords timetableStations m)).
Proof.
  unfold processMarker.
  set (marked := MarkerOps.set_isTimetableStation _ m).
  assert (Hres : forall r, r = resolveMarker coords marked ->
            Marker.stationName (fst r) = Marker.stationName m /\
            Marker.markerName (fst r) = Marker.markerName m /\
            Marker.markerType (fst r) = Marker.markerType m /\
            Marker.isTimetableStation (fst r)
            = Some (includes timetableStations (Marker.stationName m))).
  { intros r ->. unfold resolveMarker, anchorAndWalk.
    destruct (onspotData marked) as [[[lat lon] d] |].
    - destruct (followRoutePath coords _ d); repeat split; reflexivity.
    - destruct (detectionData marked) as [[[lat lon] d] |].
      + destruct (followRoutePath coords _ d); repeat split; reflexivity.
      + repeat split; reflexivity. }
  destruct (resolveMarker coords marked) as [resolved used] eqn:E.
  destruct (Hres _ eq_refl) as (H1 & H2 & H3 & H4). cbn [fst] in *.
  unfold cleanedFrom. cbn. repeat split; assumption.
Qed.

Lemma processMarker_positioned (coords : list Coordinate)
    (timetableStations : list string) (m : Marker.t) :
  coords <> [] ->
  positionedFrom coords m (fst (processMarker coords timetableStations m)).
Proof.
  intros Hne. unfold processMarker, positionedFrom.
  set (marked := MarkerOps.set_isTimetableStation _ m).
  unfold resolveMarker.
  rewrite <- (onspotData_set_isTimetableStation
                (includes timetableStations (Marker.stationName m)) m).
  rewrite <- (detectionData_set_isTimetableStation
                (includes timetableStations (Marker.stationName m)) m).
  fold marked.
  destruct (onspotData marked) as [[[lat lon] d] |].
  - destruct (followRoutePath_returns coords
                (findNearestCoordinateIndex coords lat lon) d Hne) as [p Hp].
    exists p. unfold anchorAndWalk, resolvedFrom. rewrite Hp.
    repeat split; reflexivity.
  - destruct (detectionData marked) as [[[lat lon] d] |].
    + destruct (followRoutePath_returns coords
                  (findNearestCoordinateIndex coords lat lon) d Hne) as [p Hp].
      exists p. unfold anchorAndWalk, resolvedFrom. rewrite Hp.
      repeat split; reflexivity.
    + split; reflexivity.
Qed.

(** C6 as stated fails: the platform length of the input marker is not in
    the output record, and the output record carries a field outside the
    claimed schema, the timetable flag. *)
Lemma platform_length_is_deleted :
  Marker.platformLength stationMarker = Some 220 /\
  Marker.platformLength (fst (processMarker scenarioRoute [] stationMarker)) = None /\
  Marker.platformLength (fst (processMarker scenarioRoute [] stationMarker))
  <> Marker.platformLength stationMarker /\
  Marker.isTimetableStation (fst (processMarker scenarioRoute [] stationMarker))
  = Some false.
Proof.
  split; [reflexivity |].
  pose proof (processMarker_cleaned scenarioRoute [] stationMarker) as H.
  unfold cleanedFrom in H.
  destruct H as (_ & _ & _ & Hflag & _ & _ & _ & Hlen & _).
  split; [exact Hlen |]. split; [rewrite Hlen; discriminate |].
  rewrite Hflag. reflexivity.
Qed.

(** C6, amended.  On a route with coordinates and markers [processMarkers]
    returns, and each marker of its output keeps the name and kind of the
    input marker, carries the timetable flag and the position written by
    the method that applied, and has none of the detection-time fields
    (detection position, distance-ahead, timestamps, on-spot fields, method
    tag) and no platform length. *)
Theorem processed_marker_schema
    (c0 : Coordinate) (cs : list Coordinate) (ms : list Marker.t)
    (tt : option (list Stop)) (timetableStations : list string) :
  let coords := c0 :: cs in
  let outs := map (fun m => fst (processMarker coords timetableStations m)) ms in
  (exists n,
     processMarkers {| coordinates := Some coords; markers := Some ms; timetable := tt |}
                    timetableStations
     = Returns (n, {| coordinates := Some coords; markers := Some outs;
                      timetable := tt |})) /\
  Forall2 (fun m out => cleanedFrom timetableStations m out /\
                        positionedFrom coords m out) ms outs.
Proof.
  intros coords outs. split.
  - eexists. unfold processMarkers, outs, coords.
    cbn [coordinates markers timetable]. rewrite !map_map. reflexivity.
  - unfold outs. induction ms as [| m ms' IH]; [constructor |].
    cbn [map]. constructor; [| exact IH]. split.
    + apply processMarker_cleaned.
    + apply processMarker_positioned. discriminate.
Qed.

(** ** The recorded trace has no immediate repeats *)

Section Dedup.

Import Server.

Lemma lastOf_snoc (l : list Coordinate) (x : Coordinate) :
  lastOf (l ++ [x]) = Some x.
Proof.
  unfold lastOf. rewrite length_app. cbn [List.length].
  replace (List.length l + 1 - 1)%nat with (List.length l) by lia.
  rewrite nth_error_app2 by lia. rewrite Nat.sub_diag. reflexivity.
Qed.

Lemma differsFromLast_false (lastc : option Coordinate) (c : Coordinate) :
  differsFromLast lastc c = false <->
  exists l, lastc = Some l /\ sameSpot l c.
Proof.
  unfold differsFromLast, sameSpot. destruct lastc as [l |].
  - rewrite orb_false_iff. split.
    + intros [H1 H2]. exists l. split; [reflexivity |]. split.
      * destruct (Req_dec_T (latitude l) (latitude c)) as [E | E]; [exact E |].
        rewrite js_neq_true in H2 by exact E. discriminate.
      * destruct (Req_dec_T (longitude l) (longitude c)) as [E | E]; [exact E |].
        rewrite js_neq_true in H1 by exact E. discriminate.
    + intros (l' & [= <-] & Hlat & Hlon).
      split; apply js_neq_false; assumption.
  - split; [discriminate |]. intros (l & H & _). discriminate.
Qed.

Lemma differsFromLast_true (lastc : option Coordinate) (c : Coordinate) :
  differsFromLast lastc c = true <->
  lastc = None \/ exists l, lastc = Some l /\ ~ sameSpot l c.
Proof.
  destruct (differsFromLast lastc c) eqn:E.
  - split; [intros _ | reflexivity].
    destruct lastc as [l |]; [right | left; reflexivity].
    exists l. split; [reflexivity |]. intros Hs.
    assert (Hf : differsFromLast (Some l) c = false)
      by (apply differsFromLast_false; eauto).
    congruence.
  - apply differsFromLast_false in E. destruct E as (l & -> & Hs).
    split; [discriminate |]. intros [H | (l' & [= <-] & Hn)];
      [discriminate | contradiction].
Qed.

Lemma saveRouteData_trace (st : Recorder) :
  routeCoordinates (saveRouteData st) = routeCoordinates st /\
  lastRouteCoordinate (saveRouteData st) = lastRouteCoordinate st /\
  currentPlayerPosition (saveRouteData st) = currentPlayerPosition st.
Proof.
  destruct st as [trace lastc n pos g h path file]. unfold saveRouteData.
  cbn [routeOutputFilePath routeCoordinates].
  destruct path, trace; repeat split; reflexivity.
Qed.

Lemma noAdjacentRepeat_snoc (l : list Coordinate) (x : Coordinate) :
  noAdjacentRepeat l ->
  (forall lastc, lastOf l = Some lastc -> ~ sameSpot lastc x) ->
  noAdjacentRepeat (l ++ [x]).
Proof.
  intros Hl Hx i a b Ha Hb.
  apply nth_error_snoc_inv in Hb as [[Hlt Hb] | [Heq ->]].
  - rewrite nth_error_app1 in Ha by lia. exact (Hl i a b Ha Hb).
  - rewrite nth_error_app1 in Ha by lia. apply Hx. unfold lastOf.
    replace (List.length l - 1)%nat with i by lia. exact Ha.
Qed.

Lemma handlePlayerInfo_invariant (st : Recorder) (geoLocation : option GeoLocation) :
  traceInvariant st -> traceInvariant (handlePlayerInfo st geoLocation).
Proof.
  intros (Hrep & Hlast & Hpos). unfold handlePlayerInfo.
  destruct geoLocation as [[[lon |] [lat |]] |]; try (repeat split; assumption).
  set (coordinate := {| longitude := lon; latitude := lat;
                        height := currentHeight st; gradient := currentGradient st |}).
  destruct (differsFromLast (lastRouteCoordinate st) coordinate) eqn:E.
  - unfold traceInvariant.
    match goal with |- context [saveRouteData ?s] =>
      destruct (saveRouteData_trace s) as (-> & -> & ->) end.
    cbn [routeCoordinates lastRouteCoordinate currentPlayerPosition].
    split; [| split].
    + apply noAdjacentRepeat_snoc; [exact Hrep |].
      intros lastc Hl Hs. rewrite <- Hlast in Hl.
      apply differsFromLast_true in E. destruct E as [E | (l & E & Hn)].
      * congruence.
      * rewrite E in Hl. injection Hl as ->. contradiction.
    + symmetry. apply lastOf_snoc.
    + split; reflexivity.
  - apply differsFromLast_false in E. destruct E as (l & El & Hs).
    unfold traceInvariant.
    cbn [routeCoordinates lastRouteCoordinate currentPlayerPosition].
    split; [exact Hrep | split; [exact Hlast |]].
    rewrite El. destruct Hs as [H1 H2]. split; symmetry; assumption.
Qed.

Lemma handleEvent_invariant (st : Recorder) (e : event) :
  traceInvariant st -> traceInvariant (handleEvent st e).
Proof.
  intros H. destruct e as [geoLocation | [g |] | [h |]]; cbn [handleEvent];
    try exact H.
  - apply handlePlayerInfo_invariant. exact H.
  - destruct (currentPlayerPosition st) eqn:E; [| exact H].
    destruct H as (H1 & H2 & H3). unfold traceInvariant.
    cbn [routeCoordinates lastRouteCoordinate currentPlayerPosition].
    rewrite E in H3. split; [exact H1 | split; [exact H2 | exact H3]].
Qed.

Lemma run_invariant (events : list event) (st : Recorder) :
  traceInvariant st -> traceInvariant (run st events).
Proof.
  revert st. induction events as [| e events IH]; intros st H; [exact H |].
  apply IH. apply handleEvent_invariant. exact H.
Qed.

Lemma startRecorder_invariant (path : option string) :
  traceInvariant (startRecorder path).
Proof.
  unfold traceInvariant, startRecorder. cbn. split; [| split; [reflexivity | exact I]].
  intros i a b Ha. destruct i; discriminate.
Qed.

Lemma backAndForth_trace :
  routeCoordinates (run (startRecorder None) backAndForth)
  = [ mkCoordinate 1 1 None None; mkCoordinate 2 1 None None;
      mkCoordinate 1 1 None None ].
Proof.
  unfold run, backAndForth, startRecorder. cbn [fold_left handleEvent].
  unfold handlePlayerInfo at 3.
  cbn [differsFromLast lastRouteCoordinate currentHeight currentGradient
       routeCoordinates routeCollectionRequestCount routeOutputFilePath
       routeFile app saveRouteData].
  unfold handlePlayerInfo at 2.
  cbn [differsFromLast lastRouteCoordinate currentHeight currentGradient
       routeCoordinates routeCollectionRequestCount routeOutputFilePath
       routeFile app saveRouteData longitude latitude].
  rewrite (js_neq_true 1 2) by lra. cbn [orb].
  cbn [differsFromLast lastRouteCoordinate currentHeight currentGradient
       routeCoordinates routeCollectionRequestCount routeOutputFilePath
       routeFile app saveRouteData longitude latitude].
  unfold handlePlayerInfo.
  cbn [differsFromLast lastRouteCoordinate currentHeight currentGradient
       routeCoordinates routeCollectionRequestCount routeOutputFilePath
       routeFile app saveRouteData longitude latitude].
  rewrite (js_neq_true 2 1) by lra. cbn [orb].
  cbn [differsFromLast lastRouteCoordinate currentHeight currentGradient
       routeCoordinates routeCollectionRequestCount routeOutputFilePath
       routeFile app saveRouteData longitude latitude].
  reflexivity.
Qed.

End Dedup.

Lemma saveRouteData_fields (st : Server.Recorder) :
  Server.currentHeight (Server.saveRouteData st) = Server.currentHeight st /\
  Server.currentGradient (Server.saveRouteData st) = Server.currentGradient st /\
  Server.currentPlayerPosition (Server.saveRouteData st)
  = Server.currentPlayerPosition st /\
  Server.lastRouteCoordinate (Server.saveRouteData st)
  = Server.lastRouteCoordinate st.
Proof.
  destruct st as [trace lastc n pos g h path file]. unfold Server.saveRouteData.
  cbn [Server.routeOutputFilePath Server.routeCoordinates].
  destruct path, trace; repeat split; reflexivity.
Qed.

Lemma sameSpot_plain (a b : Coordinate) :
  sameSpot a b -> height a = height b -> gradient a = gradient b -> a = b.
Proof.
  destruct a, b. unfold sameSpot. cbn. intros [-> ->] -> ->. reflexivity.
Qed.

(** A repeated observation leaves every variable as it was. *)
Lemma duplicate_is_noop (st : Server.Recorder) (lastc : Coordinate) (lon lat : R) :
  positionsOnly st ->
  Server.lastRouteCoordinate st = Some lastc ->
  longitude lastc = lon -> latitude lastc = lat ->
  Server.handlePlayerInfo st (Some (Server.mkGeoLocation (Some lon) (Some lat))) = st.
Proof.
  intros (Hh & Hg & Hpos & Hplain) Hl Hlon Hlat.
  destruct (Hplain lastc Hl) as [Hlh Hlg].
  assert (Hsame : lastc = {| longitude := lon; latitude := lat;
                             height := Server.currentHeight st;
                             gradient := Server.currentGradient st |}).
  { apply sameSpot_plain; cbn; [split; assumption | congruence | congruence]. }
  unfold Server.handlePlayerInfo. rewrite <- Hsame.
  assert (E : Server.differsFromLast (Server.lastRouteCoordinate st) lastc = false).
  { apply differsFromLast_false. exists lastc. repeat split; assumption. }
  rewrite E. clear E Hsame Hplain.
  destruct st as [trace lastRoute n pos g h path file]. cbn in *.
  rewrite Hpos, Hl. reflexivity.
Qed.

Lemma handlePlayerInfo_positionsOnly (st : Server.Recorder)
    (geoLocation : option Server.GeoLocation) :
  positionsOnly st -> positionsOnly (Server.handlePlayerInfo st geoLocation).
Proof.
  intros Hp. pose proof Hp as (Hh & Hg & Hpos & Hplain).
  destruct geoLocation as [[[lon |] [lat |]] |]; try exact Hp.
  unfold Server.handlePlayerInfo.
  set (coordinate := {| longitude := lon; latitude := lat;
                        height := Server.currentHeight st;
                        gradient := Server.currentGradient st |}).
  destruct (Server.differsFromLast (Server.lastRouteCoordinate st) coordinate) eqn:E.
  - unfold positionsOnly.
    match goal with |- context [Server.saveRouteData ?s] =>
      destruct (saveRouteData_fields s) as (-> & -> & -> & ->) end.
    cbn [Server.currentHeight Server.currentGradient Server.currentPlayerPosition
         Server.lastRouteCoordinate].
    repeat split; try assumption.
    + injection H as <-. exact Hh.
    + injection H as <-. exact Hg.
  - apply differsFromLast_false in E. destruct E as (l & El & Hs).
    destruct (Hplain l El) as [Hlh Hlg].
    assert (l = coordinate)
      by (apply sameSpot_plain; [exact Hs | cbn; congruence | cbn; congruence]).
    subst l. unfold positionsOnly.
    cbn [Server.currentHeight Server.currentGradient Server.currentPlayerPosition
         Server.lastRouteCoordinate].
    repeat split; try assumption.
    + symmetry. exact El.
    + apply (Hplain c H).
    + apply (Hplain c H).
Qed.

Lemma observations_positionsOnly (observations : list (option Server.GeoLocation))
    (st : Server.Recorder) :
  positionsOnly st ->
  positionsOnly (fold_left Server.handlePlayerInfo observations st).
Proof.
  revert st. induction observations as [| g rest IH]; intros st H; [exact H |].
  apply IH. apply handlePlayerInfo_positionsOnly. exact H.
Qed.

Lemma startRecorder_positionsOnly (path : option string) :
  positionsOnly (Server.startRecorder path).
Proof.
  unfold positionsOnly, Server.startRecorder. cbn. repeat split; discriminate.
Qed.

(** C4. After any sequence of handled entries the recorded trace has no
    two consecutive entries at the same (latitude, longitude), and
    [lastRouteCoordinate] is its last entry.  A position observation at the
    (latitude, longitude) of the last appended coordinate, compared by
    strict equality, appends nothing, writes no file and leaves every
    variable of the recording as it was ([currentPlayerPosition] is
    assigned the observation, at the spot it already held); an observation
    that differs in latitude or longitude is appended.  When position
    observations are all the recorder is fed, a repeated observation
    changes no variable at all.  A coordinate may recur later in the
    trace. *)
Theorem trace_has_no_immediate_repeat
    (path : option string) (events : list Server.event) (lon lat : R) :
  let st := Server.run (Server.startRecorder path) events in
  let observed :=
    {| longitude := lon; latitude := lat;
       height := Server.currentHeight st; gradient := Server.currentGradient st |} in
  let st' :=
    Server.handlePlayerInfo st (Some (Server.mkGeoLocation (Some lon) (Some lat))) in
  noAdjacentRepeat (Server.routeCoordinates st) /\
  Server.lastRouteCoordinate st = lastOf (Server.routeCoordinates st) /\
  (forall lastc,
      Server.lastRouteCoordinate st = Some lastc -> sameSpot lastc observed ->
      recordingUnchanged st st' /\
      (exists held, Server.currentPlayerPosition st = Some held /\
                    sameSpot held observed) /\
      Server.currentPlayerPosition st' = Some observed) /\
  (Server.lastRouteCoordinate st = None \/
   (exists lastc, Server.lastRouteCoordinate st = Some lastc /\
                  ~ sameSpot lastc observed) ->
   Server.routeCoordinates st' = Server.routeCoordinates st ++ [observed] /\
   Server.lastRouteCoordinate st' = Some observed) /\
  (forall (observations : list (option Server.GeoLocation)) (lastc : Coordinate),
      let fed :=
        fold_left Server.handlePlayerInfo observations (Server.startRecorder path) in
      Server.lastRouteCoordinate fed = Some lastc ->
      longitude lastc = lon -> latitude lastc = lat ->
      Server.handlePlayerInfo fed
        (Some (Server.mkGeoLocation (Some lon) (Some lat))) = fed) /\
  (exists (revisit : list Server.event) (a b : Coordinate),
      Server.routeCoordinates (Server.run (Server.startRecorder None) revisit)
      = [a; b; a]).
Proof.
  intros st observed st'.
  pose proof (run_invariant events (Server.startRecorder path)
                (startRecorder_invariant path)) as (Hrep & Hlast & Hpos).
  fold st in Hrep, Hlast, Hpos.
  split; [exact Hrep | split; [exact Hlast |]]. split; [| split; [| split]].
  - intros lastc Hl Hs.
    assert (E : Server.differsFromLast (Server.lastRouteCoordinate st) observed = false)
      by (apply differsFromLast_false; eauto).
    unfold st', Server.handlePlayerInfo. fold observed. rewrite E.
    split; [repeat split; reflexivity |]. split; [| reflexivity].
    rewrite Hl in Hpos. destruct (Server.currentPlayerPosition st) as [held |];
      [| contradiction].
    exists held. split; [reflexivity |].
    destruct Hpos as [P1 P2], Hs as [S1 S2]. split; congruence.
  - intros Hd.
    assert (E : Server.differsFromLast (Server.lastRouteCoordinate st) observed = true)
      by (apply differsFromLast_true; exact Hd).
    unfold st', Server.handlePlayerInfo. fold observed. rewrite E.
    match goal with |- context [Server.saveRouteData ?s] =>
      destruct (saveRouteData_trace s) as (-> & -> & _) end.
    split; reflexivity.
  - intros observations lastc fed Hl Hlon Hlat.
    apply (duplicate_is_noop fed lastc lon lat); try assumption.
    apply observations_positionsOnly, startRecorder_positionsOnly.
  - exists backAndForth, (mkCoordinate 1 1 None None), (mkCoordinate 2 1 None None).
    exact backAndForth_trace.
Qed.

(** ** The timetable display *)

(** The two servers compute the same display. *)
Lemma displayLoop_same (timetableData : list Stop) (cur : option jsint) :
  forall fuel i,
    RunRoute.displayLoop timetableData cur fuel i
    = Server.displayLoop timetableData cur fuel i.
Proof.
  (* the two loops are the same text *)
  intros fuel i. reflexivity.
Qed.

Lemma getTimetableDisplay_same (timetableData : list Stop) (currentTimeISO : jsval) :
  RunRoute.getTimetableDisplay timetableData currentTimeISO
  = Server.getTimetableDisplay timetableData currentTimeISO.
Proof.
  unfold RunRoute.getTimetableDisplay, Server.getTimetableDisplay, Server.displayBody.
  destruct currentTimeISO as [| | iso]; reflexivity.
Qed.

Lemma sec_lt_notAfter (t : option jsint) (c : Z) :
  notAfter t c -> sec_lt (Some (Int c)) t = false.
Proof.
  unfold notAfter, sec_lt, to_number. destruct t as [[| z] |]; intros H;
    try reflexivity; apply Z.ltb_ge; assumption.
Qed.

Lemma showDeparture_not_noDisplay (stop : Stop) : showDeparture stop <> noDisplay.
Proof. unfold showDeparture, noDisplay. intros H. discriminate. Qed.

Lemma showArrival_not_noDisplay (stop : Stop) : showArrival stop <> noDisplay.
Proof. unfold showArrival, noDisplay. intros H. discriminate. Qed.

Section Timetable.

Variable timetableData : list Stop.
Variable cur : option jsint.

Let size := List.length timetableData.

Lemma item_at (i : nat) (stop : Stop) :
  nth_error timetableData i = Some stop -> item timetableData i = Returns stop.
Proof. intros H. unfold item. rewrite H. reflexivity. Qed.

Lemma item_below (i : nat) :
  (i < size)%nat -> exists stop, nth_error timetableData i = Some stop.
Proof.
  intros H. destruct (nth_error timetableData i) as [stop |] eqn:E; [eauto |].
  apply nth_error_None in E. unfold size in H. lia.
Qed.

(** Every return statement inside the loop yields a display other than the
    all-null one, and the loop reaches one of them. *)
Lemma displayLoop_returns (n : nat) :
  forall fuel i,
    (i + n = size - 1)%nat -> (i < size)%nat -> (n < fuel)%nat ->
    exists d, Server.displayLoop timetableData cur fuel i = Returns (Some d) /\
              d <> noDisplay.
Proof.
  induction n as [| n IH]; intros fuel i Hn Hi Hfuel;
    (destruct fuel as [| fuel]; [lia |]);
    destruct (item_below i Hi) as [stop Hstop];
    cbn [Server.displayLoop]; fold size;
    (replace (i <? size)%nat with true by (symmetry; apply Nat.ltb_lt; assumption));
    rewrite (item_at i stop Hstop); cbn [bind].
  - destruct ((i =? 0)%nat && sec_lt cur (timeToSeconds (departure stop))).
    { eexists. split; [reflexivity | apply showDeparture_not_noDisplay]. }
    replace (Z.of_nat i =? Z.of_nat size - 1)%Z with true
      by (symmetry; apply Z.eqb_eq; lia).
    eexists. split; [reflexivity | apply showArrival_not_noDisplay].
  - destruct ((i =? 0)%nat && sec_lt cur (timeToSeconds (departure stop))).
    { eexists. split; [reflexivity | apply showDeparture_not_noDisplay]. }
    replace (Z.of_nat i =? Z.of_nat size - 1)%Z with false
      by (symmetry; apply Z.eqb_neq; lia).
    destruct (truthy_sec (timeToSeconds (departure stop))
              && sec_lt cur (timeToSeconds (departure stop))).
    { eexists. split; [reflexivity | apply showDeparture_not_noDisplay]. }
    replace (Z.of_nat i <? Z.of_nat size - 1)%Z with true
      by (symmetry; apply Z.ltb_lt; lia).
    destruct (item_below (i + 1) ltac:(lia)) as [nextStop Hnext].
    rewrite (item_at (i + 1) nextStop Hnext); cbn [bind].
    destruct (sec_ge cur (timeToSeconds (departure stop))
              && sec_lt cur (timeToSeconds (arrival nextStop))).
    { eexists. split; [reflexivity | apply showArrival_not_noDisplay]. }
    destruct (sec_ge cur (timeToSeconds (arrival nextStop))
              && (truthy_sec (timeToSeconds (departure nextStop))
                  && sec_lt cur (timeToSeconds (departure nextStop)))).
    { eexists. split; [reflexivity | apply showDeparture_not_noDisplay]. }
    apply IH; lia.
Qed.

End Timetable.

Lemma sorted_app_le (xs ys : list Z) (x y : Z) :
  StronglySorted Z.le (xs ++ ys) -> In x xs -> In y ys -> (x <= y)%Z.
Proof.
  induction xs as [| a xs IH]; intros Hs Hx Hy; [contradiction |].
  cbn [app] in Hs. apply StronglySorted_inv in Hs as [Hs Hall].
  destruct Hx as [-> | Hx].
  - rewrite Forall_forall in Hall. apply Hall. apply in_or_app. right. exact Hy.
  - apply IH; assumption.
Qed.

Lemma notAfter_numeric (t : option jsint) (c bound : Z) :
  (0 <= c)%Z -> (bound <= c)%Z ->
  (forall z, In z (numeric t) -> (z <= bound)%Z) -> notAfter t c.
Proof.
  intros H0 Hb Hz. destruct t as [[| z] |]; cbn [notAfter]; try exact I; try exact H0.
  specialize (Hz z (or_introl eq_refl)). lia.
Qed.

Lemma chronological_passed (timetableData : list Stop) (c d : Z) (i : nat)
    (si : Stop) :
  chronological timetableData -> (0 <= c)%Z ->
  nth_error timetableData i = Some si ->
  timeToSeconds (departure si) = Some (Int d) -> (d <= c)%Z ->
  forall j sj, (j <= i)%nat -> nth_error timetableData j = Some sj ->
               stopPassed c sj.
Proof.
  intros Hchr H0 Hi Hd Hdc j sj Hj Hsj.
  destruct (nth_error_split timetableData i Hi) as (l1 & l2 & Htt & Hlen).
  unfold chronological in Hchr. rewrite Htt, flat_map_app in Hchr.
  cbn [flat_map] in Hchr.
  change (scheduled si)
    with (numeric (timeToSeconds (arrival si))
          ++ numeric (timeToSeconds (departure si))) in Hchr.
  rewrite Hd in Hchr. cbn [numeric] in Hchr.
  assert (Hle : forall z, In z (scheduled sj) -> (z <= d)%Z).
  { intros z Hz. destruct (Nat.eq_dec j i) as [-> | Hne].
    - assert (sj = si) by congruence. subst sj.
      unfold scheduled in Hz. rewrite Hd in Hz. cbn [numeric] in Hz.
      apply in_app_or in Hz as [Hz | [<- | []]]; [| lia].
      rewrite <- app_assoc in Hchr. rewrite app_assoc in Hchr.
      apply (sorted_app_le _ _ z d Hchr).
      + apply in_or_app. right. exact Hz.
      + left. reflexivity.
    - assert (Hin : In sj l1).
      { rewrite Htt in Hsj. rewrite nth_error_app1 in Hsj by lia.
        eapply nth_error_In. exact Hsj. }
      apply (sorted_app_le _ _ z d Hchr).
      + apply in_flat_map. exists sj. split; assumption.
      + apply in_or_app. left. apply in_or_app. right. left. reflexivity. }
  split; apply (notAfter_numeric _ c d H0 Hdc); intros z Hz; apply Hle;
    unfold scheduled; apply in_or_app; [left | right]; exact Hz.
Qed.

Section Passing.

Variable timetableData : list Stop.
Variable c : Z.

Let cur : option jsint := Some (Int c).
Let size := List.length timetableData.

(** An iteration that returns nothing: the times it looks at have passed. *)
Lemma displayLoop_skip (fuel i : nat) (stop nextStop : Stop) :
  nth_error timetableData i = Some stop ->
  nth_error timetableData (i + 1) = Some nextStop ->
  notAfter (timeToSeconds (departure stop)) c ->
  notAfter (timeToSeconds (arrival nextStop)) c ->
  notAfter (timeToSeconds (departure nextStop)) c ->
  Server.displayLoop timetableData cur (S fuel) i
  = Server.displayLoop timetableData cur fuel (i + 1).
Proof.
  intros Hstop Hnext Hdep Harr Hdep'.
  assert (Hlen : (i + 1 < size)%nat)
    by (apply nth_error_Some; rewrite Hnext; discriminate).
  cbn [Server.displayLoop]. fold size.
  replace (i <? size)%nat with true by (symmetry; apply Nat.ltb_lt; lia).
  rewrite (item_at timetableData i stop Hstop); cbn [bind].
  unfold cur. rewrite (sec_lt_notAfter _ c Hdep). rewrite !andb_false_r.
  replace (Z.of_nat i =? Z.of_nat size - 1)%Z with false
    by (symmetry; apply Z.eqb_neq; lia).
  replace (Z.of_nat i <? Z.of_nat size - 1)%Z with true
    by (symmetry; apply Z.ltb_lt; lia).
  rewrite (item_at timetableData (i + 1) nextStop Hnext); cbn [bind].
  rewrite (sec_lt_notAfter _ c Harr), (sec_lt_notAfter _ c Hdep').
  rewrite !andb_false_r. reflexivity.
Qed.

(** The loop runs through the stops whose times have all passed. *)
Lemma displayLoop_skips (n : nat) :
  forall fuel i,
    (forall j sj, (i <= j <= i + n)%nat -> nth_error timetableData j = Some sj ->
                  stopPassed c sj) ->
    (i + n < size)%nat ->
    Server.displayLoop timetableData cur (n + fuel) i
    = Server.displayLoop timetableData cur fuel (i + n).
Proof.
  induction n as [| n IH]; intros fuel i Hpassed Hlen.
  - rewrite Nat.add_0_r. reflexivity.
  - destruct (item_below timetableData i ltac:(fold size; lia)) as [stop Hstop].
    destruct (item_below timetableData (i + 1) ltac:(fold size; lia))
      as [nextStop Hnext].
    cbn [Nat.add].
    rewrite (displayLoop_skip (n + fuel) i stop nextStop Hstop Hnext).
    + rewrite IH.
      * f_equal. lia.
      * intros j sj Hj. apply Hpassed. lia.
      * lia.
    + apply (Hpassed i stop); [lia | exact Hstop].
    + apply (Hpassed (i + 1)%nat nextStop); [lia | exact Hnext].
    + apply (Hpassed (i + 1)%nat nextStop); [lia | exact Hnext].
Qed.

(** Before the departure of the first stop. *)
Lemma displayLoop_before_first (fuel : nat) (first : Stop) (d : Z) :
  nth_error timetableData 0 = Some first ->
  timeToSeconds (departure first) = Some (Int d) -> (c < d)%Z ->
  Server.displayLoop timetableData cur (S fuel) 0
  = Returns (Some (showDeparture first)).
Proof.
  intros Hfirst Hd Hc.
  assert (Hlen : (0 < size)%nat)
    by (apply nth_error_Some; rewrite Hfirst; discriminate).
  cbn [Server.displayLoop]. fold size.
  replace (0 <? size)%nat with true by (symmetry; apply Nat.ltb_lt; lia).
  rewrite (item_at timetableData 0 first Hfirst); cbn [bind].
  rewrite Hd. unfold cur, sec_lt, to_number.
  replace (c <? d)%Z with true by (symmetry; apply Z.ltb_lt; lia).
  reflexivity.
Qed.

(** Between the departure of stop [i] and the arrival at stop [i + 1]. *)
Lemma displayLoop_under_way (fuel i : nat) (stop nextStop : Stop) (d a : Z) :
  nth_error timetableData i = Some stop ->
  nth_error timetableData (i + 1) = Some nextStop ->
  timeToSeconds (departure stop) = Some (Int d) -> (d <= c)%Z ->
  timeToSeconds (arrival nextStop) = Some (Int a) -> (c < a)%Z ->
  Server.displayLoop timetableData cur (S fuel) i
  = Returns (Some (showArrival nextStop)).
Proof.
  intros Hstop Hnext Hd Hdc Ha Hca.
  assert (Hlen : (i + 1 < size)%nat)
    by (apply nth_error_Some; rewrite Hnext; discriminate).
  cbn [Server.displayLoop]. fold size.
  replace (i <? size)%nat with true by (symmetry; apply Nat.ltb_lt; lia).
  rewrite (item_at timetableData i stop Hstop); cbn [bind].
  rewrite Hd. unfold cur, sec_lt, sec_ge, to_number.
  replace (c <? d)%Z with false by (symmetry; apply Z.ltb_ge; lia).
  rewrite !andb_false_r.
  replace (Z.of_nat i =? Z.of_nat size - 1)%Z with false
    by (symmetry; apply Z.eqb_neq; lia).
  replace (Z.of_nat i <? Z.of_nat size - 1)%Z with true
    by (symmetry; apply Z.ltb_lt; lia).
  rewrite (item_at timetableData (i + 1) nextStop Hnext); cbn [bind].
  rewrite Ha.
  replace (d <=? c)%Z with true by (symmetry; apply Z.leb_le; lia).
  replace (c <? a)%Z with true by (symmetry; apply Z.ltb_lt; lia).
  reflexivity.
Qed.

(** At the last stop, once its departure time (if any) has passed. *)
Lemma displayLoop_at_last (fuel i : nat) (stop : Stop) :
  nth_error timetableData i = Some stop -> (i + 1 = size)%nat ->
  notAfter (timeToSeconds (departure stop)) c ->
  Server.displayLoop timetableData cur (S fuel) i
  = Returns (Some (showArrival stop)).
Proof.
  intros Hstop Hlast Hdep.
  cbn [Server.displayLoop]. fold size.
  replace (i <? size)%nat with true by (symmetry; apply Nat.ltb_lt; lia).
  rewrite (item_at timetableData i stop Hstop); cbn [bind].
  unfold cur. rewrite (sec_lt_notAfter _ c Hdep). rewrite andb_false_r.
  replace (Z.of_nat i =? Z.of_nat size - 1)%Z with true
    by (symmetry; apply Z.eqb_eq; lia).
  reflexivity.
Qed.

End Passing.

Lemma timePart_nonempty (iso part : string) :
  timePart iso = Returns part -> truthy_val (JString iso) = true.
Proof.
  destruct iso as [| ch rest]; [discriminate | reflexivity].
Qed.

(** With a non-empty timetable and a time of day that can be cut out of the
    time stamp, the display is what the loop returns. *)
Lemma getTimetableDisplay_loop (timetableData : list Stop) (iso part : string) :
  timetableData <> [] -> timePart iso = Returns part ->
  Server.getTimetableDisplay timetableData (JString iso)
  = match Server.displayLoop timetableData (timeToSeconds (JString part))
                             (List.length timetableData) 0 with
    | Returns (Some display) => display
    | _ => noDisplay
    end.
Proof.
  intros Hne Hpart. unfold Server.getTimetableDisplay, Server.displayBody.
  rewrite (timePart_nonempty iso part Hpart), Hpart.
  destruct timetableData as [| s rest]; [contradiction |]. cbn [List.length Nat.eqb orb negb bind].
  destruct (Server.displayLoop (s :: rest) (timeToSeconds (JString part))
              (S (List.length rest)) 0) as [[d |] | | |]; reflexivity.
Qed.

(** C8. Before the departure of the first stop the display is that
    departure time under the label DEPARTURE, without target and distance.
    In a timetable ordered in time, from the departure of stop [i] until
    the arrival at stop [i + 1] the display is the arrival time, the
    destination and the apiName of stop [i + 1], with the distance shown.
    In particular, with departure 08:00:00 and arrival 09:00:00, the
    display at 07:30:00 is (08:00:00, DEPARTURE, no target) and at 08:30:00
    it is (09:00:00, destination of the second stop, its apiName, distance
    shown). *)
Theorem timetable_display_before_and_between
    (timetableData : list Stop) (iso part : string) (c : Z) :
  timePart iso = Returns part ->
  timeToSeconds (JString part) = Some (Int c) ->
  (0 <= c)%Z ->
  (forall first d,
      nth_error timetableData 0 = Some first ->
      timeToSeconds (departure first) = Some (Int d) -> (c < d)%Z ->
      Server.getTimetableDisplay timetableData (JString iso)
      = {| time := departure first; label := JString "DEPARTURE";
           targetApiName := JNull; showDistance := false |}) /\
  (chronological timetableData ->
   forall i stop nextStop d a,
      nth_error timetableData i = Some stop ->
      nth_error timetableData (i + 1) = Some nextStop ->
      timeToSeconds (departure stop) = Some (Int d) -> (d <= c)%Z ->
      timeToSeconds (arrival nextStop) = Some (Int a) -> (c < a)%Z ->
      Server.getTimetableDisplay timetableData (JString iso)
      = {| time := arrival nextStop; label := destination nextStop;
           targetApiName := apiName nextStop; showDistance := true |}) /\
  (forall s1 s2,
      departure s1 = JString "08:00:00" -> arrival s2 = JString "09:00:00" ->
      Server.getTimetableDisplay [s1; s2] (JString "2026-01-03T07:30:00.000Z")
      = {| time := JString "08:00:00"; label := JString "DEPARTURE";
           targetApiName := JNull; showDistance := false |} /\
      Server.getTimetableDisplay [s1; s2] (JString "2026-01-03T08:30:00.000Z")
      = {| time := JString "09:00:00"; label := destination s2;
           targetApiName := apiName s2; showDistance := true |}).
Proof.
  intros Hpart Hcur H0. split; [| split].
  - intros first d Hfirst Hd Hc.
    assert (Hne : timetableData <> []) by (intros ->; discriminate).
    rewrite (getTimetableDisplay_loop timetableData iso part Hne Hpart), Hcur.
    destruct timetableData as [| s rest]; [contradiction |]. cbn [List.length].
    rewrite (displayLoop_before_first (s :: rest) c (List.length rest) first d
               Hfirst Hd Hc).
    reflexivity.
  - intros Hchr i stop nextStop d a Hstop Hnext Hd Hdc Ha Hca.
    assert (Hne : timetableData <> []) by (intros ->; destruct i; discriminate).
    assert (Hlen : (i + 1 < List.length timetableData)%nat)
      by (apply nth_error_Some; rewrite Hnext; discriminate).
    rewrite (getTimetableDisplay_loop timetableData iso part Hne Hpart), Hcur.
    replace (List.length timetableData)
      with (i + (List.length timetableData - i))%nat by lia.
    destruct i as [| i'].
    + cbn [Nat.add].
      replace (List.length timetableData - 0)%nat
        with (S (List.length timetableData - 1)) by lia.
      rewrite (displayLoop_under_way timetableData c _ 0 stop nextStop d a
                 Hstop Hnext Hd Hdc Ha Hca).
      reflexivity.
    + pose proof (chronological_passed timetableData c d (S i') stop
                    Hchr H0 Hstop Hd Hdc) as Hpassed.
      replace (S i' + (List.length timetableData - S i'))%nat
        with (i' + S (List.length timetableData - S i'))%nat by lia.
      rewrite (displayLoop_skips timetableData c i'
                 (S (List.length timetableData - S i')) 0).
      * cbn [Nat.add].
        destruct (item_below timetableData i' ltac:(lia)) as [prev Hprev].
        rewrite (displayLoop_skip timetableData c _ i' prev stop Hprev).
        -- replace (List.length timetableData - S i')%nat
             with (S (List.length timetableData - S i' - 1)) by lia.
           replace (S i' + 1)%nat with (S (i' + 1) )%nat in Hnext by lia.
           replace (i' + 1)%nat with (S i') by lia.
           replace (S (S i')) with (S i' + 1)%nat in Hnext by lia.
           rewrite (displayLoop_under_way timetableData c _ (S i') stop nextStop d a
                      Hstop Hnext Hd Hdc Ha Hca).
           reflexivity.
        -- replace (i' + 1)%nat with (S i') by lia. exact Hstop.
        -- apply (Hpassed i' prev); [lia | exact Hprev].
        -- apply (Hpassed (S i') stop); [lia | exact Hstop].
        -- apply (Hpassed (S i') stop); [lia | exact Hstop].
      * intros j sj Hj Hsj. apply (Hpassed j sj); [lia | exact Hsj].
      * lia.
  - intros s1 s2 Hd Ha. split.
    + rewrite (getTimetableDisplay_loop [s1; s2] "2026-01-03T07:30:00.000Z"
                 "07:30:00" ltac:(discriminate) eq_refl).
      cbn [List.length].
      change (timeToSeconds (JString "07:30:00")) with (Some (Int 27000)).
      rewrite (displayLoop_before_first [s1; s2] 27000 1 s1 28800 eq_refl);
        [| rewrite Hd; reflexivity | lia].
      unfold showDeparture. rewrite Hd. reflexivity.
    + rewrite (getTimetableDisplay_loop [s1; s2] "2026-01-03T08:30:00.000Z"
                 "08:30:00" ltac:(discriminate) eq_refl).
      cbn [List.length].
      change (timeToSeconds (JString "08:30:00")) with (Some (Int 30600)).
      rewrite (displayLoop_under_way [s1; s2] 30600 1 0 s1 s2 28800 32400
                 eq_refl eq_refl); [| rewrite Hd; reflexivity | lia
                                    | rewrite Ha; reflexivity | lia].
      unfold showArrival. rewrite Ha. reflexivity.
Qed.

Lemma twoStops_chronological : chronological twoStops.
Proof.
  unfold chronological.
  change (flat_map scheduled twoStops) with [28500; 28800; 32400]%Z.
  repeat first [ apply SSorted_nil | apply SSorted_cons
               | apply Forall_nil | apply Forall_cons | lia ].
Defined.

Lemma timetable_display_before_and_between_witness :
  timePart "2026-01-03T08:30:00.000Z" = Returns "08:30:00"%string /\
  timeToSeconds (JString "08:30:00") = Some (Int 30600) /\
  chronological twoStops /\
  Server.getTimetableDisplay twoStops (JString "2026-01-03T08:30:00.000Z")
  = {| time := JString "09:00:00"; label := JString "London Euston";
       targetApiName := JString "London Euston 5"; showDistance := true |}.
Proof.
  split; [reflexivity |]. split; [reflexivity |].
  split; [exact twoStops_chronological |].
  refine (proj1 (proj2 (timetable_display_before_and_between twoStops
                          "2026-01-03T08:30:00.000Z" "08:30:00" 30600
                          eq_refl eq_refl _))
                twoStops_chronological 0%nat _ _ 28800%Z 32400%Z
                eq_refl eq_refl eq_refl _ eq_refl _); lia.
Defined.

(** C10 as stated fails in its last part: at 09:02:00, after the arrival
    time 09:00:00 of the last stop and before that stop's own departure
    time 09:05:00, the display is the departure of the last stop, without
    target and without distance. *)
Lemma last_stop_departure_is_displayed :
  timePart "2026-01-03T09:02:00.000Z" = Returns "09:02:00"%string /\
  timeToSeconds (JString "09:02:00") = Some (Int 32520) /\
  map (fun s => timeToSeconds (arrival s)) callingOn
  = [Some (Int 28500); Some (Int 32400)] /\
  Server.getTimetableDisplay callingOn (JString "2026-01-03T09:02:00.000Z")
  = {| time := JString "09:05:00"; label := JString "DEPARTURE";
       targetApiName := JNull; showDistance := false |} /\
  RunRoute.getTimetableDisplay callingOn (JString "2026-01-03T09:02:00.000Z")
  = {| time := JString "09:05:00"; label := JString "DEPARTURE";
       targetApiName := JNull; showDistance := false |} /\
  Server.getTimetableDisplay callingOn (JString "2026-01-03T09:02:00.000Z")
  <> {| time := JString "09:00:00"; label := JString "Milton Keynes Central";
        targetApiName := JString "Milton Keynes Central 3";
        showDistance := true |}.
Proof.
  repeat (split; [vm_compute; reflexivity |]).
  vm_compute. discriminate.
Qed.

(** C10, amended.  With a non-empty timetable and a time stamp from which
    the time of day can be cut out, [getTimetableDisplay] (both copies)
    returns from inside its loop, so the return after the loop is not
    reached, and the display differs from the all-null one.  Once every
    arrival and departure time of the timetable has passed, the last
    stop's own departure time included, the display is the arrival time,
    destination and apiName of the last stop with the distance shown. *)
Theorem timetable_display_never_exhausted
    (timetableData : list Stop) (iso part : string) :
  timetableData <> [] ->
  timePart iso = Returns part ->
  (exists display,
      Server.displayBody timetableData iso = Returns (Some display) /\
      display <> noDisplay /\
      Server.getTimetableDisplay timetableData (JString iso) = display /\
      RunRoute.getTimetableDisplay timetableData (JString iso) = display) /\
  (forall c lastStop,
      timeToSeconds (JString part) = Some (Int c) ->
      nth_error timetableData (List.length timetableData - 1) = Some lastStop ->
      (forall stop, In stop timetableData -> stopPassed c stop) ->
      Server.getTimetableDisplay timetableData (JString iso)
      = {| time := arrival lastStop; label := destination lastStop;
           targetApiName := apiName lastStop; showDistance := true |} /\
      RunRoute.getTimetableDisplay timetableData (JString iso)
      = {| time := arrival lastStop; label := destination lastStop;
           targetApiName := apiName lastStop; showDistance := true |}).
Proof.
  intros Hne Hpart.
  assert (Hsize : (0 < List.length timetableData)%nat)
    by (destruct timetableData; [contradiction | cbn; lia]).
  split.
  - destruct (displayLoop_returns timetableData (timeToSeconds (JString part))
                (List.length timetableData - 1) (List.length timetableData) 0)
      as (d & Hd & Hnot); try lia.
    exists d. change (RunRoute.getTimetableDisplay timetableData (JString iso))
      with (Server.getTimetableDisplay timetableData (JString iso)).
    rewrite (getTimetableDisplay_loop timetableData iso part Hne Hpart).
    unfold Server.displayBody. rewrite Hpart. cbn [bind]. rewrite Hd.
    repeat split; try reflexivity. exact Hnot.
  - intros c lastStop Hcur Hlast Hpassed.
    change (RunRoute.getTimetableDisplay timetableData (JString iso))
      with (Server.getTimetableDisplay timetableData (JString iso)).
    rewrite (getTimetableDisplay_loop timetableData iso part Hne Hpart), Hcur.
    assert (Hskip := displayLoop_skips timetableData c
                       (List.length timetableData - 1) 1 0).
    replace (List.length timetableData - 1 + 1)%nat
      with (List.length timetableData) in Hskip by lia.
    rewrite Hskip.
    + cbn [Nat.add].
      rewrite (displayLoop_at_last timetableData c 0 _ lastStop Hlast).
      * split; reflexivity.
      * lia.
      * apply Hpassed. eapply nth_error_In. exact Hlast.
    + intros j sj _ Hsj. apply Hpassed. eapply nth_error_In. exact Hsj.
    + lia.
Qed.

Lemma timetable_display_never_exhausted_witness :
  twoStops <> [] /\
  timePart "2026-01-03T09:30:00.000Z" = Returns "09:30:00"%string /\
  Server.getTimetableDisplay twoStops (JString "2026-01-03T09:30:00.000Z")
  = {| time := JString "09:00:00"; label := JString "London Euston";
       targetApiName := JString "London Euston 5"; showDistance := true |}.
Proof.
  assert (Hne : twoStops <> []) by discriminate.
  split; [exact Hne |]. split; [reflexivity |].
  refine (proj1 (proj2 (timetable_display_never_exhausted twoStops
                          "2026-01-03T09:30:00.000Z" "09:30:00" Hne eq_refl)
                       34200%Z _ eq_refl eq_refl _)).
  intros stop [<- | [<- | []]]; split; vm_compute; discriminate.
Defined.

(** ** The cached distance and a change of target *)

Lemma jsval_eqb_eq (a b : jsval) : jsval_eqb a b = true <-> a = b.
Proof.
  destruct a as [| | s], b as [| | t]; cbn; split; intros H;
    try reflexivity; try discriminate.
  - apply String.eqb_eq in H. congruence.
  - injection H as ->. apply String.eqb_refl.
Qed.

Lemma tick_with_time (timetableData : list Stop) (st : Server.Tracker)
    (localTime : jsval) (entries : option (list Server.Entry)) :
  truthy_val localTime = true ->
  let display := Server.getTimetableDisplay timetableData localTime in
  Server.timetableTick timetableData st localTime entries
  = (Server.recordDistance entries display (Server.invalidate display st),
     {| Server.timetableTime := time display;
        Server.timetableLabel := label display;
        Server.distanceToStation :=
          Server.emitted display
            (Server.recordDistance entries display (Server.invalidate display st)) |}).
Proof. intros H display. unfold Server.timetableTick. rewrite H. reflexivity. Qed.

Lemma recordDistance_target (entries : option (list Server.Entry))
    (display : Display) (st : Server.Tracker) :
  Server.lastTargetApiName (Server.recordDistance entries display st)
  = Server.lastTargetApiName st.
Proof.
  unfold Server.recordDistance. destruct entries as [es |]; [| reflexivity].
  destruct (truthy_val (targetApiName display)); [| reflexivity].
  destruct (Server.scanEntries es (targetApiName display)); reflexivity.
Qed.

Lemma invalidate_target (display : Display) (st : Server.Tracker) :
  Server.lastTargetApiName (Server.invalidate display st) = targetApiName display.
Proof.
  unfold Server.invalidate.
  destruct (jsval_eqb (targetApiName display) (Server.lastTargetApiName st)) eqn:E;
    [| reflexivity].
  apply jsval_eqb_eq in E. cbn [negb]. symmetry. exact E.
Qed.

Lemma recordDistance_after_reset (entries : option (list Server.Entry))
    (display : Display) (target : jsval) :
  Server.lastDistanceToStation
    (Server.recordDistance entries display
       {| Server.lastDistanceToStation := None;
          Server.lastTargetApiName := target |})
  = freshDistance entries (targetApiName display).
Proof.
  unfold Server.recordDistance, freshDistance. destruct entries as [es |];
    [| reflexivity].
  destruct (truthy_val (targetApiName display)); [| reflexivity].
  destruct (Server.scanEntries es (targetApiName display)); reflexivity.
Qed.

(** C9. Take two consecutive ticks that carry a local time and whose
    computed targets differ.  The first leaves its target in
    [lastTargetApiName]; on the second the cached distance is reset to
    [null] before the entries are looked at, so the distance kept after
    that tick and the distance emitted by it are the distance found for the
    new target in the entries of that very tick, or [null]: they do not
    depend on the distance cached for the old target. *)
Theorem target_change_resets_distance
    (timetableData : list Stop) (st0 : Server.Tracker)
    (time1 time2 : jsval) (entries1 entries2 : option (list Server.Entry)) :
  truthy_val time1 = true ->
  truthy_val time2 = true ->
  let display1 := Server.getTimetableDisplay timetableData time1 in
  let display2 := Server.getTimetableDisplay timetableData time2 in
  targetApiName display2 <> targetApiName display1 ->
  let st1 := fst (Server.timetableTick timetableData st0 time1 entries1) in
  let tick2 := Server.timetableTick timetableData st1 time2 entries2 in
  Server.lastTargetApiName st1 = targetApiName display1 /\
  Server.invalidate display2 st1
  = {| Server.lastDistanceToStation := None;
       Server.lastTargetApiName := targetApiName display2 |} /\
  fst tick2
  = Server.recordDistance entries2 display2 (Server.invalidate display2 st1) /\
  Server.lastDistanceToStation (fst tick2)
  = freshDistance entries2 (targetApiName display2) /\
  Server.distanceToStation (snd tick2)
  = (if showDistance display2
     then freshDistance entries2 (targetApiName display2) else None).
Proof.
  intros H1 H2 display1 display2 Hchange st1 tick2.
  assert (Ht1 : Server.lastTargetApiName st1 = targetApiName display1).
  { unfold st1. rewrite (tick_with_time timetableData st0 time1 entries1 H1).
    cbn [fst]. rewrite recordDistance_target. apply invalidate_target. }
  assert (Hinv : Server.invalidate display2 st1
                 = {| Server.lastDistanceToStation := None;
                      Server.lastTargetApiName := targetApiName display2 |}).
  { unfold Server.invalidate. rewrite Ht1.
    destruct (jsval_eqb (targetApiName display2) (targetApiName display1)) eqn:E.
    - apply jsval_eqb_eq in E. contradiction.
    - reflexivity. }
  split; [exact Ht1 | split; [exact Hinv |]].
  unfold tick2. rewrite (tick_with_time timetableData st1 time2 entries2 H2).
  cbn [fst snd Server.distanceToStation]. fold display2.
  split; [reflexivity |]. rewrite Hinv. unfold Server.emitted.
  rewrite recordDistance_after_reset. split; reflexivity.
Qed.

Lemma target_change_resets_distance_witness :
  (targetApiName (Server.getTimetableDisplay twoStops halfPastEight)
   <> targetApiName (Server.getTimetableDisplay twoStops halfPastSeven)) /\
  (Server.distanceToStation
     (snd (Server.timetableTick twoStops
             (fst (Server.timetableTick twoStops
                     {| Server.lastDistanceToStation := Some 1200%Z;
                        Server.lastTargetApiName := JString "Northampton 1" |}
                     halfPastSeven None))
             halfPastEight None))
   = None).
Proof.
  assert (Hchange :
    targetApiName (Server.getTimetableDisplay twoStops halfPastEight)
    <> targetApiName (Server.getTimetableDisplay twoStops halfPastSeven))
    by (vm_compute; discriminate).
  split; [exact Hchange |].
  exact (proj2 (proj2 (proj2 (proj2
           (target_change_resets_distance twoStops
              {| Server.lastDistanceToStation := Some 1200%Z;
                 Server.lastTargetApiName := JString "Northampton 1" |}
              halfPastSeven halfPastEight None None
              eq_refl eq_refl Hchange))))).
Defined.

(** ** When the projector has nothing to show *)

Lemma Math_round_0 : Math_round 0 = 0%Z.
Proof.
  unfold Math_round. symmetry. apply Int_part_spec. simpl. lra.
Qed.

(** C5 as stated fails: the target marker has no resolved position, yet
    the projector falls back on its detection position and the tick
    carries a number (0 here) as distance to the station. *)
Lemma unresolved_marker_is_projected :
  Marker.latitude unresolvedMarker = None /\
  Marker.longitude unresolvedMarker = None /\
  RunRoute.timetableTick unprocessedRoute twoStops (Some (position 1 1))
                         halfPastEight
  = Returns (Some 0%Z) /\
  RunRoute.timetableTick unprocessedRoute twoStops (Some (position 1 1))
                         halfPastEight
  <> Returns None.
Proof.
  split; [reflexivity |]. split; [reflexivity |].
  assert (Htick : RunRoute.timetableTick unprocessedRoute twoStops
                    (Some (position 1 1)) halfPastEight = Returns (Some 0%Z));
    [| split; [exact Htick | rewrite Htick; discriminate]].
  unfold RunRoute.timetableTick, halfPastEight. cbn [truthy_val String.eqb negb].
  change (RunRoute.getTimetableDisplay twoStops (JString "2026-01-03T08:30:00.000Z"))
    with (showArrival (mkStop (JString "London Euston") (JString "09:00:00")
                              (JString "") (JString "5")
                              (JString "London Euston 5"))).
  unfold RunRoute.distanceField, showArrival. cbn [targetApiName apiName].
  change (truthy_val (JString "London Euston 5")) with true. cbv iota.
  change (RunRoute.getNextTimetableMarker unprocessedRoute (JString "London Euston 5"))
    with (Some {| RunRoute.NextMarker.name := Some "London Euston 5"%string;
                  RunRoute.NextMarker.latitude := or_num None (Some 1);
                  RunRoute.NextMarker.longitude := or_num None (Some 1);
                  RunRoute.NextMarker.type := Some "Station"%string |}).
  cbn [RunRoute.NextMarker.latitude RunRoute.NextMarker.longitude or_num truthy_num].
  rewrite (js_neq_true 1 0) by lra. cbn [andb].
  unfold unprocessedRoute. rewrite calculateDistanceAlongRoute_sum.
  cbn [bind]. unfold findNearestCoordinateIndex. cbn [nearestLoop Nat.leb].
  rewrite Math_round_0. reflexivity.
Qed.

Lemma truthy_num_falsy (v : option R) : falsy v -> truthy_num v = false.
Proof.
  intros [-> | ->]; [reflexivity |]. cbn. apply js_neq_false. reflexivity.
Qed.

Lemma or_num_falsy (a b : option R) : falsy a -> falsy b -> falsy (or_num a b).
Proof.
  intros Ha Hb. unfold or_num. rewrite (truthy_num_falsy a Ha). exact Hb.
Qed.

Lemma named_inv (target : jsval) (m : Marker.t) :
  truthy_val target = true -> RunRoute.named target m = true ->
  exists t, target = JString t /\ Marker.stationName m = Some t.
Proof.
  unfold RunRoute.named. destruct target as [| | t]; try discriminate.
  intros _. destruct (Marker.stationName m) as [s |]; [| discriminate].
  intros H. apply String.eqb_eq in H. subst s. eauto.
Qed.

Lemma calculateDistanceAlongRoute_null (route : option RouteData)
    (playerLat playerLon markerLat markerLon : R) :
  route = None \/ (exists data, route = Some data /\ coordinates data = None) ->
  RunRoute.calculateDistanceAlongRoute route playerLat playerLon markerLat markerLon
  = Returns None.
Proof.
  intros [-> | (data & -> & H)]; unfold RunRoute.calculateDistanceAlongRoute;
    [reflexivity |]. rewrite H. reflexivity.
Qed.

Lemma distanceField_unavailable (route : option RouteData)
    (player : option Coordinate) (display : Display) :
  unavailable route (targetApiName display) ->
  RunRoute.distanceField route player display = Returns None.
Proof.
  intros Hun. unfold RunRoute.distanceField.
  destruct player as [player |]; [| reflexivity].
  destruct (truthy_val (targetApiName display)) eqn:Ht; [| reflexivity].
  unfold RunRoute.getNextTimetableMarker. rewrite Ht. cbn [negb].
  destruct route as [data |]; [| reflexivity].
  cbn [unavailable] in Hun.
  destruct (markers data) as [ms |] eqn:Hms; [| reflexivity].
  destruct (find (RunRoute.named (targetApiName display)) ms) as [m |] eqn:Hfind;
    [| reflexivity].
  cbn [RunRoute.NextMarker.latitude RunRoute.NextMarker.longitude].
  destruct Hun as [Hco | Hno].
  - destruct (or_num (Marker.latitude m) _) as [markerLat |]; [| reflexivity].
    destruct (or_num (Marker.longitude m) _) as [markerLon |]; [| reflexivity].
    destruct (js_neq markerLat 0 && js_neq markerLon 0); [| reflexivity].
    rewrite calculateDistanceAlongRoute_null by (right; eauto). reflexivity.
  - apply find_some in Hfind as [Hin Hnamed].
    destruct (named_inv _ m Ht Hnamed) as (t & Htarget & Hname).
    specialize (Hno m t Hin Htarget Hname).
    destruct Hno as [[H1 H2] | [H1 H2]].
    + pose proof (or_num_falsy _ _ H1 H2) as [-> | ->]; [reflexivity |].
      destruct (or_num (Marker.longitude m) _); [| reflexivity].
      rewrite (js_neq_false 0 0) by reflexivity. reflexivity.
    + pose proof (or_num_falsy _ _ H1 H2) as [-> | ->].
      * destruct (or_num (Marker.latitude m) _); reflexivity.
      * destruct (or_num (Marker.latitude m) _); [| reflexivity].
        rewrite (js_neq_false 0 0) by reflexivity. rewrite andb_false_r.
        reflexivity.
Qed.

(** C5, amended.  When no route is loaded or the route has no
    [coordinates], [calculateDistanceAlongRoute] returns [null].  When no
    route is loaded, or it has no [coordinates] or no [markers], or no
    marker named after the target has a usable position (a non-zero
    resolved latitude and longitude, or failing that the non-zero detection
    position), the tick neither throws nor sets a number: its
    distance-to-station field stays [null]. *)
Theorem projector_unavailable_is_null
    (route : option RouteData) (timetableData : list Stop)
    (player : option Coordinate) (localTime : jsval) :
  unavailable route
    (targetApiName (RunRoute.getTimetableDisplay timetableData localTime)) ->
  RunRoute.timetableTick route timetableData player localTime = Returns None /\
  (route = None \/ (exists data, route = Some data /\ coordinates data = None) ->
   forall playerLat playerLon markerLat markerLon,
     RunRoute.calculateDistanceAlongRoute route playerLat playerLon
                                          markerLat markerLon
     = Returns None).
Proof.
  intros Hun. split.
  - unfold RunRoute.timetableTick. destruct (truthy_val localTime); [| reflexivity].
    apply distanceField_unavailable. exact Hun.
  - intros H playerLat playerLon markerLat markerLon.
    apply calculateDistanceAlongRoute_null. exact H.
Qed.

Lemma projector_unavailable_is_null_witness :
  RunRoute.timetableTick
    (Some {| coordinates := Some scenarioRoute;
             markers := Some [unplacedMarker];
             timetable := Some twoStops |})
    twoStops (Some (position 0 0)) halfPastEight
  = Returns None.
Proof.
  refine (proj1 (projector_unavailable_is_null
                   (Some {| coordinates := Some scenarioRoute;
                            markers := Some [unplacedMarker];
                            timetable := Some twoStops |})
                   twoStops (Some (position 0 0)) halfPastEight _)).
  cbn [unavailable coordinates markers]. right.
  intros m t [<- | []] _ _. left. split; left; reflexivity.
Defined.

(* ================================================================== *)
(** * Further properties of the sources *)
(* ================================================================== *)

(** ** The Haversine distance *)

Lemma calculateDistance_haversineA (lat1 lon1 lat2 lon2 : R) :
  calculateDistance lat1 lon1 lat2 lon2
  = 6371000 * (2 * Math_atan2 (sqrt (haversineA lat1 lon1 lat2 lon2))
                              (sqrt (1 - haversineA lat1 lon1 lat2 lon2))).
Proof. reflexivity. Qed.

Lemma haversineA_sym (lat1 lon1 lat2 lon2 : R) :
  haversineA lat1 lon1 lat2 lon2 = haversineA lat2 lon2 lat1 lon1.
Proof.
  unfold haversineA.
  replace ((lat1 - lat2) * PI / 180 / 2) with (- ((lat2 - lat1) * PI / 180 / 2)) by lra.
  replace ((lon1 - lon2) * PI / 180 / 2) with (- ((lon2 - lon1) * PI / 180 / 2)) by lra.
  rewrite !sin_neg. ring.
Qed.

Lemma atan2_quadrant (y x : R) : 0 <= y -> 0 <= x -> 0 <= Math_atan2 y x <= PI / 2.
Proof.
  intros Hy Hx. pose proof PI_RGT_0 as Hpi. unfold Math_atan2.
  destruct (Rlt_le_dec 0 x) as [Hpos | Hle].
  - rewrite js_lt_true by assumption.
    pose proof (atan_bound (y / x)) as [_ Hup].
    assert (H0 : 0 <= y / x)
      by (apply Rmult_le_pos; [assumption | left; apply Rinv_0_lt_compat; assumption]).
    destruct H0 as [H0 | <-].
    + pose proof (atan_increasing 0 (y / x) H0) as Hinc. rewrite atan_0 in Hinc. lra.
    + rewrite atan_0. lra.
  - rewrite (js_lt_false 0 x) by assumption. rewrite (js_lt_false x 0) by assumption.
    destruct (Rlt_le_dec 0 y) as [Hypos | Hyle].
    + rewrite js_lt_true by assumption. lra.
    + rewrite (js_lt_false 0 y) by assumption. rewrite (js_lt_false y 0) by assumption.
      lra.
Qed.

Lemma calculateDistance_bounds (lat1 lon1 lat2 lon2 : R) :
  validLatitude lat1 -> validLatitude lat2 ->
  0 <= calculateDistance lat1 lon1 lat2 lon2 <= 6371000 * PI.
Proof.
  intros H1 H2. rewrite calculateDistance_haversineA.
  pose proof (atan2_quadrant (sqrt (haversineA lat1 lon1 lat2 lon2))
                (sqrt (1 - haversineA lat1 lon1 lat2 lon2))
                (sqrt_pos _) (sqrt_pos _)) as [Hlo Hhi].
  split; [apply Rmult_le_pos; lra |].
  apply Rmult_le_compat_l; lra.
Qed.

Lemma calculateDistance_self (lat lon : R) :
  calculateDistance lat lon lat lon = 0.
Proof.
  rewrite calculateDistance_haversineA.
  assert (Ha : haversineA lat lon lat lon = 0).
  { unfold haversineA.
    replace ((lat - lat) * PI / 180 / 2) with 0 by lra.
    replace ((lon - lon) * PI / 180 / 2) with 0 by lra.
    rewrite sin_0. ring. }
  rewrite Ha, sqrt_0, Rminus_0_r, sqrt_1.
  unfold Math_atan2. rewrite js_lt_true by lra.
  replace (0 / 1) with 0 by lra. rewrite atan_0. ring.
Qed.

(** X1. The distance is symmetric and vanishes on the spot.
    [calculateDistance] gives the same distance whichever of the two points
    comes first, and the distance from a point to itself is 0. *)
Theorem calculateDistance_symmetric (lat1 lon1 lat2 lon2 : R) :
  calculateDistance lat1 lon1 lat2 lon2 = calculateDistance lat2 lon2 lat1 lon1 /\
  calculateDistance lat1 lon1 lat1 lon1 = 0.
Proof.
  split; [| apply calculateDistance_self].
  rewrite !calculateDistance_haversineA, (haversineA_sym lat1 lon1 lat2 lon2).
  reflexivity.
Qed.

(** ** The walk stays on the route *)

Lemma followLoop_onRoute (coords : list Coordinate) (fuel : nat) :
  forall (i : nat) (remaining : R) (p : Coordinate),
    followLoop coords fuel i remaining = Returns p -> onRoute coords i p.
Proof.
  induction fuel as [| fuel IH]; intros i remaining p H.
  - cbn [followLoop] in H.
    destruct ((Z.of_nat i <? Z.of_nat (List.length coords) - 1)%Z
              && js_gt remaining 0); [discriminate | left; exact H].
  - cbn [followLoop] in H.
    destruct ((Z.of_nat i <? Z.of_nat (List.length coords) - 1)%Z
              && js_gt remaining 0) eqn:G; [| left; exact H].
    apply andb_prop in G as [_ Gpos]. unfold js_gt in Gpos.
    apply js_lt_iff in Gpos.
    unfold item in H.
    destruct (nth_error coords i) as [c1 |] eqn:E1; [| discriminate].
    replace (i + 1)%nat with (S i) in H by lia.
    destruct (nth_error coords (S i)) as [c2 |] eqn:E2; [| discriminate].
    cbn [bind] in H.
    destruct (js_ge (segment c1 c2) remaining) eqn:Gseg.
    + injection H as <-. right.
      exists i, c1, c2, (remaining / segment c1 c2).
      assert (Hseg : remaining <= segment c1 c2).
      { unfold js_ge in Gseg.
        destruct (Rle_dec remaining (segment c1 c2)); [assumption | discriminate]. }
      repeat split; try assumption; try lia.
      * apply Rdiv_lt_0_compat; lra.
      * apply Rmult_le_reg_r with (segment c1 c2); [lra |].
        unfold Rdiv. rewrite Rmult_assoc, Rinv_l by lra. lra.
    + destruct (IH (S i) _ p H) as [Hl | (k & a & b & r & Hk & Ha & Hb & Hr & Hp)].
      * left. exact Hl.
      * right. exists k, a, b, r. repeat split; try assumption; try lia; apply Hr.
Qed.

(** X3. The walk never leaves the route.  On a non-empty route
    [followRoutePath] returns a position for every start index and every
    distance, and that position is the last coordinate or a point of a
    segment at or after the start index, between the two ends of the
    segment: it is never extrapolated beyond a recorded coordinate. *)
Theorem followRoutePath_stays_on_route (coords : list Coordinate)
    (startIndex : nat) (distanceMeters : R) :
  coords <> [] ->
  exists p, followRoutePath coords startIndex distanceMeters = Returns p /\
            onRoute coords startIndex p.
Proof.
  intros Hne.
  destruct (followRoutePath_returns coords startIndex distanceMeters Hne) as [p Hp].
  exists p. split; [exact Hp |].
  unfold followRoutePath in Hp.
  destruct (Z.of_nat startIndex >=? Z.of_nat (List.length coords) - 1)%Z.
  - left. exact Hp.
  - eapply followLoop_onRoute. exact Hp.
Qed.

Lemma followRoutePath_stays_on_route_witness :
  scenarioRoute <> [] /\
  exists p, followRoutePath scenarioRoute 0 150 = Returns p /\
            onRoute scenarioRoute 0 p.
Proof.
  assert (Hne : scenarioRoute <> []) by discriminate.
  split; [exact Hne |].
  exact (followRoutePath_stays_on_route scenarioRoute 0 150 Hne).
Defined.

(** ** Distances along the route *)








(** ** The nearest vertex of a recorded position *)

(** X6. Looking up a recorded coordinate.  On a route whose latitudes are
    in degrees, the search for the nearest vertex to the position of the
    vertex at index [i] returns an index at or before [i] whose vertex is
    at distance 0 from the query. *)
Theorem nearest_of_recorded_vertex (coords : list Coordinate) (i : nat)
    (c : Coordinate) :
  Forall (fun v => validLatitude (latitude v)) coords ->
  nth_error coords i = Some c ->
  let k := findNearestCoordinateIndex coords (latitude c) (longitude c) in
  (k <= i)%nat /\
  exists ck, nth_error coords k = Some ck /\
             calculateDistance (latitude c) (longitude c)
                               (latitude ck) (longitude ck) = 0.
Proof.
  intros Hv Hc k.
  assert (Hne : coords <> []) by (intros ->; destruct i; discriminate).
  destruct (nearestLoop_lowest (latitude c) (longitude c) coords Hne)
    as (ck & Hck & Hmin & Hlow).
  fold (findNearestCoordinateIndex coords (latitude c) (longitude c)) in Hck, Hlow.
  fold k in Hck, Hlow.
  rewrite Forall_forall in Hv.
  assert (Hzero : distanceTo (latitude c) (longitude c) c = 0)
    by apply calculateDistance_self.
  assert (Hpos : 0 <= distanceTo (latitude c) (longitude c) ck).
  { apply calculateDistance_bounds; apply Hv; eapply nth_error_In; eassumption. }
  pose proof (Hmin i c Hc) as Hle.
  assert (Heq : distanceTo (latitude c) (longitude c) ck = 0) by lra.
  split.
  - apply (Hlow i c Hc). lra.
  - exists ck. split; [exact Hck | exact Heq].
Qed.

Lemma nearest_of_recorded_vertex_witness :
  (findNearestCoordinateIndex scenarioRoute 0 (1 / 1000) <= 1)%nat.
Proof.
  refine (proj1 (nearest_of_recorded_vertex scenarioRoute 1
                   (position 0 (1 / 1000)) _ eq_refl)).
  unfold scenarioRoute, validLatitude, position.
  repeat (apply Forall_cons; [cbn; lra |]). apply Forall_nil.
Defined.

(** ** Time strings *)

Lemma split_without_separator (sep : ascii) (s : string) :
  contains sep s = false -> split sep s = [s].
Proof.
  induction s as [| c rest IH]; intros H; [reflexivity |].
  cbn [contains] in H. apply orb_false_iff in H as [Hc Hrest].
  cbn [split]. rewrite Hc, (IH Hrest). reflexivity.
Qed.

Lemma split_at_separator (sep : ascii) (a b : string) :
  contains sep a = false ->
  split sep (a ++ String sep b) = a :: split sep b.
Proof.
  induction a as [| c rest IH]; intros H.
  - cbn [append split]. rewrite Ascii.eqb_refl. reflexivity.
  - cbn [contains] in H. apply orb_false_iff in H as [Hc Hrest].
    cbn [append split]. rewrite Hc, (IH Hrest). reflexivity.
Qed.

Lemma twoDigits_parse (n : nat) :
  (n < 100)%nat -> parseInt (Some (twoDigits n)) = Int (Z.of_nat n).
Proof.
  intros H.
  assert (Hall : forallb (fun k => match parseInt (Some (twoDigits k)) with
                                   | Int z => (z =? Z.of_nat k)%Z
                                   | NaN => false
                                   end) (seq 0 100) = true)
    by (vm_compute; reflexivity).
  rewrite forallb_forall in Hall.
  specialize (Hall n ltac:(apply in_seq; lia)).
  destruct (parseInt (Some (twoDigits n))) as [| z]; [discriminate |].
  apply Z.eqb_eq in Hall. congruence.
Qed.

Lemma twoDigits_no_colon (n : nat) :
  (n < 100)%nat -> contains ":" (twoDigits n) = false.
Proof.
  intros H.
  assert (Hall : forallb (fun k => negb (contains ":" (twoDigits k))) (seq 0 100) = true)
    by (vm_compute; reflexivity).
  rewrite forallb_forall in Hall.
  specialize (Hall n ltac:(apply in_seq; lia)).
  apply negb_true_iff in Hall. exact Hall.
Qed.

(** X7. Reading a time of day.  For a time written HH:MM:SS with two
    digits each, [timeToSeconds] is the number of seconds since midnight,
    3600 HH + 60 MM + SS. *)
Theorem timeToSeconds_clock (h m sec : nat) :
  (h < 100)%nat -> (m < 100)%nat -> (sec < 100)%nat ->
  timeToSeconds (JString (clockString h m sec))
  = Some (Int (3600 * Z.of_nat h + 60 * Z.of_nat m + Z.of_nat sec)).
Proof.
  intros Hh Hm Hs. unfold timeToSeconds, clockString.
  assert (Htruthy : truthy_val (JString (twoDigits h ++ ":" ++ twoDigits m
                                         ++ ":" ++ twoDigits sec)) = true)
    by reflexivity.
  rewrite Htruthy. cbn [negb].
  change (twoDigits h ++ ":" ++ twoDigits m ++ ":" ++ twoDigits sec)%string
    with (twoDigits h ++ String ":" (twoDigits m ++ String ":" (twoDigits sec)))%string.
  rewrite (split_at_separator ":" (twoDigits h)) by (apply twoDigits_no_colon; exact Hh).
  rewrite (split_at_separator ":" (twoDigits m)) by (apply twoDigits_no_colon; exact Hm).
  rewrite (split_without_separator ":" (twoDigits sec))
    by (apply twoDigits_no_colon; exact Hs).
  cbn [nth_error].
  rewrite (twoDigits_parse h Hh), (twoDigits_parse m Hm), (twoDigits_parse sec Hs).
  cbn [int_mul int_add]. do 2 f_equal. lia.
Qed.

Lemma timeToSeconds_clock_witness :
  timeToSeconds (JString (clockString 8 30 0)) = Some (Int 30600).
Proof.
  exact (timeToSeconds_clock 8 30 0 ltac:(lia) ltac:(lia) ltac:(lia)).
Defined.

(** ** What the timetable display can be *)

Lemma timePart_needs_T (iso : string) :
  contains "T" iso = false -> timePart iso = TypeError.
Proof.
  intros H. unfold timePart. rewrite (split_without_separator "T" iso H).
  reflexivity.
Qed.

(** X8. The display needs a timetable and a time stamp.  With an empty
    timetable, with a time that is null, undefined or the empty string, or
    with a time stamp without the letter T (whose second half is then
    undefined, and the exception is caught), both servers return the
    all-null display. *)
Theorem timetable_display_unavailable
    (timetableData : list Stop) (currentTimeISO : jsval) :
  timetableData = [] \/ truthy_val currentTimeISO = false \/
  (exists iso, currentTimeISO = JString iso /\ contains "T" iso = false) ->
  Server.getTimetableDisplay timetableData currentTimeISO = noDisplay /\
  RunRoute.getTimetableDisplay timetableData currentTimeISO = noDisplay.
Proof.
  intros H.
  change (RunRoute.getTimetableDisplay timetableData currentTimeISO)
    with (Server.getTimetableDisplay timetableData currentTimeISO).
  assert (Hs : Server.getTimetableDisplay timetableData currentTimeISO = noDisplay);
    [| split; exact Hs].
  unfold Server.getTimetableDisplay, Server.displayBody.
  destruct currentTimeISO as [| | iso]; try reflexivity.
  destruct H as [-> | [Hfalsy | (iso' & Heq & HnoT)]].
  - reflexivity.
  - rewrite Hfalsy. cbn [negb]. rewrite orb_true_r. reflexivity.
  - injection Heq as <-. rewrite (timePart_needs_T iso HnoT). cbn [bind].
    destruct ((List.length timetableData =? 0)%nat || negb (truthy_val (JString iso)));
      reflexivity.
Qed.

Lemma timetable_display_unavailable_witness :
  Server.getTimetableDisplay twoStops (JString "08:30:00") = noDisplay.
Proof.
  refine (proj1 (timetable_display_unavailable twoStops (JString "08:30:00") _)).
  right. right. exists "08:30:00"%string. split; reflexivity.
Defined.

Lemma displayLoop_displayOf (timetableData : list Stop) (cur : option jsint) :
  forall fuel i display,
    Server.displayLoop timetableData cur fuel i = Returns (Some display) ->
    displayOf timetableData display.
Proof.
  induction fuel as [| fuel IH]; intros i display H; cbn [Server.displayLoop] in H.
  - destruct (i <? List.length timetableData)%nat; discriminate.
  - destruct (i <? List.length timetableData)%nat; [| discriminate].
    unfold item in H.
    destruct (nth_error timetableData i) as [stop |] eqn:Hstop; [| discriminate].
    cbn [bind] in H. apply nth_error_In in Hstop.
    destruct ((i =? 0)%nat && sec_lt cur (timeToSeconds (departure stop))).
    { injection H as <-. exists stop. auto. }
    destruct (Z.of_nat i =? Z.of_nat (List.length timetableData) - 1)%Z.
    { injection H as <-. exists stop. auto. }
    destruct (truthy_sec (timeToSeconds (departure stop))
              && sec_lt cur (timeToSeconds (departure stop))).
    { injection H as <-. exists stop. auto. }
    destruct (Z.of_nat i <? Z.of_nat (List.length timetableData) - 1)%Z;
      [| exact (IH _ _ H)].
    destruct (nth_error timetableData (i + 1)) as [nextStop |] eqn:Hnext;
      [| discriminate].
    cbn [bind] in H. apply nth_error_In in Hnext.
    destruct (sec_ge cur (timeToSeconds (departure stop))
              && sec_lt cur (timeToSeconds (arrival nextStop))).
    { injection H as <-. exists nextStop. auto. }
    destruct (sec_ge cur (timeToSeconds (arrival nextStop))
              && (truthy_sec (timeToSeconds (departure nextStop))
                  && sec_lt cur (timeToSeconds (departure nextStop)))).
    { injection H as <-. exists nextStop. auto. }
    exact (IH _ _ H).
Qed.

Lemma getTimetableDisplay_shape
    (timetableData : list Stop) (currentTimeISO : jsval) :
  let display := Server.getTimetableDisplay timetableData currentTimeISO in
  display = noDisplay \/ displayOf timetableData display.
Proof.
  intros display.
  unfold display, Server.getTimetableDisplay, Server.displayBody.
  destruct currentTimeISO as [| | iso]; auto.
  destruct ((List.length timetableData =? 0)%nat || negb (truthy_val (JString iso)));
    auto.
  destruct (timePart iso) as [part | | |]; cbn [bind]; auto.
  destruct (Server.displayLoop timetableData (timeToSeconds (JString part))
              (List.length timetableData) 0) as [[d |] | | |] eqn:Hloop; auto.
  right. eapply displayLoop_displayOf. exact Hloop.
Qed.

Lemma timetable_display_shape_arrival
    (timetableData : list Stop) (currentTimeISO : jsval) :
  showDistance (Server.getTimetableDisplay timetableData currentTimeISO) = true ->
  exists stop, In stop timetableData /\
               Server.getTimetableDisplay timetableData currentTimeISO
               = showArrival stop.
Proof.
  intros Hshow.
  destruct (getTimetableDisplay_shape timetableData currentTimeISO)
    as [Hnone | (stop & Hin & [Hdep | Harr])].
  - rewrite Hnone in Hshow. discriminate.
  - rewrite Hdep in Hshow. discriminate.
  - exists stop. auto.
Qed.

(** X9. The shape of the display.  Whatever the timetable and the time
    stamp, the display of either server is the all-null one, or the
    departure time of a stop of the timetable under the label DEPARTURE
    with neither target nor distance, or the arrival time, destination and
    apiName of a stop of the timetable.  So a display that asks for the
    distance always names a stop of the timetable by its arrival. *)
Theorem timetable_display_shape
    (timetableData : list Stop) (currentTimeISO : jsval) :
  let display := Server.getTimetableDisplay timetableData currentTimeISO in
  RunRoute.getTimetableDisplay timetableData currentTimeISO = display /\
  (display = noDisplay \/ displayOf timetableData display) /\
  (showDistance display = true ->
   exists stop, In stop timetableData /\ display = showArrival stop).
Proof.
  intros display. split; [reflexivity |]. split.
  - apply getTimetableDisplay_shape.
  - apply timetable_display_shape_arrival.
Qed.

(** ** Waiting at an intermediate stop *)

Lemma chronological_arrived (timetableData : list Stop) (c a : Z) (i : nat)
    (nextStop : Stop) :
  chronological timetableData -> (0 <= c)%Z ->
  nth_error timetableData (i + 1) = Some nextStop ->
  timeToSeconds (arrival nextStop) = Some (Int a) -> (a <= c)%Z ->
  forall j sj, (j <= i)%nat -> nth_error timetableData j = Some sj ->
               stopPassed c sj.
Proof.
  intros Hchr H0 Hi Ha Hac j sj Hj Hsj.
  destruct (nth_error_split timetableData (i + 1) Hi) as (l1 & l2 & Htt & Hlen).
  unfold chronological in Hchr. rewrite Htt, flat_map_app in Hchr.
  cbn [flat_map] in Hchr.
  change (scheduled nextStop)
    with (numeric (timeToSeconds (arrival nextStop))
          ++ numeric (timeToSeconds (departure nextStop))) in Hchr.
  rewrite Ha in Hchr. cbn [numeric app] in Hchr.
  assert (Hin : In sj l1).
  { rewrite Htt in Hsj. rewrite nth_error_app1 in Hsj by lia.
    eapply nth_error_In. exact Hsj. }
  assert (Hle : forall z, In z (scheduled sj) -> (z <= a)%Z).
  { intros z Hz. apply (sorted_app_le _ _ z a Hchr).
    - apply in_flat_map. exists sj. split; assumption.
    - left. reflexivity. }
  split; apply (notAfter_numeric _ c a H0 Hac); intros z Hz; apply Hle;
    unfold scheduled; apply in_or_app; [left | right]; exact Hz.
Qed.

Lemma displayLoop_dwell (timetableData : list Stop) (c : Z) (fuel i : nat)
    (stop nextStop : Stop) (a d : Z) :
  nth_error timetableData i = Some stop ->
  nth_error timetableData (i + 1) = Some nextStop ->
  notAfter (timeToSeconds (departure stop)) c ->
  timeToSeconds (arrival nextStop) = Some (Int a) -> (a <= c)%Z ->
  timeToSeconds (departure nextStop) = Some (Int d) -> (c < d)%Z ->
  (0 <= c)%Z ->
  Server.displayLoop timetableData (Some (Int c)) (S fuel) i
  = Returns (Some (showDeparture nextStop)).
Proof.
  intros Hstop Hnext Hdep Ha Hac Hd Hcd H0.
  assert (Hlen : (i + 1 < List.length timetableData)%nat)
    by (apply nth_error_Some; rewrite Hnext; discriminate).
  cbn [Server.displayLoop].
  replace (i <? List.length timetableData)%nat with true
    by (symmetry; apply Nat.ltb_lt; lia).
  rewrite (item_at timetableData i stop Hstop); cbn [bind].
  rewrite (sec_lt_notAfter _ c Hdep). rewrite !andb_false_r.
  replace (Z.of_nat i =? Z.of_nat (List.length timetableData) - 1)%Z with false
    by (symmetry; apply Z.eqb_neq; lia).
  replace (Z.of_nat i <? Z.of_nat (List.length timetableData) - 1)%Z with true
    by (symmetry; apply Z.ltb_lt; lia).
  rewrite (item_at timetableData (i + 1) nextStop Hnext); cbn [bind].
  rewrite Ha, Hd. unfold sec_lt, sec_ge, truthy_sec, to_number.
  replace (c <? a)%Z with false by (symmetry; apply Z.ltb_ge; lia).
  rewrite andb_false_r.
  replace (a <=? c)%Z with true by (symmetry; apply Z.leb_le; lia).
  replace (d =? 0)%Z with false by (symmetry; apply Z.eqb_neq; lia).
  replace (c <? d)%Z with true by (symmetry; apply Z.ltb_lt; lia).
  reflexivity.
Qed.

(** X10. Waiting at an intermediate stop.  In a timetable ordered in time,
    from the arrival time of a stop that is not the first until its own
    departure time, both servers display that departure time under the
    label DEPARTURE, with neither target nor distance. *)
Theorem timetable_display_while_stopped
    (timetableData : list Stop) (iso part : string) (c a d : Z) (i : nat)
    (nextStop : Stop) :
  timePart iso = Returns part ->
  timeToSeconds (JString part) = Some (Int c) ->
  chronological timetableData ->
  nth_error timetableData (i + 1) = Some nextStop ->
  timeToSeconds (arrival nextStop) = Some (Int a) -> (0 <= a <= c)%Z ->
  timeToSeconds (departure nextStop) = Some (Int d) -> (c < d)%Z ->
  Server.getTimetableDisplay timetableData (JString iso)
  = {| time := departure nextStop; label := JString "DEPARTURE";
       targetApiName := JNull; showDistance := false |} /\
  RunRoute.getTimetableDisplay timetableData (JString iso)
  = {| time := departure nextStop; label := JString "DEPARTURE";
       targetApiName := JNull; showDistance := false |}.
Proof.
  intros Hpart Hcur Hchr Hnext Ha Hac Hd Hcd.
  change (RunRoute.getTimetableDisplay timetableData (JString iso))
    with (Server.getTimetableDisplay timetableData (JString iso)).
  assert (Hne : timetableData <> []) by (intros ->; destruct i; discriminate).
  assert (Hlen : (i + 1 < List.length timetableData)%nat)
    by (apply nth_error_Some; rewrite Hnext; discriminate).
  destruct (item_below timetableData i ltac:(lia)) as [stop Hstop].
  match goal with |- ?P /\ ?P => assert (Hs : P); [| split; exact Hs] end.
  assert (Hpassed := chronological_arrived timetableData c a i nextStop Hchr
                       ltac:(lia) Hnext Ha ltac:(lia)).
  rewrite (getTimetableDisplay_loop timetableData iso part Hne Hpart), Hcur.
  replace (List.length timetableData)
    with (i + S (List.length timetableData - i - 1))%nat at 1 by lia.
  rewrite (displayLoop_skips timetableData c i).
  - cbn [Nat.add].
    rewrite (displayLoop_dwell timetableData c _ i stop nextStop a d Hstop Hnext);
      try assumption; try lia.
    + reflexivity.
    + apply (Hpassed i stop); [lia | exact Hstop].
  - intros j sj Hj. apply Hpassed. lia.
  - lia.
Qed.

Lemma timetable_display_while_stopped_witness :
  Server.getTimetableDisplay callingOn (JString "2026-01-03T09:02:00.000Z")
  = {| time := JString "09:05:00"; label := JString "DEPARTURE";
       targetApiName := JNull; showDistance := false |}.
Proof.
  refine (proj1 (timetable_display_while_stopped callingOn
                   "2026-01-03T09:02:00.000Z" "09:02:00" 32520 32400 32700 0 _
                   eq_refl eq_refl _ eq_refl eq_refl _ eq_refl _)).
  - unfold chronological.
    change (flat_map scheduled callingOn) with [28500; 28800; 32400; 32700]%Z.
    repeat first [ apply SSorted_nil | apply SSorted_cons
                 | apply Forall_nil | apply Forall_cons | lia ].
  - lia.
  - lia.
Defined.

(** ** The distance shown by the recording server *)

Lemma tick_tracker (timetableData : list Stop) (st : Server.Tracker)
    (localTime : jsval) (entries : option (list Server.Entry)) :
  truthy_val localTime = true ->
  let display := Server.getTimetableDisplay timetableData localTime in
  jsval_eqb (targetApiName display) (Server.lastTargetApiName st) = true ->
  Server.lastDistanceToStation
    (fst (Server.timetableTick timetableData st localTime entries))
  = match freshDistance entries (targetApiName display) with
    | Some d => Some d
    | None => Server.lastDistanceToStation st
    end.
Proof.
  intros Htime display Hsame.
  rewrite (tick_with_time timetableData st localTime entries Htime).
  cbn [fst]. fold display. unfold Server.invalidate. rewrite Hsame. cbn [negb].
  unfold Server.recordDistance, freshDistance.
  destruct entries as [es |]; [| reflexivity].
  destruct (truthy_val (targetApiName display)); [| reflexivity].
  destruct (Server.scanEntries es (targetApiName display)); reflexivity.
Qed.

(** X11. The last known distance.  On a tick whose target is the one of the
    tick before, the cached distance is replaced by the distance read from
    this tick's telemetry when there is one and kept otherwise, and that is
    the distance the tick emits when the display asks for a distance; so a
    tick without telemetry for the station repeats the last known
    distance. *)
Theorem cached_distance_is_last_known
    (timetableData : list Stop) (st : Server.Tracker)
    (localTime : jsval) (entries : option (list Server.Entry)) :
  truthy_val localTime = true ->
  let display := Server.getTimetableDisplay timetableData localTime in
  targetApiName display = Server.lastTargetApiName st ->
  let tick := Server.timetableTick timetableData st localTime entries in
  let known := match freshDistance entries (targetApiName display) with
               | Some d => Some d
               | None => Server.lastDistanceToStation st
               end in
  Server.lastTargetApiName (fst tick) = Server.lastTargetApiName st /\
  Server.lastDistanceToStation (fst tick) = known /\
  Server.distanceToStation (snd tick)
  = (if showDistance display then known else None).
Proof.
  intros Htime display Hsame tick known.
  assert (Heqb : jsval_eqb (targetApiName display) (Server.lastTargetApiName st) = true)
    by (apply jsval_eqb_eq; exact Hsame).
  pose proof (tick_tracker timetableData st localTime entries Htime Heqb) as Hknown.
  pose proof (tick_with_time timetableData st localTime entries Htime) as Htick.
  cbv zeta in Htick. unfold tick, known, display in *. clear tick known display.
  rewrite Htick in Hknown |- *.
  cbn [fst snd Server.distanceToStation] in *.
  split; [| split; [exact Hknown |]].
  - rewrite recordDistance_target, invalidate_target. exact Hsame.
  - unfold Server.emitted. rewrite Hknown. reflexivity.
Qed.

Lemma cached_distance_is_last_known_witness :
  Server.distanceToStation
    (snd (Server.timetableTick twoStops
            {| Server.lastDistanceToStation := Some 1200%Z;
               Server.lastTargetApiName := JString "London Euston 5" |}
            halfPastEight None))
  = Some 1200%Z.
Proof.
  exact (proj2 (proj2
           (cached_distance_is_last_known twoStops
              {| Server.lastDistanceToStation := Some 1200%Z;
                 Server.lastTargetApiName := JString "London Euston 5" |}
              halfPastEight None eq_refl eq_refl))).
Defined.

Lemma distanceWasRead_more (seen more : list (jsval * option (list Server.Entry)))
    (st : Server.Tracker) :
  distanceWasRead seen st -> distanceWasRead (seen ++ more) st.
Proof.
  intros H d Hd. destruct (H d Hd) as (Ht & localTime & es & Hin & Hscan).
  split; [exact Ht |]. exists localTime, es. split; [| exact Hscan].
  apply in_or_app. left. exact Hin.
Qed.

Lemma tick_distanceWasRead (timetableData : list Stop)
    (seen : list (jsval * option (list Server.Entry))) (st : Server.Tracker)
    (localTime : jsval) (entries : option (list Server.Entry)) :
  distanceWasRead seen st ->
  distanceWasRead (seen ++ [(localTime, entries)])
    (fst (Server.timetableTick timetableData st localTime entries)).
Proof.
  intros H. destruct (truthy_val localTime) eqn:Htime.
  2:{ unfold Server.timetableTick. rewrite Htime. cbn [fst].
      apply distanceWasRead_more. exact H. }
  rewrite (tick_with_time timetableData st localTime entries Htime). cbn [fst].
  set (display := Server.getTimetableDisplay timetableData localTime).
  assert (Htarget := invalidate_target display st).
  assert (Hinv : distanceWasRead (seen ++ [(localTime, entries)])
                                 (Server.invalidate display st)).
  { unfold Server.invalidate.
    destruct (negb (jsval_eqb (targetApiName display) (Server.lastTargetApiName st))).
    - intros d Hd. discriminate.
    - apply distanceWasRead_more. exact H. }
  revert Htarget Hinv. generalize (Server.invalidate display st). intros st1 Htarget Hinv.
  unfold Server.recordDistance. destruct entries as [es |]; [| exact Hinv].
  destruct (truthy_val (targetApiName display)) eqn:Htruthy; [| exact Hinv].
  destruct (Server.scanEntries es (targetApiName display)) as [d |] eqn:Hscan;
    [| exact Hinv].
  intros d' Hd'. cbn [Server.lastDistanceToStation Server.lastTargetApiName] in *.
  injection Hd' as <-. rewrite Htarget. split; [exact Htruthy |].
  exists localTime, es. split; [| exact Hscan].
  apply in_or_app. right. left. reflexivity.
Qed.

Lemma ticks_distanceWasRead (timetableData : list Stop)
    (inputs seen : list (jsval * option (list Server.Entry))) (st : Server.Tracker) :
  distanceWasRead seen st ->
  distanceWasRead (seen ++ inputs)
    (fold_left (fun st input =>
                  fst (Server.timetableTick timetableData st (fst input) (snd input)))
               inputs st).
Proof.
  revert seen st. induction inputs as [| [localTime entries] inputs IH];
    intros seen st H.
  - rewrite app_nil_r. exact H.
  - cbn [fold_left fst snd].
    change (seen ++ (localTime, entries) :: inputs)
      with (seen ++ [(localTime, entries)] ++ inputs).
    rewrite app_assoc. apply IH. apply tick_distanceWasRead. exact H.
Qed.

(** X12. A distance is only shown for a station of the timetable, and it is
    one the telemetry gave for that station.  Whenever a tick of the
    recording server, after any series of ticks since the start, emits a
    distance, the display of that tick is the arrival at a stop of the
    timetable with a non-empty apiName, and the distance was read for that
    apiName from the telemetry of this tick or of an earlier one. *)
Theorem emitted_distance_is_for_target
    (timetableData : list Stop)
    (inputs : list (jsval * option (list Server.Entry)))
    (localTime : jsval) (entries : option (list Server.Entry)) (d : Z) :
  let tick :=
    Server.timetableTick timetableData (ticks timetableData inputs) localTime entries in
  Server.distanceToStation (snd tick) = Some d ->
  exists stop,
    In stop timetableData /\ truthy_val (apiName stop) = true /\
    Server.timetableTime (snd tick) = arrival stop /\
    Server.timetableLabel (snd tick) = destination stop /\
    exists localTime' es,
      In (localTime', Some es) (inputs ++ [(localTime, entries)]) /\
      Server.scanEntries es (apiName stop) = Some d.
Proof.
  intros tick Hd.
  assert (Hread : distanceWasRead (inputs ++ [(localTime, entries)]) (fst tick)).
  { unfold tick. apply tick_distanceWasRead.
    apply (ticks_distanceWasRead timetableData inputs [] initialTracker).
    intros d' Hd'. discriminate. }
  unfold tick in *. clear tick.
  destruct (truthy_val localTime) eqn:Htime.
  2:{ unfold Server.timetableTick in Hd. rewrite Htime in Hd. discriminate. }
  rewrite (tick_with_time timetableData _ localTime entries Htime) in *.
  cbn [fst snd Server.distanceToStation Server.timetableTime Server.timetableLabel] in *.
  set (display := Server.getTimetableDisplay timetableData localTime) in *.
  unfold Server.emitted in Hd.
  destruct (showDistance display) eqn:Hshow; [| discriminate].
  destruct (timetable_display_shape_arrival timetableData localTime Hshow)
    as (stop & Hin & Hdisplay).
  fold display in Hdisplay.
  destruct (Hread d Hd) as (Htruthy & localTime' & es & Hseen & Hscan).
  rewrite recordDistance_target, invalidate_target in Htruthy, Hscan.
  rewrite Hdisplay in Htruthy, Hscan |- *. cbn [targetApiName time label showArrival] in *.
  exists stop. repeat split; try assumption. exists localTime', es. auto.
Qed.

Lemma emitted_distance_is_for_target_witness :
  exists stop,
    In stop twoStops /\ truthy_val (apiName stop) = true /\
    Server.timetableTime
      (snd (Server.timetableTick twoStops (ticks twoStops []) halfPastEight atEuston))
    = arrival stop /\
    Server.timetableLabel
      (snd (Server.timetableTick twoStops (ticks twoStops []) halfPastEight atEuston))
    = destination stop /\
    exists localTime' es,
      In (localTime', Some es) ([] ++ [(halfPastEight, atEuston)]) /\
      Server.scanEntries es (apiName stop) = Some (Math_round (0 / 100)).
Proof.
  exact (emitted_distance_is_for_target twoStops [] halfPastEight atEuston
           (Math_round (0 / 100)) eq_refl).
Defined.

(** ** The recording session *)

Lemma saveRouteData_recording (st : Server.Recorder) :
  Server.routeCoordinates (Server.saveRouteData st) = Server.routeCoordinates st /\
  Server.routeCollectionRequestCount (Server.saveRouteData st)
  = Server.routeCollectionRequestCount st /\
  Server.routeOutputFilePath (Server.saveRouteData st)
  = Server.routeOutputFilePath st.
Proof.
  destruct st as [trace lastc n pos g h path file]. unfold Server.saveRouteData.
  cbn [Server.routeOutputFilePath Server.routeCoordinates].
  destruct path, trace; repeat split; reflexivity.
Qed.

Lemma handleEvent_appends (st : Server.Recorder) (e : Server.event) :
  exists added,
    Server.routeCoordinates (Server.handleEvent st e)
    = Server.routeCoordinates st ++ added /\
    Server.routeCollectionRequestCount (Server.handleEvent st e)
    = (Server.routeCollectionRequestCount st + List.length added)%nat /\
    Server.routeOutputFilePath (Server.handleEvent st e)
    = Server.routeOutputFilePath st.
Proof.
  assert (Hsame : forall st', Server.routeCoordinates st' = Server.routeCoordinates st ->
                    Server.routeCollectionRequestCount st'
                    = Server.routeCollectionRequestCount st ->
                    Server.routeOutputFilePath st' = Server.routeOutputFilePath st ->
                    exists added,
                      Server.routeCoordinates st' = Server.routeCoordinates st ++ added /\
                      Server.routeCollectionRequestCount st'
                      = (Server.routeCollectionRequestCount st + List.length added)%nat /\
                      Server.routeOutputFilePath st' = Server.routeOutputFilePath st).
  { intros st' H1 H2 H3. exists []. rewrite app_nil_r. cbn [List.length].
    rewrite Nat.add_0_r. auto. }
  destruct e as [[[[lon |] [lat |]] |] | [g |] | [h |]]; cbn [Server.handleEvent];
    try (apply Hsame; reflexivity).
  - unfold Server.handlePlayerInfo.
    destruct (Server.differsFromLast (Server.lastRouteCoordinate st) _);
      [| apply Hsame; reflexivity].
    match goal with |- context [Server.saveRouteData ?s] =>
      destruct (saveRouteData_recording s) as (Hc & Hn & Hp) end.
    eexists. rewrite Hc, Hn, Hp.
    cbn [Server.routeCoordinates Server.routeCollectionRequestCount
         Server.routeOutputFilePath].
    split; [reflexivity |]. split; [cbn [List.length]; lia | reflexivity].
  - destruct (Server.currentPlayerPosition st); apply Hsame; reflexivity.
Qed.

(** X13. The trace only grows.  Whatever the state of the recorder and
    whatever entries it handles next, the recorded trace afterwards is the
    trace before followed by the coordinates added, the request count has
    grown by their number, and the output path is the same: no handler
    removes, reorders or rewrites a recorded coordinate. *)
Theorem recorded_trace_only_grows (st : Server.Recorder) (events : list Server.event) :
  exists added,
    Server.routeCoordinates (Server.run st events)
    = Server.routeCoordinates st ++ added /\
    Server.routeCollectionRequestCount (Server.run st events)
    = (Server.routeCollectionRequestCount st + List.length added)%nat /\
    Server.routeOutputFilePath (Server.run st events)
    = Server.routeOutputFilePath st.
Proof.
  revert st. induction events as [| e events IH]; intros st.
  - exists []. cbn. rewrite app_nil_r, Nat.add_0_r. auto.
  - cbn [Server.run fold_left].
    destruct (handleEvent_appends st e) as (a1 & Hc1 & Hn1 & Hp1).
    destruct (IH (Server.handleEvent st e)) as (a2 & Hc2 & Hn2 & Hp2).
    unfold Server.run in Hc2, Hn2, Hp2.
    exists (a1 ++ a2). rewrite Hc2, Hn2, Hp2, Hc1, Hn1, Hp1, length_app, app_assoc.
    split; [reflexivity |]. split; [lia | reflexivity].
Qed.

Lemma saveRouteData_mirrors (st : Server.Recorder) :
  Server.routeCollectionRequestCount st = List.length (Server.routeCoordinates st) ->
  (Server.routeOutputFilePath st = None -> Server.routeFile st = None) ->
  Server.routeCoordinates st <> [] ->
  fileMirrorsTrace (Server.saveRouteData st).
Proof.
  destruct st as [trace lastc n pos g h path file].
  cbn [Server.routeCollectionRequestCount Server.routeCoordinates
       Server.routeOutputFilePath Server.routeFile].
  intros -> Hfile Hne. unfold fileMirrorsTrace, Server.saveRouteData.
  cbn [Server.routeOutputFilePath Server.routeCoordinates].
  destruct path as [p |], trace as [| c trace]; try contradiction.
  - cbn [Server.routeCollectionRequestCount Server.routeCoordinates
         Server.routeOutputFilePath Server.routeFile].
    split; reflexivity.
  - cbn [Server.routeCollectionRequestCount Server.routeCoordinates
         Server.routeOutputFilePath Server.routeFile].
    split; [reflexivity | apply Hfile; reflexivity].
Qed.

Lemma handleEvent_fileMirrorsTrace (st : Server.Recorder) (e : Server.event) :
  fileMirrorsTrace st -> fileMirrorsTrace (Server.handleEvent st e).
Proof.
  intros H.
  destruct e as [[[[lon |] [lat |]] |] | [g |] | [h |]]; cbn [Server.handleEvent];
    try exact H.
  - unfold Server.handlePlayerInfo.
    destruct (Server.differsFromLast (Server.lastRouteCoordinate st) _); [| exact H].
    destruct H as [Hn Hf]. apply saveRouteData_mirrors;
      cbn [Server.routeCollectionRequestCount Server.routeCoordinates
           Server.routeOutputFilePath Server.routeFile].
    + rewrite length_app, Hn. cbn [List.length]. lia.
    + intros Hpath. rewrite Hf, Hpath. reflexivity.
    + intros Hnil. apply app_eq_nil in Hnil as [_ Hnil]. discriminate.
  - destruct (Server.currentPlayerPosition st); exact H.
Qed.

Lemma run_path (events : list Server.event) (st : Server.Recorder) :
  Server.routeOutputFilePath (Server.run st events) = Server.routeOutputFilePath st.
Proof.
  revert st. induction events as [| e events IH]; intros st; [reflexivity |].
  cbn [Server.run fold_left]. unfold Server.run in IH. rewrite IH.
  destruct (handleEvent_appends st e) as (a & _ & _ & Hp). exact Hp.
Qed.

Lemma run_fileMirrorsTrace (events : list Server.event) (st : Server.Recorder) :
  fileMirrorsTrace st -> fileMirrorsTrace (Server.run st events).
Proof.
  revert st. induction events as [| e events IH]; intros st H; [exact H |].
  cbn [Server.run fold_left]. apply IH. apply handleEvent_fileMirrorsTrace. exact H.
Qed.

(** X14. The file follows the trace.  After any sequence of handled entries
    from the start of the server, the request count is the number of
    recorded coordinates and, when an output path is set and at least one
    coordinate was recorded, the file on disk holds the whole trace with
    that number as [totalPoints]; without an output path, or before the
    first coordinate, nothing has been written. *)
Theorem route_file_follows_trace (path : option string) (events : list Server.event) :
  let st := Server.run (Server.startRecorder path) events in
  Server.routeOutputFilePath st = path /\
  Server.routeCollectionRequestCount st = List.length (Server.routeCoordinates st) /\
  Server.routeFile st
  = match path, Server.routeCoordinates st with
    | Some _, _ :: _ =>
        Some {| Server.totalPoints := List.length (Server.routeCoordinates st);
                Server.requestCount := List.length (Server.routeCoordinates st);
                Server.fileCoordinates := Server.routeCoordinates st |}
    | _, _ => None
    end.
Proof.
  intros st.
  assert (Hpath : Server.routeOutputFilePath st = path)
    by (unfold st; rewrite run_path; reflexivity).
  assert (Hinv : fileMirrorsTrace st).
  { unfold st. apply run_fileMirrorsTrace. split; [reflexivity |].
    destruct path; reflexivity. }
  split; [exact Hpath |]. destruct Hinv as [Hn Hf]. rewrite Hpath in Hf.
  split; [exact Hn | exact Hf].
Qed.

(** ** Marker discovery *)

Lemma saveRouteData_disk (st : Collection.State) :
  exists file, Collection.saveRouteData st = Collection.with_disk file st.
Proof.
  destruct st as [trace lastc n pos g h found names file].
  unfold Collection.saveRouteData. cbn [Collection.routeCoordinates].
  destruct trace; eexists; reflexivity.
Qed.

Lemma anchored_grows (trace : list Coordinate) (c x : Coordinate) :
  anchored trace c -> anchored (trace ++ [x]) c.
Proof.
  intros (v & Hin & Hs). exists v. split; [| exact Hs].
  apply in_or_app. left. exact Hin.
Qed.

Lemma recordedMarker_grows (timetableData : list Stop) (trace : list Coordinate)
    (x : Coordinate) (m : Marker.t) :
  recordedMarker timetableData trace m ->
  recordedMarker timetableData (trace ++ [x]) m.
Proof.
  intros (Hdet & Hun & Hon). split; [| split; [exact Hun |]].
  - destruct Hdet as (H1 & H2 & H3 & (at_ & Hat & Hanch) & H5 & H6).
    repeat split; try assumption. exists at_. split; [exact Hat |].
    apply anchored_grows. exact Hanch.
  - destruct Hon as [Hno | (v & stamp & d & name & stop & Hin & Hrest)];
      [left; exact Hno | right].
    exists v, stamp, d, name, stop. split; [| exact Hrest].
    apply in_or_app. left. exact Hin.
Qed.

Lemma isNamed_eq (name : string) (m : Marker.t) :
  Collection.isNamed name m = true -> Marker.stationName m = Some name.
Proof.
  unfold Collection.isNamed. destruct (Marker.stationName m) as [s |];
    [| discriminate].
  intros H. apply String.eqb_eq in H. congruence.
Qed.

Lemma recordOnspot_detection (name : string) (pos : Coordinate) (now : string)
    (d : R) (found : list Marker.t) :
  map detection (Collection.recordOnspot name pos now d found) = map detection found.
Proof.
  induction found as [| m rest IH]; [reflexivity |].
  cbn [Collection.recordOnspot]. destruct (Collection.isNamed name m).
  - reflexivity.
  - cbn [map]. rewrite IH. reflexivity.
Qed.

Lemma recordOnspot_names (name : string) (pos : Coordinate) (now : string)
    (d : R) (found : list Marker.t) :
  map Marker.stationName (Collection.recordOnspot name pos now d found)
  = map Marker.stationName found.
Proof.
  induction found as [| m rest IH]; [reflexivity |].
  cbn [Collection.recordOnspot]. destruct (Collection.isNamed name m).
  - reflexivity.
  - cbn [map]. rewrite IH. reflexivity.
Qed.

Lemma recordOnspot_length (name : string) (pos : Coordinate) (now : string)
    (d : R) (found : list Marker.t) :
  List.length (Collection.recordOnspot name pos now d found) = List.length found.
Proof.
  rewrite <- (length_map Marker.stationName), recordOnspot_names.
  apply length_map.
Qed.

Lemma recordOnspot_recorded (timetableData : list Stop) (trace : list Coordinate)
    (name : string) (pos : Coordinate) (now : string) (d : R) (stop : Stop)
    (found : list Marker.t) :
  anchored trace pos -> d < 10 ->
  In stop timetableData -> apiName stop = JString name ->
  Forall (recordedMarker timetableData trace) found ->
  Forall (recordedMarker timetableData trace)
         (Collection.recordOnspot name pos now d found).
Proof.
  intros (v & Hin & Hlat & Hlon) Hd Hstop Hapi H.
  induction H as [| m rest Hm Hrest IH]; [constructor |].
  cbn [Collection.recordOnspot]. destruct (Collection.isNamed name m) eqn:E.
  - constructor; [| exact Hrest]. destruct Hm as (Hdet & Hun & _).
    split; [exact Hdet | split; [exact Hun |]]. right.
    exists v, now, d, name, stop. cbn. rewrite Hlat, Hlon.
    repeat split; try assumption; try reflexivity.
    apply isNamed_eq. exact E.
  - constructor; [exact Hm | exact IH].
Qed.

Section Discovery.

Variable timetableData : list Stop.

Lemma collected_saveRouteData (st : Collection.State) :
  collected timetableData st -> collected timetableData (Collection.saveRouteData st).
Proof.
  intros H. destruct (saveRouteData_disk st) as [file ->]. exact H.
Qed.

Lemma checkPassingStation_collected (now : string) (markerName : jsval)
    (distanceCM : R) (st : Collection.State) :
  collected timetableData st ->
  collected timetableData
    (Collection.checkPassingStation timetableData now markerName distanceCM st).
Proof.
  intros H. unfold Collection.checkPassingStation.
  destruct (js_lt distanceCM 1000) eqn:Hd; [| exact H]. cbn [andb].
  destruct (truthy_val markerName); [| exact H].
  destruct markerName as [| | name]; try exact H.
  destruct (Collection.currentPlayerPosition st) as [pos |] eqn:Hpos; [| exact H].
  destruct (existsb _ timetableData) eqn:Hstop; [| exact H].
  destruct (existsb _ (Collection.discoveredMarkers st)); [| exact H].
  apply collected_saveRouteData.
  apply existsb_exists in Hstop as (stop & Hin & Hapi).
  apply jsval_eqb_eq in Hapi. apply js_lt_iff in Hd.
  destruct H as (Hnames & Hdup & Hall & Hanch & Hlast).
  unfold collected. cbn.
  rewrite recordOnspot_names. split; [exact Hnames |]. split; [exact Hdup |].
  split; [| split; assumption].
  apply (recordOnspot_recorded timetableData _ name pos now _ stop);
    try assumption.
  - apply Hanch. exact Hpos.
  - lra.
Qed.

Lemma NoDup_snoc (l : list string) (x : string) :
  NoDup l -> ~ In x l -> NoDup (l ++ [x]).
Proof.
  intros Hl Hx. induction Hl as [| a l Ha Hl IH]; cbn.
  - constructor; [intros [] | constructor].
  - constructor.
    + intros Hin. apply in_app_or in Hin as [Hin | [-> | []]].
      * contradiction.
      * apply Hx. left. reflexivity.
    + apply IH. intros Hin. apply Hx. right. exact Hin.
Qed.

Lemma sight_collected (defaultType now : string) (st : Collection.State)
    (seen : Collection.Sighting.t) :
  collected timetableData st ->
  collected timetableData (Collection.sight timetableData defaultType now st seen).
Proof.
  intros H. unfold Collection.sight.
  set (markerName := Collection.or_val _ _).
  assert (H1 := checkPassingStation_collected now markerName
                  (Collection.Sighting.distanceToStationCM seen) st H).
  revert H1.
  generalize (Collection.checkPassingStation timetableData now markerName
                (Collection.Sighting.distanceToStationCM seen) st).
  intros st1 H1.
  destruct markerName as [| | name] eqn:Hname; try exact H1.
  destruct (Collection.currentPlayerPosition st1) as [pos |] eqn:Hpos; [| exact H1].
  destruct (truthy_val (JString name)) eqn:Htruthy; [| exact H1]. cbn [andb].
  destruct (existsb (String.eqb name) (Collection.processedMarkers st1)) eqn:Hseen;
    [exact H1 |]. cbn [negb].
  apply collected_saveRouteData.
  destruct H1 as (Hnames & Hdup & Hall & Hanch & Hlast).
  unfold collected. cbn.
  rewrite !map_app, Hnames. cbn [map Collection.newMarker Marker.stationName].
  split; [reflexivity |]. split; [| split; [| split; assumption]].
  - apply NoDup_snoc; [exact Hdup |]. intros Hin.
    assert (Hex : existsb (String.eqb name) (Collection.processedMarkers st1) = true).
    { apply existsb_exists. exists name. split; [exact Hin | apply String.eqb_refl]. }
    congruence.
  - apply Forall_app. split; [exact Hall |]. constructor; [| constructor].
    split; [| split].
    + unfold detected, Collection.newMarker. cbn.
      repeat split; eauto.
      * exists name. split; [reflexivity |]. intros ->. discriminate.
      * eexists. split; [reflexivity |].
        destruct (Hanch pos Hpos) as (v & Hin & Hlat & Hlon).
        exists v. split; [exact Hin |]. split; cbn; assumption.
    + unfold unresolved. cbn. auto.
    + left. unfold noOnspot. cbn. auto.
Qed.

Lemma sightAll_collected (defaultType now : string)
    (items : option (list Collection.Sighting.t)) (st : Collection.State) :
  collected timetableData st ->
  collected timetableData (Collection.sightAll timetableData defaultType now items st).
Proof.
  destruct items as [l |]; [| trivial]. cbn [Collection.sightAll].
  revert st. induction l as [| seen l IH]; intros st H; [exact H |].
  cbn [fold_left]. apply IH. apply sight_collected. exact H.
Qed.

Lemma handlePlayerInfo_collected (st : Collection.State)
    (geoLocation : option Server.GeoLocation) :
  collected timetableData st ->
  collected timetableData (Collection.handlePlayerInfo st geoLocation).
Proof.
  intros H. unfold Collection.handlePlayerInfo.
  destruct geoLocation as [[[lon |] [lat |]] |]; try exact H.
  destruct H as (Hnames & Hdup & Hall & Hanch & Hlast).
  destruct (Server.differsFromLast (Collection.lastRouteCoordinate st) _) eqn:E.
  - apply collected_saveRouteData. unfold collected. cbn.
    split; [exact Hnames |]. split; [exact Hdup |]. split; [| split].
    + eapply Forall_impl; [| exact Hall]. intros m.
      apply recordedMarker_grows.
    + intros pos [= <-]. eexists. split; [apply in_or_app; right; left; reflexivity |].
      split; reflexivity.
    + intros c [= <-]. apply in_or_app. right. left. reflexivity.
  - apply differsFromLast_false in E as (l & Hl & Hs).
    unfold collected. cbn.
    split; [exact Hnames |]. split; [exact Hdup |]. split; [exact Hall |].
    split; [| exact Hlast].
    intros pos [= <-]. exists l. split; [apply Hlast; exact Hl | exact Hs].
Qed.

Lemma handleEvent_collected (st : Collection.State) (e : Collection.event) :
  collected timetableData st ->
  collected timetableData (Collection.handleEvent timetableData st e).
Proof.
  intros H. destruct e as [geoLocation | [g |] | now h stations markers];
    cbn [Collection.handleEvent]; try exact H.
  - apply handlePlayerInfo_collected. exact H.
  - destruct (Collection.currentPlayerPosition st); [| exact H].
    apply sightAll_collected, sightAll_collected. destruct h; exact H.
Qed.

Lemma run_collected (events : list Collection.event) (st : Collection.State) :
  collected timetableData st ->
  collected timetableData (Collection.run timetableData st events).
Proof.
  revert st. induction events as [| e events IH]; intros st H; [exact H |].
  cbn [Collection.run fold_left]. apply IH. apply handleEvent_collected. exact H.
Qed.

End Discovery.

Lemma start_collected (timetableData : list Stop) (skeleton : option Collection.File) :
  collected timetableData (Collection.start skeleton).
Proof.
  unfold collected, Collection.start. cbn.
  split; [reflexivity |]. split; [constructor |]. split; [constructor |].
  split; intros x Hx; discriminate.
Qed.

(** ** The route file during the recording *)

Lemma nameOf_truthy (skeleton : option Collection.File) :
  truthy_val (JString (nameOf skeleton)) = true.
Proof.
  unfold nameOf. destruct skeleton as [existingData |]; [| reflexivity].
  destruct (truthy_val (JString (Collection.routeName existingData))) eqn:E;
    [exact E | reflexivity].
Qed.

Lemma saveRouteData_written (st : Collection.State) :
  Collection.routeCoordinates st <> [] ->
  Collection.saveRouteData st
  = Collection.with_disk
      (Some {| Collection.routeName := nameOf (Collection.disk st);
               Collection.totalPoints := List.length (Collection.routeCoordinates st);
               Collection.totalMarkers :=
                 List.length (Collection.discoveredMarkers st);
               Collection.requestCount := Collection.routeCollectionRequestCount st;
               Collection.fileCoordinates := Collection.routeCoordinates st;
               Collection.fileMarkers := Collection.discoveredMarkers st;
               Collection.fileTimetable := timetableField (Collection.disk st) |})
      st.
Proof.
  destruct st as [trace lastc n pos g h found names file].
  cbn [Collection.routeCoordinates]. intros Hne.
  destruct trace as [| c trace]; [contradiction |].
  unfold Collection.saveRouteData, nameOf, timetableField.
  cbn [Collection.routeCoordinates Collection.disk].
  destruct file; reflexivity.
Qed.

(** The file on disk carries the route name and the timetable that a save
    writes back. *)
Lemma fileIsCurrent_keeps (skeleton : option Collection.File) (st : Collection.State) :
  fileIsCurrent skeleton st ->
  nameOf (Collection.disk st) = nameOf skeleton /\
  timetableField (Collection.disk st) = timetableField skeleton.
Proof.
  unfold fileIsCurrent. destruct (Collection.routeCoordinates st).
  - intros ->. split; reflexivity.
  - intros ->. split; [| reflexivity].
    unfold nameOf at 1. cbn [Collection.routeName].
    rewrite nameOf_truthy. reflexivity.
Qed.

Lemma saveRouteData_current (skeleton : option Collection.File)
    (st : Collection.State) :
  nameOf (Collection.disk st) = nameOf skeleton ->
  timetableField (Collection.disk st) = timetableField skeleton ->
  Collection.routeCoordinates st <> [] ->
  fileIsCurrent skeleton (Collection.saveRouteData st).
Proof.
  intros Hname Htt Hne. rewrite (saveRouteData_written st Hne), Hname, Htt.
  unfold fileIsCurrent.
  cbn [Collection.with_disk Collection.routeCoordinates Collection.disk
       Collection.discoveredMarkers Collection.routeCollectionRequestCount].
  destruct (Collection.routeCoordinates st); [contradiction | reflexivity].
Qed.

Lemma anchored_nonempty (trace : list Coordinate) (c : Coordinate) :
  anchored trace c -> trace <> [].
Proof. intros (v & Hin & _) ->. contradiction. Qed.

Section RouteFile.

Variable timetableData : list Stop.
Variable skeleton : option Collection.File.

Lemma checkPassingStation_current (now : string) (markerName : jsval)
    (distanceCM : R) (st : Collection.State) :
  collected timetableData st -> fileIsCurrent skeleton st ->
  fileIsCurrent skeleton
    (Collection.checkPassingStation timetableData now markerName distanceCM st).
Proof.
  intros Hc H. unfold Collection.checkPassingStation.
  destruct (js_lt distanceCM 1000 && truthy_val markerName); [| exact H].
  destruct markerName as [| | name]; try exact H.
  destruct (Collection.currentPlayerPosition st) as [pos |] eqn:Hpos; [| exact H].
  destruct (existsb _ timetableData); [| exact H].
  destruct (existsb _ (Collection.discoveredMarkers st)); [| exact H].
  destruct (fileIsCurrent_keeps skeleton st H) as [Hname Htt].
  apply saveRouteData_current; cbn [Collection.with_markers Collection.disk
                                    Collection.routeCoordinates]; try assumption.
  destruct Hc as (_ & _ & _ & Hanch & _).
  apply (anchored_nonempty _ pos). apply Hanch. exact Hpos.
Qed.

Lemma sight_current (defaultType now : string) (st : Collection.State)
    (seen : Collection.Sighting.t) :
  collected timetableData st -> fileIsCurrent skeleton st ->
  fileIsCurrent skeleton (Collection.sight timetableData defaultType now st seen).
Proof.
  intros Hc H. unfold Collection.sight.
  set (markerName := Collection.or_val _ _).
  assert (Hc1 := checkPassingStation_collected timetableData now markerName
                   (Collection.Sighting.distanceToStationCM seen) st Hc).
  assert (H1 := checkPassingStation_current now markerName
                  (Collection.Sighting.distanceToStationCM seen) st Hc H).
  revert Hc1 H1.
  generalize (Collection.checkPassingStation timetableData now markerName
                (Collection.Sighting.distanceToStationCM seen) st).
  intros st1 Hc1 H1.
  destruct markerName as [| | name]; try exact H1.
  destruct (Collection.currentPlayerPosition st1) as [pos |] eqn:Hpos; [| exact H1].
  destruct (truthy_val (JString name)
            && negb (existsb (String.eqb name) (Collection.processedMarkers st1)));
    [| exact H1].
  destruct (fileIsCurrent_keeps skeleton st1 H1) as [Hname Htt].
  apply saveRouteData_current; cbn [Collection.with_markers Collection.disk
                                    Collection.routeCoordinates]; try assumption.
  destruct Hc1 as (_ & _ & _ & Hanch & _).
  apply (anchored_nonempty _ pos). apply Hanch. exact Hpos.
Qed.

Lemma sightAll_current (defaultType now : string)
    (items : option (list Collection.Sighting.t)) (st : Collection.State) :
  collected timetableData st -> fileIsCurrent skeleton st ->
  fileIsCurrent skeleton (Collection.sightAll timetableData defaultType now items st).
Proof.
  destruct items as [l |]; [| trivial]. cbn [Collection.sightAll].
  revert st. induction l as [| seen l IH]; intros st Hc H; [exact H |].
  cbn [fold_left]. apply IH.
  - apply sight_collected. exact Hc.
  - apply sight_current; assumption.
Qed.

Lemma handlePlayerInfo_current (st : Collection.State)
    (geoLocation : option Server.GeoLocation) :
  fileIsCurrent skeleton st ->
  fileIsCurrent skeleton (Collection.handlePlayerInfo st geoLocation).
Proof.
  intros H. unfold Collection.handlePlayerInfo.
  destruct geoLocation as [[[lon |] [lat |]] |]; try exact H.
  destruct (Server.differsFromLast (Collection.lastRouteCoordinate st) _).
  - destruct (fileIsCurrent_keeps skeleton st H) as [Hname Htt].
    apply saveRouteData_current; cbn [Collection.disk Collection.routeCoordinates];
      try assumption.
    intros Hnil. apply app_eq_nil in Hnil as [_ Hnil]. discriminate.
  - exact H.
Qed.

Lemma handleEvent_current (st : Collection.State) (e : Collection.event) :
  collected timetableData st -> fileIsCurrent skeleton st ->
  fileIsCurrent skeleton (Collection.handleEvent timetableData st e).
Proof.
  intros Hc H. destruct e as [geoLocation | [g |] | now h stations markers];
    cbn [Collection.handleEvent]; try exact H.
  - apply handlePlayerInfo_current. exact H.
  - destruct (Collection.currentPlayerPosition st); [| exact H].
    apply sightAll_current.
    + apply sightAll_collected. destruct h; exact Hc.
    + apply sightAll_current; destruct h; assumption.
Qed.

Lemma run_current (events : list Collection.event) (st : Collection.State) :
  collected timetableData st -> fileIsCurrent skeleton st ->
  fileIsCurrent skeleton (Collection.run timetableData st events).
Proof.
  revert st. induction events as [| e events IH]; intros st Hc H; [exact H |].
  cbn [Collection.run fold_left]. apply IH.
  - apply handleEvent_collected. exact Hc.
  - apply handleEvent_current; assumption.
Qed.

End RouteFile.

Lemma NoDup_map_Some (l : list string) : NoDup l -> NoDup (map Some l).
Proof.
  induction 1 as [| a l Ha Hl IH]; cbn [map]; constructor; [| exact IH].
  intros Hin. apply in_map_iff in Hin as (b & [= ->] & Hb). contradiction.
Qed.

Lemma record_collected (skeleton : option Collection.File)
    (events : list Collection.event) :
  collected (Collection.timetableOf skeleton) (Collection.record skeleton events).
Proof. apply run_collected, start_collected. Qed.

Lemma record_current (skeleton : option Collection.File)
    (events : list Collection.event) :
  fileIsCurrent skeleton (Collection.record skeleton events).
Proof.
  apply run_current; [apply start_collected | reflexivity].
Qed.

(** X15. No marker is recorded twice.  After any recording session the
    names of the discovered markers are those entered in
    [processedMarkers], in the same order and without repetition; and
    every discovered marker carries a non-empty name, a kind, a detection
    position at the spot of a recorded coordinate, a distance ahead and a
    time stamp, and none of the fields that the post-processing writes. *)
Theorem discovered_markers_are_distinct
    (skeleton : option Collection.File) (events : list Collection.event) :
  let st := Collection.record skeleton events in
  NoDup (map Marker.stationName (Collection.discoveredMarkers st)) /\
  map Marker.stationName (Collection.discoveredMarkers st)
  = map Some (Collection.processedMarkers st) /\
  Forall (fun m => detected (Collection.routeCoordinates st) m /\ unresolved m)
         (Collection.discoveredMarkers st).
Proof.
  intros st.
  destruct (record_collected skeleton events) as (Hnames & Hdup & Hall & _).
  fold st in Hnames, Hdup, Hall. split; [| split; [exact Hnames |]].
  - rewrite Hnames. apply NoDup_map_Some. exact Hdup.
  - eapply Forall_impl; [| exact Hall]. intros m (Hd & Hu & _). split; assumption.
Qed.

(** X16. On-spot positions are recorded for timetable stations only.  After
    any recording session, a discovered marker has either none of the four
    on-spot fields or all of them; in the second case the marker is named
    after the apiName of a stop of the timetable, the on-spot position is
    the position of a recorded coordinate, and the on-spot distance is
    below 10 m. *)
Theorem onspot_only_at_timetable_stations
    (skeleton : option Collection.File) (events : list Collection.event) :
  let st := Collection.record skeleton events in
  Forall (fun m => noOnspot m \/
                   onspotAt (Collection.timetableOf skeleton)
                            (Collection.routeCoordinates st) m)
         (Collection.discoveredMarkers st).
Proof.
  intros st.
  destruct (record_collected skeleton events) as (_ & _ & Hall & _).
  eapply Forall_impl; [| exact Hall]. intros m (_ & _ & H). exact H.
Qed.

(** X17. The route file is always up to date.  After any recording session:
    before the first coordinate the file is the skeleton as it was found
    (or absent) and no marker has been discovered; from the first
    coordinate on, the file holds exactly the trace and the markers that
    are in memory, with their numbers, under the route name of the
    skeleton (or Route Recording) and with the timetable of the skeleton.
    So the timetable written by the extraction survives the recording,
    and every coordinate, marker and on-spot position is on disk as soon
    as it is recorded. *)
Theorem route_file_is_up_to_date
    (skeleton : option Collection.File) (events : list Collection.event) :
  let st := Collection.record skeleton events in
  (Collection.routeCoordinates st = [] ->
   Collection.disk st = skeleton /\ Collection.discoveredMarkers st = []) /\
  (Collection.routeCoordinates st <> [] ->
   exists file,
     Collection.disk st = Some file /\
     Collection.fileCoordinates file = Collection.routeCoordinates st /\
     Collection.fileMarkers file = Collection.discoveredMarkers st /\
     Collection.totalPoints file = List.length (Collection.routeCoordinates st) /\
     Collection.totalMarkers file = List.length (Collection.discoveredMarkers st) /\
     Collection.routeName file = nameOf skeleton /\
     Collection.fileTimetable file = timetableField skeleton).
Proof.
  intros st.
  assert (Hfile := record_current skeleton events).
  destruct (record_collected skeleton events) as (_ & _ & Hall & _).
  fold st in Hfile, Hall. unfold fileIsCurrent in Hfile.
  destruct (Collection.routeCoordinates st) as [| c trace] eqn:E.
  - split; [| intros Hne; contradiction]. intros _. split; [exact Hfile |].
    destruct (Collection.discoveredMarkers st) as [| m rest]; [reflexivity |].
    apply Forall_inv in Hall. destruct Hall as ((_ & _ & _ & (at_ & _ & Hanch) & _) & _).
    destruct (anchored_nonempty _ _ Hanch eq_refl).
  - split; [intros Hnil; discriminate |]. intros _.
    eexists. split; [exact Hfile |]. cbn. repeat split; reflexivity.
Qed.

(** ** What a later sighting changes *)

Lemma extends_refl {A : Type} (l : list A) : extends l l.
Proof. exists []. symmetry. apply app_nil_r. Qed.

Lemma extends_trans {A : Type} (a b c : list A) :
  extends a b -> extends b c -> extends a c.
Proof.
  intros [x ->] [y ->]. exists (x ++ y). symmetry. apply app_assoc.
Qed.

Lemma saveRouteData_markers (st : Collection.State) :
  Collection.discoveredMarkers (Collection.saveRouteData st)
  = Collection.discoveredMarkers st /\
  Collection.processedMarkers (Collection.saveRouteData st)
  = Collection.processedMarkers st /\
  Collection.routeCoordinates (Collection.saveRouteData st)
  = Collection.routeCoordinates st /\
  Collection.currentPlayerPosition (Collection.saveRouteData st)
  = Collection.currentPlayerPosition st.
Proof.
  destruct (saveRouteData_disk st) as [file ->]. repeat split; reflexivity.
Qed.

Section Kept.

Variable timetableData : list Stop.

Let kept (st st' : Collection.State) : Prop :=
  extends (map detection (Collection.discoveredMarkers st))
          (map detection (Collection.discoveredMarkers st')) /\
  extends (Collection.processedMarkers st) (Collection.processedMarkers st').

Lemma kept_refl (st : Collection.State) : kept st st.
Proof. split; apply extends_refl. Qed.

Lemma kept_trans (a b c : Collection.State) : kept a b -> kept b c -> kept a c.
Proof. intros [H1 H2] [H3 H4]. split; eapply extends_trans; eassumption. Qed.

Lemma checkPassingStation_kept (now : string) (markerName : jsval)
    (distanceCM : R) (st : Collection.State) :
  kept st (Collection.checkPassingStation timetableData now markerName distanceCM st).
Proof.
  unfold Collection.checkPassingStation.
  destruct (js_lt distanceCM 1000 && truthy_val markerName); [| apply kept_refl].
  destruct markerName as [| | name]; try apply kept_refl.
  destruct (Collection.currentPlayerPosition st) as [pos |]; [| apply kept_refl].
  destruct (existsb _ timetableData); [| apply kept_refl].
  destruct (existsb _ (Collection.discoveredMarkers st)); [| apply kept_refl].
  unfold kept.
  match goal with |- context [Collection.saveRouteData ?s] =>
    destruct (saveRouteData_markers s) as (-> & -> & _) end.
  cbn [Collection.with_markers Collection.discoveredMarkers
       Collection.processedMarkers].
  rewrite recordOnspot_detection. split; apply extends_refl.
Qed.

Lemma sight_kept (defaultType now : string) (st : Collection.State)
    (seen : Collection.Sighting.t) :
  kept st (Collection.sight timetableData defaultType now st seen).
Proof.
  unfold Collection.sight.
  set (markerName := Collection.or_val _ _).
  assert (H1 := checkPassingStation_kept now markerName
                  (Collection.Sighting.distanceToStationCM seen) st).
  revert H1.
  generalize (Collection.checkPassingStation timetableData now markerName
                (Collection.Sighting.distanceToStationCM seen) st).
  intros st1 H1.
  destruct markerName as [| | name]; try exact H1.
  destruct (Collection.currentPlayerPosition st1) as [pos |]; [| exact H1].
  destruct (truthy_val (JString name)
            && negb (existsb (String.eqb name) (Collection.processedMarkers st1)));
    [| exact H1].
  apply (kept_trans st st1); [exact H1 |]. unfold kept.
  match goal with |- context [Collection.saveRouteData ?s] =>
    destruct (saveRouteData_markers s) as (-> & -> & _) end.
  cbn [Collection.with_markers Collection.discoveredMarkers
       Collection.processedMarkers].
  rewrite map_app. split; eexists; reflexivity.
Qed.

Lemma sightAll_kept (defaultType now : string)
    (items : option (list Collection.Sighting.t)) (st : Collection.State) :
  kept st (Collection.sightAll timetableData defaultType now items st).
Proof.
  destruct items as [l |]; [| apply kept_refl]. cbn [Collection.sightAll].
  revert st. induction l as [| seen l IH]; intros st; [apply kept_refl |].
  cbn [fold_left]. eapply kept_trans; [apply sight_kept | apply IH].
Qed.

Lemma handleEvent_kept (st : Collection.State) (e : Collection.event) :
  kept st (Collection.handleEvent timetableData st e).
Proof.
  destruct e as [geoLocation | [g |] | now h stations markers];
    cbn [Collection.handleEvent]; try (split; apply extends_refl).
  - unfold Collection.handlePlayerInfo.
    destruct geoLocation as [[[lon |] [lat |]] |]; try apply kept_refl.
    destruct (Server.differsFromLast (Collection.lastRouteCoordinate st) _);
      [| split; apply extends_refl].
    unfold kept.
    match goal with |- context [Collection.saveRouteData ?s] =>
      destruct (saveRouteData_markers s) as (-> & -> & _) end.
    split; apply extends_refl.
  - destruct (Collection.currentPlayerPosition st); [| apply kept_refl].
    eapply kept_trans; [| apply sightAll_kept].
    eapply kept_trans; [| apply sightAll_kept].
    destruct h; split; apply extends_refl.
Qed.

Lemma run_kept (events : list Collection.event) (st : Collection.State) :
  kept st (Collection.run timetableData st events).
Proof.
  revert st. induction events as [| e events IH]; intros st; [apply kept_refl |].
  cbn [Collection.run fold_left].
  eapply kept_trans; [apply handleEvent_kept | apply IH].
Qed.

End Kept.

(** X18. The first sighting of a marker is kept.  Whatever the state of the
    route collection and whatever entries it handles next, the name, kind,
    detection position, distance ahead, time stamp and platform length of
    the markers already discovered are afterwards what they were, in the
    same order, followed by those of the markers discovered since; and
    [processedMarkers] has only grown.  A marker seen again is not
    re-recorded and no marker is dropped. *)
Theorem first_sighting_is_kept
    (timetableData : list Stop) (st : Collection.State)
    (events : list Collection.event) :
  let st' := Collection.run timetableData st events in
  extends (map detection (Collection.discoveredMarkers st))
          (map detection (Collection.discoveredMarkers st')) /\
  extends (Collection.processedMarkers st) (Collection.processedMarkers st').
Proof. intros st'. apply run_kept. Qed.

Lemma recordOnspot_named (name : string) (pos : Coordinate) (now : string)
    (d : R) (found : list Marker.t) :
  NoDup (map Marker.stationName found) ->
  In (Some name) (map Marker.stationName found) ->
  forall m, In m (Collection.recordOnspot name pos now d found) ->
            Marker.stationName m = Some name ->
            exists before, In before found /\
                           m = Collection.setOnspot pos now d before.
Proof.
  induction found as [| a rest IH]; intros Hdup Hin m Hm Hname; [contradiction |].
  cbn [map] in Hdup, Hin. apply NoDup_cons_iff in Hdup as [Ha Hdup].
  cbn [Collection.recordOnspot] in Hm.
  destruct (Collection.isNamed name a) eqn:E.
  - apply isNamed_eq in E. destruct Hm as [<- | Hm].
    + exists a. split; [left; reflexivity | reflexivity].
    + exfalso. apply Ha. rewrite E, <- Hname. apply in_map. exact Hm.
  - destruct Hm as [<- | Hm].
    + unfold Collection.isNamed in E. rewrite Hname, String.eqb_refl in E.
      discriminate.
    + destruct Hin as [Hin | Hin].
      * unfold Collection.isNamed in E. rewrite Hin, String.eqb_refl in E.
        discriminate.
      * destruct (IH Hdup Hin m Hm Hname) as (before & Hb & ->).
        exists before. split; [right; exact Hb | reflexivity].
Qed.

Lemma recordOnspot_some (name : string) (pos : Coordinate) (now : string)
    (d : R) (found : list Marker.t) :
  In (Some name) (map Marker.stationName found) ->
  exists m, In m (Collection.recordOnspot name pos now d found) /\
            Marker.stationName m = Some name.
Proof.
  induction found as [| a rest IH]; intros Hin; [contradiction |].
  cbn [Collection.recordOnspot]. destruct (Collection.isNamed name a) eqn:E.
  - exists (Collection.setOnspot pos now d a). split; [left; reflexivity |].
    apply isNamed_eq in E. exact E.
  - destruct Hin as [Hin | Hin].
    + unfold Collection.isNamed in E. rewrite Hin, String.eqb_refl in E.
      discriminate.
    + destruct (IH Hin) as (m & Hm & Hname). exists m. split; [right |]; assumption.
Qed.

Lemma existsb_isNamed (name : string) (found : list Marker.t) :
  In (Some name) (map Marker.stationName found) ->
  existsb (Collection.isNamed name) found = true.
Proof.
  intros Hin. apply in_map_iff in Hin as (m & Hname & Hm).
  apply existsb_exists. exists m. split; [exact Hm |].
  unfold Collection.isNamed. rewrite Hname. apply String.eqb_refl.
Qed.

(** X19. The on-spot position is the latest reading under 10 m.  When a
    marker already discovered, named after a stop of the timetable, is
    reported less than 1000 cm ahead, its on-spot position, time stamp and
    distance become the current player position, the current time and that
    distance in meters, whatever on-spot data it held before: a later
    reading replaces an earlier one, closer or not. *)
Theorem onspot_is_latest_reading
    (timetableData : list Stop) (st : Collection.State) (now name : string)
    (distanceCM : R) (pos : Coordinate) (stop : Stop) :
  NoDup (map Marker.stationName (Collection.discoveredMarkers st)) ->
  In (Some name) (map Marker.stationName (Collection.discoveredMarkers st)) ->
  Collection.currentPlayerPosition st = Some pos ->
  truthy_val (JString name) = true ->
  In stop timetableData -> apiName stop = JString name ->
  distanceCM < 1000 ->
  let st' :=
    Collection.checkPassingStation timetableData now (JString name) distanceCM st in
  (exists m, In m (Collection.discoveredMarkers st') /\
             Marker.stationName m = Some name) /\
  (forall m, In m (Collection.discoveredMarkers st') ->
             Marker.stationName m = Some name ->
             Marker.onspot_latitude m = Some (latitude pos) /\
             Marker.onspot_longitude m = Some (longitude pos) /\
             Marker.onspot_timestamp m = Some now /\
             Marker.spoton_distance m = Some (distanceCM / 100)).
Proof.
  intros Hdup Hin Hpos Htruthy Hstop Hapi Hd st'.
  assert (Hst' : Collection.discoveredMarkers st'
                 = Collection.recordOnspot name pos now (distanceCM / 100)
                     (Collection.discoveredMarkers st)).
  { unfold st', Collection.checkPassingStation.
    rewrite (js_lt_true _ _ Hd), Htruthy, Hpos. cbn [andb].
    replace (existsb _ timetableData) with true.
    2:{ symmetry. apply existsb_exists. exists stop. split; [exact Hstop |].
        apply jsval_eqb_eq. exact Hapi. }
    rewrite (existsb_isNamed name _ Hin).
    match goal with |- context [Collection.saveRouteData ?s] =>
      destruct (saveRouteData_markers s) as (-> & _) end.
    reflexivity. }
  rewrite Hst'. split.
  - apply recordOnspot_some. exact Hin.
  - intros m Hm Hname.
    destruct (recordOnspot_named name pos now (distanceCM / 100) _ Hdup Hin m Hm Hname)
      as (before & _ & ->).
    repeat split; reflexivity.
Qed.

Lemma onspot_is_latest_reading_witness :
  exists m,
    In m (Collection.discoveredMarkers
            (Collection.checkPassingStation twoStops "2026-01-03T09:00:00.000Z"
               (JString "London Euston 5") 900 atStation)) /\
    Marker.stationName m = Some "London Euston 5"%string.
Proof.
  refine (proj1 (onspot_is_latest_reading twoStops atStation
                   "2026-01-03T09:00:00.000Z" "London Euston 5" 900
                   (position 1 1)
                   (mkStop (JString "London Euston") (JString "09:00:00")
                           (JString "") (JString "5")
                           (JString "London Euston 5"))
                   _ _ eq_refl eq_refl _ eq_refl _)).
  - cbn. constructor; [intros [] | constructor].
  - left. reflexivity.
  - right. left. reflexivity.
  - lra.
Defined.

(** ** The outcome of the post-processing *)

Lemma processMarker_used (coords : list Coordinate) (timetableStations : list string)
    (m : Marker.t) :
  coords <> [] ->
  snd (processMarker coords timetableStations m)
  = match onspotData m, detectionData m with
    | Some _, _ => Method1
    | None, Some _ => Method2
    | None, None => NoData
    end.
Proof.
  intros Hne. unfold processMarker.
  set (marked := MarkerOps.set_isTimetableStation _ m).
  rewrite <- (onspotData_set_isTimetableStation
                (includes timetableStations (Marker.stationName m)) m).
  rewrite <- (detectionData_set_isTimetableStation
                (includes timetableStations (Marker.stationName m)) m).
  fold marked. unfold resolveMarker, anchorAndWalk.
  destruct (onspotData marked) as [[[lat lon] d] |].
  - destruct (followRoutePath_returns coords
                (findNearestCoordinateIndex coords lat lon) d Hne) as [p ->].
    reflexivity.
  - destruct (detectionData marked) as [[[lat lon] d] |]; [| reflexivity].
    destruct (followRoutePath_returns coords
                (findNearestCoordinateIndex coords lat lon) d Hne) as [p ->].
    reflexivity.
Qed.

Lemma processMarker_counted (coords : list Coordinate)
    (timetableStations : list string) (m : Marker.t) :
  coords <> [] ->
  counted (snd (processMarker coords timetableStations m))
  = (if hasData m then 1 else 0)%nat /\
  snd (processMarker coords timetableStations m) <> Failed.
Proof.
  intros Hne. rewrite (processMarker_used coords timetableStations m Hne).
  unfold hasData. destruct (onspotData m), (detectionData m);
    split; try reflexivity; discriminate.
Qed.

Lemma list_sum_counted (coords : list Coordinate) (timetableStations : list string)
    (ms : list Marker.t) :
  coords <> [] ->
  list_sum (map (fun r => counted (snd r))
                (map (processMarker coords timetableStations) ms))
  = List.length (filter hasData ms).
Proof.
  intros Hne. induction ms as [| m ms IH]; [reflexivity |].
  cbn [map filter].
  change (list_sum (?a :: ?l)) with (a + list_sum l)%nat. rewrite IH.
  destruct (processMarker_counted coords timetableStations m Hne) as [-> _].
  destruct (hasData m); reflexivity.
Qed.

Lemma processMarkers_returns (data : RouteData) (timetableStations : list string)
    (coords : list Coordinate) (ms : list Marker.t) :
  coordinates data = Some coords -> coords <> [] -> markers data = Some ms ->
  processMarkers data timetableStations
  = Returns (List.length (filter hasData ms),
             {| coordinates := Some coords;
                markers := Some (map (fun m =>
                                        fst (processMarker coords timetableStations m))
                                     ms);
                timetable := timetable data |}).
Proof.
  intros Hcoords Hne Hms. unfold processMarkers. rewrite Hcoords, Hms.
  destruct coords as [| c coords]; [contradiction |].
  rewrite (list_sum_counted (c :: coords) timetableStations ms Hne).
  rewrite map_map. reflexivity.
Qed.

(** X20. What the post-processing returns.  For route data whose marker
    distances are numbers, [processMarkers] raises its error exactly when
    the coordinates are missing or empty.  Otherwise it returns: 0 and the
    data untouched when there is no marker list; else the number of
    markers for which one of the two guards holds, and the data with every
    marker replaced, in order and under the same name, by its processed
    record. *)
Theorem resolver_outcome (data : RouteData) (timetableStations : list string) :
  (coordinates data = None \/ coordinates data = Some [] ->
   processMarkers data timetableStations
   = Raised "Invalid route data: missing or empty coordinates array") /\
  (forall coords,
      coordinates data = Some coords -> coords <> [] ->
      (markers data = None ->
       processMarkers data timetableStations = Returns (0%nat, data)) /\
      (forall ms,
          markers data = Some ms ->
          let out := map (fun m => fst (processMarker coords timetableStations m)) ms in
          processMarkers data timetableStations
          = Returns (List.length (filter hasData ms),
                     {| coordinates := coordinates data; markers := Some out;
                        timetable := timetable data |}) /\
          map Marker.stationName out = map Marker.stationName ms)).
Proof.
  split.
  - intros [H | H]; unfold processMarkers; rewrite H; reflexivity.
  - intros coords Hcoords Hne. split.
    + intros Hms. unfold processMarkers. rewrite Hcoords, Hms.
      destruct coords; [contradiction | reflexivity].
    + intros ms Hms out. split.
      * unfold processMarkers. rewrite Hcoords, Hms.
        destruct coords as [| c coords]; [contradiction |].
        rewrite (list_sum_counted (c :: coords) timetableStations ms Hne).
        unfold out. rewrite map_map. reflexivity.
      * unfold out. rewrite map_map. apply map_ext. intros m.
        apply (processMarker_cleaned coords timetableStations m).
Qed.

Lemma processMarker_again (coords : list Coordinate)
    (timetableStations : list string) (m : Marker.t) :
  let out := fst (processMarker coords timetableStations m) in
  processMarker coords timetableStations out = (out, NoData).
Proof.
  intros out.
  assert (Hclean := processMarker_cleaned coords timetableStations m).
  fold out in Hclean. revert Hclean. generalize out. clear out. intros out Hclean.
  destruct Hclean as (Hname & _ & _ & Hflag & Hrest).
  destruct out as [sn mn mt det dist ts pl olat olon ots od flag lat lon cm].
  cbn in Hname, Hflag, Hrest.
  destruct Hrest as (-> & -> & -> & -> & -> & -> & -> & -> & ->).
  subst sn flag. reflexivity.
Qed.

Lemma processMarkers_again (data : RouteData) (timetableStations : list string)
    (n : nat) (out : RouteData) :
  processMarkers data timetableStations = Returns (n, out) ->
  processMarkers out timetableStations = Returns (0%nat, out) /\
  coordinates out = coordinates data /\ timetable out = timetable data.
Proof.
  unfold processMarkers.
  destruct (coordinates data) as [[| c coords] |] eqn:Hcoords; try discriminate.
  destruct (markers data) as [ms |] eqn:Hms.
  - intros [= <- <-]. cbn [coordinates markers timetable].
    split; [| split; reflexivity]. clear Hms. do 2 f_equal.
    + induction ms as [| m ms IH]; [reflexivity |].
      cbn [map].
      change (list_sum (?a :: ?l)) with (a + list_sum l)%nat.
      rewrite (processMarker_again (c :: coords) timetableStations m).
      cbn [snd counted Nat.add]. exact IH.
    + f_equal. f_equal. induction ms as [| m ms IH]; [reflexivity |].
      cbn [map].
      rewrite (processMarker_again (c :: coords) timetableStations m).
      cbn [fst]. f_equal. exact IH.
  - intros [= <- <-]. rewrite Hcoords, Hms. split; [reflexivity |].
    split; reflexivity.
Qed.

Lemma processMarkers_with_timetable (data : RouteData)
    (timetableStations : list string) (n : nat) (out : RouteData)
    (other : option (list Stop)) :
  processMarkers data timetableStations = Returns (n, out) ->
  processMarkers {| coordinates := coordinates data; markers := markers data;
                    timetable := other |} timetableStations
  = Returns (n, {| coordinates := coordinates out; markers := markers out;
                   timetable := other |}).
Proof.
  unfold processMarkers. cbn [coordinates markers timetable].
  destruct (coordinates data) as [[| c coords] |] eqn:Hcoords; try discriminate.
  destruct (markers data) as [ms |] eqn:Hms; intros [= <- <-];
    cbn [coordinates markers]; rewrite ?Hcoords, ?Hms; reflexivity.
Qed.

Lemma processRouteFile_embedded (data : RouteData) (loaded : list string * list Stop)
    (tt : list Stop) (n : nat) (processed : RouteData) :
  timetable data = Some tt -> tt <> [] ->
  processMarkers data (stationNames tt) = Returns (n, processed) ->
  processRouteFile data loaded
  = Returns (Some {| coordinates := coordinates processed;
                     markers := markers processed; timetable := Some tt |}).
Proof.
  intros Htt Hne Hrun. unfold processRouteFile. rewrite Htt.
  destruct tt as [| stop rest]; [contradiction |]. destruct loaded as [a b].
  rewrite Hrun. cbn [bind List.length Nat.ltb Nat.leb Nat.eqb].
  rewrite andb_false_r. reflexivity.
Qed.

(** X21. Processing a processed file changes nothing.  When
    [processRouteFile] has written an output, running it again on that
    output (with the same timetable CSV, whose [apiNames] are the non-empty
    apiNames of its entries) finds no marker to process, and either writes
    the very same data again, when the output carries a non-empty
    timetable, or returns [false] and writes nothing. *)
Theorem reprocessing_changes_nothing
    (data : RouteData) (loaded : list string * list Stop) (out : RouteData) :
  fst loaded = stationNames (snd loaded) ->
  processRouteFile data loaded = Returns (Some out) ->
  processRouteFile out loaded
  = Returns (match timetable out with
             | Some (_ :: _) => Some out
             | _ => None
             end).
Proof.
  intros Hloaded. unfold processRouteFile at 1.
  destruct loaded as [apiNames csv]. cbn [fst snd] in Hloaded. subst apiNames.
  set (chosen := match timetable data with
                 | Some (stop :: rest) => (stationNames (stop :: rest), stop :: rest)
                 | _ => (stationNames csv, csv)
                 end).
  assert (Hchosen : fst chosen = stationNames (snd chosen) /\
                    (snd chosen = []
                     \/ timetable data = Some (snd chosen) \/ snd chosen = csv)).
  { unfold chosen. destruct (timetable data) as [[| stop rest] |]; cbn [fst snd]; auto. }
  assert (Hempty : snd chosen = [] -> csv = [] /\
                   match timetable data with Some (_ :: _) => False | _ => True end).
  { unfold chosen. destruct (timetable data) as [[| stop rest] |]; cbn [fst snd];
      try discriminate; auto. }
  destruct chosen as [timetableStations timetableData]. cbn [fst snd] in *.
  destruct Hchosen as [-> Hsource].
  destruct (processMarkers data (stationNames timetableData)) as [[n processed] | | |]
    eqn:Hfirst; cbn [bind]; try discriminate.
  destruct (processMarkers_again data _ n processed Hfirst) as (Hagain & Hc & Ht).
  destruct timetableData as [| stop rest].
  - cbn [List.length Nat.ltb Nat.leb Nat.eqb andb].
    rewrite andb_true_r. destruct (n =? 0)%nat; [discriminate |].
    intros [= <-]. destruct (Hempty eq_refl) as [-> Hnone].
    unfold processRouteFile. rewrite Ht.
    destruct (timetable data) as [[| stop rest] |]; try contradiction;
      cbn [stationNames flat_map] in *; rewrite Hagain; reflexivity.
  - cbn [List.length Nat.ltb Nat.leb Nat.eqb andb]. rewrite andb_false_r.
    intros [= <-]. cbn [timetable].
    unfold processRouteFile. cbn [timetable].
    assert (Hsame : processMarkers
                      {| coordinates := coordinates processed;
                         markers := markers processed;
                         timetable := Some (stop :: rest) |}
                      (stationNames (stop :: rest))
                    = Returns (0%nat,
                               {| coordinates := coordinates processed;
                                  markers := markers processed;
                                  timetable := Some (stop :: rest) |})).
    { apply (processMarkers_with_timetable processed _ 0 processed _ Hagain). }
    rewrite Hsame. reflexivity.
Qed.

Lemma reprocessing_changes_nothing_witness :
  processRouteFile scenarioProcessed ([], []) = Returns (Some scenarioProcessed).
Proof.
  refine (reprocessing_changes_nothing scenarioRecording ([], [])
            scenarioProcessed eq_refl _).
  apply (processRouteFile_embedded scenarioRecording ([], []) twoStops
           (list_sum (map (fun r => counted (snd r))
                          (map (processMarker scenarioRoute (stationNames twoStops))
                               [stationMarker])))
           scenarioProcessed).
  - reflexivity.
  - discriminate.
  - reflexivity.
Defined.

(** ** Timetable stations among the markers *)

Lemma in_stationNames (timetableData : list Stop) (s : string) :
  In s (stationNames timetableData) <->
  s <> EmptyString /\ exists stop, In stop timetableData /\ apiName stop = JString s.
Proof.
  unfold stationNames. rewrite in_flat_map. split.
  - intros (stop & Hin & Hs). destruct (apiName stop) as [| | t] eqn:E;
      try contradiction.
    destruct (truthy_val (JString t)) eqn:Ht; [| contradiction].
    destruct Hs as [<- | []]. split.
    + intros ->. discriminate.
    + exists stop. split; assumption.
  - intros (Hne & stop & Hin & Hapi). exists stop. split; [exact Hin |].
    rewrite Hapi. replace (truthy_val (JString s)) with true.
    + left. reflexivity.
    + symmetry. cbn. apply negb_true_iff. apply String.eqb_neq. exact Hne.
Qed.

Lemma includes_stationNames (timetableData : list Stop) (name : option string) :
  includes (stationNames timetableData) name = true <->
  inTimetable timetableData name.
Proof.
  unfold includes, inTimetable. destruct name as [s |].
  - rewrite existsb_exists. split.
    + intros (x & Hin & Heq). apply String.eqb_eq in Heq. subst x.
      apply in_stationNames in Hin as (Hne & stop & Hstop & Hapi).
      exists s, stop. auto.
    + intros (s' & stop & [= <-] & Hne & Hstop & Hapi).
      exists s. split; [| apply String.eqb_refl].
      apply in_stationNames. split; [exact Hne |]. exists stop. auto.
  - split; [discriminate |]. intros (s & stop & H & _). discriminate.
Qed.

(** X22. The timetable of the route file decides which markers are
    timetable stations.  When the input file carries a non-empty timetable
    (and a non-empty route and a marker list), [processRouteFile] writes
    an output whatever the timetable CSV holds: the same coordinates and
    timetable, and for every marker, in order, a record of the same name
    whose [isTimetableStation] is [true] exactly when that name is the
    non-empty apiName of a stop of the embedded timetable. *)
Theorem embedded_timetable_marks_stations
    (data : RouteData) (loaded : list string * list Stop)
    (tt : list Stop) (coords : list Coordinate) (ms : list Marker.t) :
  timetable data = Some tt -> tt <> [] ->
  coordinates data = Some coords -> coords <> [] ->
  markers data = Some ms ->
  exists outs,
    processRouteFile data loaded
    = Returns (Some {| coordinates := Some coords; markers := Some outs;
                       timetable := Some tt |}) /\
    Forall2 (fun m out =>
               Marker.stationName out = Marker.stationName m /\
               exists flag, Marker.isTimetableStation out = Some flag /\
                            (flag = true <-> inTimetable tt (Marker.stationName m)))
            ms outs.
Proof.
  intros Htt Hne Hcoords Hroute Hms.
  exists (map (fun m => fst (processMarker coords (stationNames tt) m)) ms).
  split.
  - assert (Hrun : processMarkers data (stationNames tt)
                   = Returns (List.length (filter hasData ms),
                              {| coordinates := Some coords;
                                 markers :=
                                   Some (map (fun m =>
                                                fst (processMarker coords
                                                       (stationNames tt) m)) ms);
                                 timetable := timetable data |})).
    { unfold processMarkers. rewrite Hcoords, Hms.
      destruct coords as [| c coords]; [contradiction |].
      rewrite (list_sum_counted (c :: coords) (stationNames tt) ms Hroute).
      rewrite map_map. reflexivity. }
    rewrite (processRouteFile_embedded data loaded tt _ _ Htt Hne Hrun).
    reflexivity.
  - clear Hms. induction ms as [| m ms IH]; cbn [map]; constructor; [| exact IH].
    destruct (processMarker_cleaned coords (stationNames tt) m)
      as (Hname & _ & _ & Hflag & _).
    split; [exact Hname |]. eexists. split; [exact Hflag |].
    apply includes_stationNames.
Qed.

Lemma embedded_timetable_marks_stations_witness :
  exists outs,
    processRouteFile scenarioRecording ([], [])
    = Returns (Some {| coordinates := Some scenarioRoute; markers := Some outs;
                       timetable := Some twoStops |}) /\
    Forall2 (fun m out =>
               Marker.stationName out = Marker.stationName m /\
               exists flag, Marker.isTimetableStation out = Some flag /\
                            (flag = true
                             <-> inTimetable twoStops (Marker.stationName m)))
            [stationMarker] outs.
Proof.
  refine (embedded_timetable_marks_stations scenarioRecording ([], []) twoStops
            scenarioRoute [stationMarker] eq_refl _ eq_refl _ eq_refl);
    discriminate.
Defined.

(** ** From the recording to the processed file *)

Lemma recordedMarker_placed (timetableData : list Stop) (trace coords : list Coordinate)
    (timetableStations : list string) (m : Marker.t) :
  coords <> [] -> Forall awayFromZero trace ->
  recordedMarker timetableData trace m ->
  hasData m = true /\
  placed timetableStations m (fst (processMarker coords timetableStations m)).
Proof.
  intros Hne Haway (Hdet & _ & Hon).
  rewrite Forall_forall in Haway.
  assert (Hdata : hasData m = true).
  { unfold hasData. destruct Hon as [(Hlat & _) | Hat].
    - destruct Hdet as (_ & _ & _ & (at_ & Hat & v & Hv & Hslat & Hslon) & (d & Hd) & _).
      destruct (Haway v Hv) as [Hlat0 Hlon0].
      unfold detectionData. rewrite Hat, Hd.
      rewrite !js_neq_true by congruence. cbn [andb].
      destruct (onspotData m); reflexivity.
    - destruct Hat as (v & stamp & d & name & stop & Hv & Hlat & Hlon & _ & Hd & _).
      destruct (Haway v Hv) as [Hlat0 Hlon0].
      unfold onspotData. rewrite Hlat, Hlon, Hd. cbn [truthy_num].
      rewrite !js_neq_true by assumption. reflexivity. }
  split; [exact Hdata |].
  destruct (processMarker_cleaned coords timetableStations m)
    as (Hname & _ & Htype & Hflag & _).
  assert (Hpos := processMarker_positioned coords timetableStations m Hne).
  unfold placed. split; [exact Hname |]. split; [exact Htype |].
  split; [exact Hflag |].
  unfold positionedFrom in Hpos. unfold hasData in Hdata.
  destruct (onspotData m) as [[[lat lon] d] |].
  - destruct Hpos as (p & _ & Hlat & Hlon). eauto.
  - destruct (detectionData m) as [[[lat lon] d] |]; [| discriminate].
    destruct Hpos as (p & _ & Hlat & Hlon). eauto.
Qed.

Lemma filter_all {A : Type} (f : A -> bool) (l : list A) :
  Forall (fun x => f x = true) l -> filter f l = l.
Proof.
  induction 1 as [| x l Hx Hl IH]; [reflexivity |].
  cbn [filter]. rewrite Hx, IH. reflexivity.
Qed.

(** X23. Every recorded marker gets a position.  Take any recording session
    that recorded at least one coordinate, none of them on the equator or
    on the prime meridian.  Then the route file on disk, read back and
    given to [processMarkers] with any list of timetable stations, is
    processed without error; the count returned is the number of markers
    discovered; and every marker comes out, in order, under its name and
    kind with the timetable flag and with a latitude and a longitude. *)
Theorem recording_is_resolvable
    (skeleton : option Collection.File) (events : list Collection.event)
    (timetableStations : list string) :
  let st := Collection.record skeleton events in
  Collection.routeCoordinates st <> [] ->
  Forall awayFromZero (Collection.routeCoordinates st) ->
  exists file outs,
    Collection.disk st = Some file /\
    processMarkers (Collection.parsed file) timetableStations
    = Returns (List.length (Collection.discoveredMarkers st),
               {| coordinates := Some (Collection.routeCoordinates st);
                  markers := Some outs;
                  timetable := timetableField skeleton |}) /\
    Forall2 (placed timetableStations) (Collection.discoveredMarkers st) outs.
Proof.
  intros st Hne Haway.
  assert (Hfile := record_current skeleton events).
  destruct (record_collected skeleton events) as (_ & _ & Hall & _).
  fold st in Hfile, Hall. unfold fileIsCurrent in Hfile.
  destruct (Collection.routeCoordinates st) as [| c trace] eqn:E; [contradiction |].
  rewrite <- E in *. clear E c trace.
  eexists. exists (map (fun m => fst (processMarker (Collection.routeCoordinates st)
                                       timetableStations m))
                       (Collection.discoveredMarkers st)).
  split; [exact Hfile |].
  assert (Hplaced : Forall (fun m =>
            hasData m = true /\
            placed timetableStations m
                   (fst (processMarker (Collection.routeCoordinates st)
                           timetableStations m)))
            (Collection.discoveredMarkers st)).
  { eapply Forall_impl; [| exact Hall]. intros m Hm.
    apply (recordedMarker_placed (Collection.timetableOf skeleton)
             (Collection.routeCoordinates st)); assumption. }
  split.
  - match goal with |- processMarkers ?d _ = _ =>
      rewrite (processMarkers_returns d timetableStations
                 (Collection.routeCoordinates st) (Collection.discoveredMarkers st)
                 eq_refl Hne eq_refl)
    end.
    rewrite filter_all.
    + reflexivity.
    + eapply Forall_impl; [| exact Hplaced]. intros m [H _]. exact H.
  - revert Hplaced. generalize (Collection.discoveredMarkers st).
    intros ms Hms. induction Hms as [| m ms [_ Hm] _ IH]; cbn [map]; constructor;
      assumption.
Qed.

Lemma checkPassingStation_trace (timetableData : list Stop) (now : string)
    (markerName : jsval) (distanceCM : R) (st : Collection.State) :
  Collection.routeCoordinates
    (Collection.checkPassingStation timetableData now markerName distanceCM st)
  = Collection.routeCoordinates st.
Proof.
  unfold Collection.checkPassingStation.
  destruct (js_lt distanceCM 1000 && truthy_val markerName); [| reflexivity].
  destruct markerName as [| | name]; try reflexivity.
  destruct (Collection.currentPlayerPosition st) as [pos |]; [| reflexivity].
  destruct (existsb _ timetableData); [| reflexivity].
  destruct (existsb _ (Collection.discoveredMarkers st)); [| reflexivity].
  match goal with |- context [Collection.saveRouteData ?s] =>
    destruct (saveRouteData_markers s) as (_ & _ & -> & _) end.
  reflexivity.
Qed.

Lemma sight_trace (timetableData : list Stop) (defaultType now : string)
    (st : Collection.State) (seen : Collection.Sighting.t) :
  Collection.routeCoordinates (Collection.sight timetableData defaultType now st seen)
  = Collection.routeCoordinates st.
Proof.
  unfold Collection.sight.
  set (markerName := Collection.or_val _ _).
  rewrite <- (checkPassingStation_trace timetableData now markerName
                (Collection.Sighting.distanceToStationCM seen) st).
  generalize (Collection.checkPassingStation timetableData now markerName
                (Collection.Sighting.distanceToStationCM seen) st).
  intros st1.
  destruct markerName as [| | name]; try reflexivity.
  destruct (Collection.currentPlayerPosition st1) as [pos |]; [| reflexivity].
  destruct (truthy_val (JString name)
            && negb (existsb (String.eqb name) (Collection.processedMarkers st1)));
    [| reflexivity].
  match goal with |- context [Collection.saveRouteData ?s] =>
    destruct (saveRouteData_markers s) as (_ & _ & -> & _) end.
  reflexivity.
Qed.

Lemma sightAll_trace (timetableData : list Stop) (defaultType now : string)
    (items : option (list Collection.Sighting.t)) (st : Collection.State) :
  Collection.routeCoordinates
    (Collection.sightAll timetableData defaultType now items st)
  = Collection.routeCoordinates st.
Proof.
  destruct items as [l |]; [| reflexivity]. cbn [Collection.sightAll].
  revert st. induction l as [| seen l IH]; intros st; [reflexivity |].
  cbn [fold_left]. rewrite IH. apply sight_trace.
Qed.

Lemma shortSession_trace :
  Collection.routeCoordinates (Collection.record None shortSession)
  = [ {| longitude := 1; latitude := 1; height := None; gradient := None |} ].
Proof.
  unfold Collection.record, Collection.run, shortSession.
  cbn [fold_left Collection.handleEvent].
  set (st1 := Collection.handlePlayerInfo _ _).
  assert (Hpos : Collection.currentPlayerPosition st1
                 = Some {| longitude := 1; latitude := 1;
                           height := None; gradient := None |}) by reflexivity.
  rewrite Hpos. rewrite !sightAll_trace. reflexivity.
Qed.

Lemma recording_is_resolvable_witness :
  exists file outs,
    Collection.disk (Collection.record None shortSession) = Some file /\
    processMarkers (Collection.parsed file) []
    = Returns (List.length (Collection.discoveredMarkers
                              (Collection.record None shortSession)),
               {| coordinates :=
                    Some (Collection.routeCoordinates
                            (Collection.record None shortSession));
                  markers := Some outs;
                  timetable := timetableField None |}) /\
    Forall2 (placed [])
            (Collection.discoveredMarkers (Collection.record None shortSession))
            outs.
Proof.
  refine (recording_is_resolvable None shortSession [] _ _);
    rewrite shortSession_trace.
  - discriminate.
  - constructor; [| constructor]. split; cbn; lra.
Defined.

(** ** The distance shown by the playback server *)






(** ** The timetable files *)

Lemma stationNames_app (a b : list Stop) :
  stationNames (a ++ b) = stationNames a ++ stationNames b.
Proof. unfold stationNames. apply flat_map_app. Qed.

Lemma loadLines_names (lines : list string) :
  forall apiNames timetableData,
    apiNames = stationNames timetableData ->
    fst (loadLines lines apiNames timetableData)
    = stationNames (snd (loadLines lines apiNames timetableData)).
Proof.
  induction lines as [| line rest IH]; intros apiNames timetableData H;
    cbn [loadLines]; [exact H |].
  destruct (5 <=? List.length (split comma line))%nat; [| apply IH; exact H].
  apply IH. rewrite stationNames_app, H. cbn [stationNames flat_map apiName].
  rewrite app_nil_r.
  destruct (truthy_val (JString (trim (nth 4 (split comma line) EmptyString))));
    [reflexivity | symmetry; apply app_nil_r].
Qed.

(** X25. The station names read from a timetable CSV.  Whatever the content
    of the CSV file (or without file), the [apiNames] that
    [loadTimetableStations] returns are the non-empty apiNames of the
    entries of the [timetableData] it returns, in order: the list that
    [processRouteFile] derives from an embedded timetable is derived the
    same way, so a timetable marks the same stations whether it is read
    from the CSV or from the route file. *)
Theorem loaded_station_names (csvContent : option string) :
  fst (loadTimetableStations csvContent)
  = stationNames (snd (loadTimetableStations csvContent)).
Proof.
  unfold loadTimetableStations. destruct csvContent as [content |]; [| reflexivity].
  destruct (split newline (trim content)) as [| header lines]; [reflexivity |].
  apply loadLines_names. reflexivity.
Qed.

Lemma contains_app (ch : ascii) (a b : string) :
  contains ch (a ++ b) = contains ch a || contains ch b.
Proof.
  induction a as [| c a IH]; [reflexivity |].
  cbn [append contains]. rewrite IH. apply orb_assoc.
Qed.

Lemma contains_join (ch sep : ascii) (parts : list string) :
  Ascii.eqb sep ch = false ->
  Forall (fun part => contains ch part = false) parts ->
  contains ch (join sep parts) = false.
Proof.
  intros Hsep H. induction H as [| part rest Hpart Hrest IH]; [reflexivity |].
  destruct rest as [| next rest]; [exact Hpart |].
  change (join sep (part :: next :: rest))
    with (part ++ String sep (join sep (next :: rest)))%string.
  rewrite contains_app, Hpart. cbn [contains orb]. rewrite Hsep, IH. reflexivity.
Qed.

Lemma split_join (sep : ascii) (parts : list string) :
  parts <> [] ->
  Forall (fun part => contains sep part = false) parts ->
  split sep (join sep parts) = parts.
Proof.
  intros Hne H. induction H as [| part rest Hpart Hrest IH]; [contradiction |].
  destruct rest as [| next rest].
  - apply split_without_separator. exact Hpart.
  - change (join sep (part :: next :: rest))
      with (part ++ String sep (join sep (next :: rest)))%string.
    rewrite (split_at_separator sep part _ Hpart). rewrite IH by discriminate.
    reflexivity.
Qed.

Lemma trimEnd_cons (c : ascii) (s : string) :
  trimEnd s = s -> s <> EmptyString -> trimEnd (String c s) = String c s.
Proof.
  intros H Hne. cbn [trimEnd]. rewrite H.
  destruct s; [contradiction | reflexivity].
Qed.

Lemma trimEnd_app (s t : string) :
  trimEnd t = t -> t <> EmptyString ->
  trimEnd (s ++ t) = (s ++ t)%string /\ (s ++ t)%string <> EmptyString.
Proof.
  intros H Hne. induction s as [| c s [IH IHne]]; [split; assumption |].
  cbn [append]. split; [| discriminate]. apply trimEnd_cons; assumption.
Qed.

Lemma trimEnd_join (sep : ascii) (parts : list string) :
  parts <> [] ->
  Forall (fun part => trimEnd part = part /\ part <> EmptyString) parts ->
  trimEnd (join sep parts) = join sep parts /\ join sep parts <> EmptyString.
Proof.
  intros Hne H. induction H as [| part rest Hpart Hrest IH]; [contradiction |].
  destruct rest as [| next rest]; [exact Hpart |].
  change (join sep (part :: next :: rest))
    with (part ++ String sep (join sep (next :: rest)))%string.
  destruct (IH ltac:(discriminate)) as [IH1 IH2].
  apply trimEnd_app; [| discriminate]. apply trimEnd_cons; assumption.
Qed.

Lemma trimEnd_field (field rest : string) (sep : ascii) :
  trimEnd rest = rest -> rest <> EmptyString ->
  trimEnd (field ++ String sep rest) = (field ++ String sep rest)%string /\
  (field ++ String sep rest)%string <> EmptyString.
Proof.
  intros H Hne. apply trimEnd_app; [| discriminate].
  apply trimEnd_cons; assumption.
Qed.

Lemma csvField_plain (field : string) :
  plain field -> Timetables.csvField field = field.
Proof.
  intros (H1 & H2 & H3). unfold Timetables.csvField. rewrite H1, H2, H3.
  reflexivity.
Qed.

Lemma csvLine_plain (destination arrival departure platform apiName : string) :
  plainFields (destination, arrival, departure, platform, apiName) ->
  Timetables.csvLine (destination, arrival, departure, platform, apiName)
  = join comma [destination; arrival; departure; platform; apiName] /\
  split comma (Timetables.csvLine (destination, arrival, departure, platform, apiName))
  = [destination; arrival; departure; platform; apiName] /\
  contains newline
    (Timetables.csvLine (destination, arrival, departure, platform, apiName)) = false /\
  (trimEnd (Timetables.csvLine (destination, arrival, departure, platform, apiName))
   = Timetables.csvLine (destination, arrival, departure, platform, apiName) /\
   Timetables.csvLine (destination, arrival, departure, platform, apiName)
   <> EmptyString).
Proof.
  intros (Hd & Ha & Hdep & Hp & Hapi & _ & Hend).
  assert (Hline : Timetables.csvLine (destination, arrival, departure, platform, apiName)
                  = join comma [destination; arrival; departure; platform; apiName]).
  { unfold Timetables.csvLine. cbn [map].
    rewrite !csvField_plain by assumption. reflexivity. }
  rewrite Hline. split; [reflexivity |]. split; [| split].
  - apply split_join; [discriminate |].
    repeat constructor; [apply Hd | apply Ha | apply Hdep | apply Hp | apply Hapi].
  - apply contains_join; [reflexivity |].
    repeat constructor; [apply Hd | apply Ha | apply Hdep | apply Hp | apply Hapi].
  - change (join comma [destination; arrival; departure; platform; apiName])
      with (destination ++ String comma
              (arrival ++ String comma
                 (departure ++ String comma (platform ++ String comma apiName))))%string.
    assert (Hlast : trimEnd (String comma apiName) = String comma apiName).
    { destruct apiName as [| c rest]; [reflexivity |].
      apply trimEnd_cons; [exact Hend | discriminate]. }
    destruct (trimEnd_app platform _ Hlast ltac:(discriminate)) as [K1 N1].
    destruct (trimEnd_field departure _ comma K1 N1) as [K2 N2].
    destruct (trimEnd_field arrival _ comma K2 N2) as [K3 N3].
    apply trimEnd_field; assumption.
Qed.

Lemma trim_tidy (s : string) : tidy s -> trim s = s.
Proof. intros [H1 H2]. unfold trim. rewrite H1. exact H2. Qed.

Lemma loadLines_plain (fields : list Timetables.Fields) :
  Forall plainFields fields ->
  forall apiNames timetableData,
    loadLines (map Timetables.csvLine fields) apiNames timetableData
    = (apiNames ++ stationNames (map Timetables.toStop fields),
       timetableData ++ map Timetables.toStop fields).
Proof.
  induction 1 as [| [[[[destination arrival] departure] platform] apiName] rest
                    Hplain Hrest IH]; intros apiNames timetableData.
  - cbn [map loadLines stationNames flat_map]. rewrite !app_nil_r. reflexivity.
  - cbn [map loadLines].
    destruct (csvLine_plain destination arrival departure platform apiName Hplain)
      as (_ & -> & _).
    cbn [List.length Nat.leb nth].
    assert (Htidy : tidy apiName) by apply Hplain.
    rewrite (trim_tidy apiName Htidy), IH.
    unfold Timetables.toStop at 3 5.
    change (stationNames (mkStop (JString destination) (JString arrival)
                                 (JString departure) (JString platform)
                                 (JString apiName)
                          :: map Timetables.toStop rest))
      with ((if truthy_val (JString apiName) then [apiName] else [])
            ++ stationNames (map Timetables.toStop rest)).
    rewrite <- !app_assoc. cbn [app].
    destruct (truthy_val (JString apiName)); rewrite <- ?app_assoc; reflexivity.
Qed.

(** X26. The HUD file and the skeleton hold the same timetable.  When no
    field of any line contains a comma, a double quote or a line break and
    no apiName starts or ends with white space, reading the file written by
    [writeToHUD] with [loadTimetableStations] gives, entry for entry, the
    timetable that [writeToJSONRouteSkeleton] writes into the route
    skeleton from the same rows, together with its non-empty apiNames. *)
Theorem hud_file_round_trip
    (data : list Timetables.Row) (extraData : option Timetables.ExtraData) :
  Forall plainFields (Timetables.entries data extraData) ->
  let timetable := Timetables.writeToJSONRouteSkeleton data extraData in
  loadTimetableStations (Some (Timetables.writeToHUD data extraData))
  = (stationNames timetable, timetable).
Proof.
  intros Hplain timetable. unfold timetable, Timetables.writeToJSONRouteSkeleton,
    Timetables.writeToHUD, loadTimetableStations.
  set (fields := Timetables.entries data extraData) in *.
  set (header := "Destination,Arrival,Departure,Platform,api_name"%string).
  assert (Hlines : Forall (fun line =>
                     contains newline line = false /\
                     (trimEnd line = line /\ line <> EmptyString))
                     (header :: map Timetables.csvLine fields)).
  { constructor.
    - split; [reflexivity |]. split; [reflexivity | discriminate].
    - clear header. induction Hplain
        as [| [[[[destination arrival] departure] platform] apiName] rest
              Hfield Hrest IH]; cbn [map]; constructor; [| exact IH].
      destruct (csvLine_plain destination arrival departure platform apiName Hfield)
        as (_ & _ & Hnl & Hend).
      split; assumption. }
  assert (Htrim : trim (join newline (header :: map Timetables.csvLine fields))
                  = join newline (header :: map Timetables.csvLine fields)).
  { unfold trim.
    assert (Hstart : trimStart (join newline (header :: map Timetables.csvLine fields))
                     = join newline (header :: map Timetables.csvLine fields)).
    { destruct (map Timetables.csvLine fields); reflexivity. }
    rewrite Hstart. apply trimEnd_join; [discriminate |].
    eapply Forall_impl; [| exact Hlines]. intros line [_ H]. exact H. }
  rewrite Htrim. rewrite split_join.
  - rewrite (loadLines_plain fields Hplain). reflexivity.
  - discriminate.
  - eapply Forall_impl; [| exact Hlines]. intros line [H _]. exact H.
Qed.

Lemma hud_file_round_trip_witness :
  loadTimetableStations (Some (Timetables.writeToHUD sampleRows sampleExtra))
  = (stationNames (Timetables.writeToJSONRouteSkeleton sampleRows sampleExtra),
     Timetables.writeToJSONRouteSkeleton sampleRows sampleExtra).
Proof.
  refine (hud_file_round_trip sampleRows sampleExtra _).
  repeat constructor.
Defined.

(** ** Marker discovery and the trace *)

Lemma collection_saveRouteData_variables (st : Collection.State) :
  collectionVariables (Collection.saveRouteData st) = collectionVariables st.
Proof. destruct (saveRouteData_disk st) as [file ->]. reflexivity. Qed.

Lemma server_saveRouteData_variables (st : Server.Recorder) :
  serverVariables (Server.saveRouteData st) = serverVariables st.
Proof.
  destruct st as [trace lastc n pos g h path file]. unfold Server.saveRouteData.
  cbn [Server.routeOutputFilePath Server.routeCoordinates].
  destruct path, trace; reflexivity.
Qed.

Lemma checkPassingStation_variables (timetableData : list Stop) (now : string)
    (markerName : jsval) (distanceCM : R) (st : Collection.State) :
  collectionVariables
    (Collection.checkPassingStation timetableData now markerName distanceCM st)
  = collectionVariables st.
Proof.
  unfold Collection.checkPassingStation.
  destruct (js_lt distanceCM 1000 && truthy_val markerName); [| reflexivity].
  destruct markerName as [| | name]; try reflexivity.
  destruct (Collection.currentPlayerPosition st) as [pos |]; [| reflexivity].
  destruct (existsb _ timetableData); [| reflexivity].
  destruct (existsb _ (Collection.discoveredMarkers st)); [| reflexivity].
  rewrite collection_saveRouteData_variables. reflexivity.
Qed.

Lemma sight_variables (timetableData : list Stop) (defaultType now : string)
    (st : Collection.State) (seen : Collection.Sighting.t) :
  collectionVariables (Collection.sight timetableData defaultType now st seen)
  = collectionVariables st.
Proof.
  unfold Collection.sight.
  set (markerName := Collection.or_val _ _).
  rewrite <- (checkPassingStation_variables timetableData now markerName
                (Collection.Sighting.distanceToStationCM seen) st).
  generalize (Collection.checkPassingStation timetableData now markerName
                (Collection.Sighting.distanceToStationCM seen) st).
  intros st1.
  destruct markerName as [| | name]; try reflexivity.
  destruct (Collection.currentPlayerPosition st1) as [pos |]; [| reflexivity].
  destruct (truthy_val (JString name)
            && negb (existsb (String.eqb name) (Collection.processedMarkers st1)));
    [| reflexivity].
  rewrite collection_saveRouteData_variables. reflexivity.
Qed.

Lemma sightAll_variables (timetableData : list Stop) (defaultType now : string)
    (items : option (list Collection.Sighting.t)) (st : Collection.State) :
  collectionVariables (Collection.sightAll timetableData defaultType now items st)
  = collectionVariables st.
Proof.
  destruct items as [l |]; [| reflexivity]. cbn [Collection.sightAll].
  revert st. induction l as [| seen l IH]; intros st; [reflexivity |].
  cbn [fold_left]. rewrite IH. apply sight_variables.
Qed.

Lemma handleEvent_variables (timetableData : list Stop) (st : Collection.State)
    (r : Server.Recorder) (e : Collection.event) :
  collectionVariables st = serverVariables r ->
  collectionVariables (Collection.handleEvent timetableData st e)
  = serverVariables (Server.handleEvent r (traceEvent e)).
Proof.
  intros H.
  assert (H' := H). unfold collectionVariables, serverVariables in H'.
  injection H' as Htrace Hlast Hcount Hpos Hg Hh.
  destruct e as [geoLocation | [g |] | now h stations markers];
    cbn [Collection.handleEvent traceEvent Server.handleEvent]; try exact H.
  - unfold Collection.handlePlayerInfo, Server.handlePlayerInfo.
    destruct geoLocation as [[[lon |] [lat |]] |]; try exact H.
    rewrite Hlast, Hg, Hh.
    destruct (Server.differsFromLast (Server.lastRouteCoordinate r) _).
    + rewrite collection_saveRouteData_variables, server_saveRouteData_variables.
      unfold collectionVariables, serverVariables. cbn.
      rewrite ?Htrace, ?Hlast, ?Hcount, ?Hpos, ?Hg, ?Hh. reflexivity.
    + unfold collectionVariables, serverVariables. cbn.
      rewrite ?Htrace, ?Hlast, ?Hcount, ?Hpos, ?Hg, ?Hh. reflexivity.
  - unfold collectionVariables, serverVariables. cbn.
    rewrite ?Htrace, ?Hlast, ?Hcount, ?Hpos, ?Hg, ?Hh. reflexivity.
  - rewrite Hpos. destruct h as [h |];
      (destruct (Server.currentPlayerPosition r) as [pos |] eqn:Hr; [| exact H]);
      rewrite !sightAll_variables; [| exact H].
    unfold collectionVariables, serverVariables. cbn.
    rewrite ?Htrace, ?Hlast, ?Hcount, ?Hpos, ?Hg, ?Hh, ?Hr. reflexivity.
Qed.

(** X27. Marker discovery never touches the trace.  For any skeleton, any
    timetable and any sequence of entries, the trace, its last coordinate,
    the request count, the current player position, gradient and height
    after the route collection with marker discovery are those of the
    route collection that handles the positions, gradients and heights
    alone: sightings and on-spot recordings add no coordinate and change
    none.  In particular the recorded trace has no two consecutive entries
    at the same (latitude, longitude). *)
Theorem discovery_leaves_trace_alone
    (timetableData : list Stop) (skeleton : option Collection.File)
    (path : option string) (events : list Collection.event) :
  collectionVariables (Collection.run timetableData (Collection.start skeleton) events)
  = serverVariables (Server.run (Server.startRecorder path) (map traceEvent events)) /\
  noAdjacentRepeat
    (Collection.routeCoordinates
       (Collection.run timetableData (Collection.start skeleton) events)).
Proof.
  assert (Hrun : forall evs st r,
             collectionVariables st = serverVariables r ->
             collectionVariables (Collection.run timetableData st evs)
             = serverVariables (Server.run r (map traceEvent evs))).
  { induction evs as [| e evs IH]; intros st r H; [exact H |].
    cbn [map Collection.run Server.run fold_left]. apply IH.
    apply handleEvent_variables. exact H. }
  assert (Heq := Hrun events (Collection.start skeleton) (Server.startRecorder path)
                      eq_refl).
  split; [exact Heq |].
  assert (Htrace : Collection.routeCoordinates
                     (Collection.run timetableData (Collection.start skeleton) events)
                   = Server.routeCoordinates
                       (Server.run (Server.startRecorder path) (map traceEvent events))).
  { unfold collectionVariables, serverVariables in Heq. congruence. }
  rewrite Htrace.
  apply (run_invariant (map traceEvent events) (Server.startRecorder path)
           (startRecorder_invariant path)).
Qed.

(** ** When the projector has a position to show *)


